(** * Radario parser: a shallow embedding of [escraper/parsers/radario.py]

    The development follows the Python source function by function.
    Python [str] values are sequences of Unicode code points, JSON objects
    are finite maps, and the methods of the [Radario] class are programs
    of a small state-and-exception monad whose state holds the instance
    attributes, the network, the warnings issued and the caller's list of
    already seen event ids. *)

From Stdlib Require Import ZArith NArith List String Ascii Bool Lia.
From Stdlib Require Import Numbers.DecimalString Numbers.DecimalZ.
From stdpp Require Import base option list gmap strings sorting.

Local Open Scope Z_scope.

(** ** Python strings *)

Module PyStr.

(** A Python [str] is a list of code points. *)
Abbreviation pystr := (list N).

(** Decoder for the UTF-8 bytes of a string literal of the source file:
    [need] continuation bytes are still expected for the code point whose
    high bits are in [acc]. *)
Fixpoint utf8_decode (need : nat) (acc : N) (bs : list N) : pystr :=
  match bs with
  | [] => []
  | b :: t =>
      match need with
      | S k =>
          let acc' := (acc * 64 + b mod 64)%N in
          match k with
          | O => acc' :: utf8_decode O 0%N t
          | S _ => utf8_decode k acc' t
          end
      | O =>
          if (b <? 128)%N then b :: utf8_decode O 0%N t
          else if (b <? 224)%N then utf8_decode 1 (b mod 32)%N t
          else if (b <? 240)%N then utf8_decode 2 (b mod 16)%N t
          else utf8_decode 3 (b mod 8)%N t
      end
  end.

(** [u "text"] is the Python string written ["text"] in the source. *)
Definition u (s : string) : pystr :=
  utf8_decode O 0%N (map N_of_ascii (list_ascii_of_string s)).

(** [s.startswith(p)] *)
Fixpoint starts_with (p s : pystr) : bool :=
  match p, s with
  | [], _ => true
  | _ :: _, [] => false
  | a :: p', b :: s' => (a =? b)%N && starts_with p' s'
  end.

(** [sub in s] *)
Fixpoint py_in (sub s : pystr) : bool :=
  starts_with sub s ||
  match s with
  | [] => false
  | _ :: t => py_in sub t
  end.

(** [s.find(sub)]: the lowest index at which [sub] occurs, [-1] when it
    does not occur. *)
Fixpoint py_find (sub s : pystr) : Z :=
  if starts_with sub s then 0
  else match s with
       | [] => -1
       | _ :: t => let r := py_find sub t in if r <? 0 then -1 else r + 1
       end.

(** [s[:n]] for [0 <= n]; a negative bound counts from the end. *)
Definition py_slice_to (n : Z) (s : pystr) : pystr :=
  if n <? 0 then take (Z.to_nat (Z.of_nat (length s) + n)) s
  else take (Z.to_nat n) s.

(** The scan of [s.replace(old, new)] for a non-empty [old]: [skip] code
    points of a matched occurrence remain to be dropped. *)
Fixpoint replace_go (old new : pystr) (skip : nat) (s : pystr) : pystr :=
  match s with
  | [] => []
  | c :: t =>
      match skip with
      | S k => replace_go old new k t
      | O =>
          if starts_with old s
          then new ++ replace_go old new (length old - 1) t
          else c :: replace_go old new O t
      end
  end.

(** [s.replace(old, new)]: every non-overlapping occurrence, leftmost
    first; an empty [old] matches before every code point and at the
    end. *)
Definition py_replace (old new s : pystr) : pystr :=
  match old with
  | [] => new ++ flat_map (fun c => c :: new) s
  | _ :: _ => replace_go old new O s
  end.

(** The scan of [s.split(sep)] for a non-empty [sep]. *)
Fixpoint split_go (sep : pystr) (skip : nat) (s : pystr) : list pystr :=
  match s with
  | [] => [[]]
  | c :: t =>
      match skip with
      | S k => split_go sep k t
      | O =>
          if starts_with sep s
          then [] :: split_go sep (length sep - 1) t
          else match split_go sep O t with
               | h :: r => (c :: h) :: r
               | [] => [[c]]
               end
      end
  end.

(** [s.split(sep)]; Python raises [ValueError] on an empty separator,
    which is [None] here. *)
Definition py_split (sep s : pystr) : option (list pystr) :=
  match sep with
  | [] => None
  | _ :: _ => Some (split_go sep O s)
  end.

(** [str.isspace] on one code point (CPython's [_PyUnicode_IsWhitespace]). *)
Definition is_space (c : N) : bool :=
  ((9 <=? c) && (c <=? 13) || (28 <=? c) && (c <=? 32)
   || (c =? 133) || (c =? 160) || (c =? 5760)
   || (8192 <=? c) && (c <=? 8202)
   || (c =? 8232) || (c =? 8233) || (c =? 8239) || (c =? 8287)
   || (c =? 12288))%N.

Fixpoint lstrip (s : pystr) : pystr :=
  match s with
  | [] => []
  | c :: t => if is_space c then lstrip t else s
  end.

(** [s.strip()] *)
Definition py_strip (s : pystr) : pystr := rev (lstrip (rev (lstrip s))).

(** [str(n)] for an [int]. *)
Definition str_int (n : Z) : pystr := u (NilEmpty.string_of_int (Z.to_int n)).

End PyStr.
Import PyStr.


(** ** Python values *)

(** A [float] is held by the digits of its shortest round-trip decimal
    form, as [float.__repr__] obtains them: the value of
    [FFinite neg ds decpt] is [0.d1 d2 ... dn * 10^decpt], negated when
    [neg]. Zero has the single digit [0] and [decpt = 1]. *)
Inductive pyfloat :=
| FNan
| FInf (neg : bool)
| FFinite (neg : bool) (digits : list N) (decpt : Z).

Definition digit_chars (ds : list N) : pystr := map (fun d => (48 + d)%N) ds.

Definition zeros (n : Z) : pystr := repeat 48%N (Z.to_nat n).

Definition sign_str (neg : bool) : pystr := if neg then u "-" else [].

(** The exponent as C's ["%+.02d"] prints it. *)
Definition exp_str (e : Z) : pystr :=
  (if e <? 0 then u "-" else u "+")
  ++ (if Z.abs e <? 10 then u "0" else []) ++ str_int (Z.abs e).

(** [repr(x)] of a [float] (CPython's [format_float_short], code ['r']):
    exponent notation when [decpt <= -4] or [decpt > 16], positional
    notation with at least one digit after the point otherwise. *)
Definition float_repr (x : pyfloat) : pystr :=
  match x with
  | FNan => u "nan"
  | FInf neg => sign_str neg ++ u "inf"
  | FFinite neg ds decpt =>
      sign_str neg ++
      if (decpt <=? -4) || (16 <? decpt) then
        digit_chars (take 1 ds)
        ++ (match drop 1 ds with [] => [] | r => u "." ++ digit_chars r end)
        ++ u "e" ++ exp_str (decpt - 1)
      else if decpt <=? 0 then
        u "0." ++ zeros (- decpt) ++ digit_chars ds
      else if Z.of_nat (length ds) <=? decpt then
        digit_chars ds ++ zeros (decpt - Z.of_nat (length ds)) ++ u ".0"
      else
        digit_chars (take (Z.to_nat decpt) ds) ++ u "."
        ++ digit_chars (drop (Z.to_nat decpt) ds)
  end.

(** The number written by a list of decimal digits. *)
Definition digits_value (ds : list N) : Z :=
  fold_left (fun acc d => 10 * acc + Z.of_N d) ds 0.

(** The float rounded toward zero ([int(x)]), undefined on [nan] and the
    infinities. *)
Definition float_trunc (x : pyfloat) : option Z :=
  match x with
  | FNan | FInf _ => None
  | FFinite neg ds decpt =>
      let m :=
        if decpt <=? 0 then 0
        else if Z.of_nat (length ds) <=? decpt
             then digits_value ds * 10 ^ (decpt - Z.of_nat (length ds))
             else digits_value (take (Z.to_nat decpt) ds) in
      Some (if neg then - m else m)
  end.

Definition float_is_zero (x : pyfloat) : bool :=
  match x with
  | FFinite _ ds _ => forallb (fun d => (d =? 0)%N) ds
  | _ => false
  end.

(** The scalar values of the API's JSON objects, as [json] decodes them. *)
Inductive jval :=
| JNull
| JBool (b : bool)
| JInt (n : Z)
| JFloat (x : pyfloat)
| JStr (s : pystr).

(** [str(v)] *)
Definition py_str (v : jval) : pystr :=
  match v with
  | JNull => u "None"
  | JBool true => u "True"
  | JBool false => u "False"
  | JInt n => str_int n
  | JFloat x => float_repr x
  | JStr s => s
  end.

(** Truth value of [v] in a condition. *)
Definition truthy (v : jval) : bool :=
  match v with
  | JNull => false
  | JBool b => b
  | JInt n => negb (n =? 0)
  | JFloat x => negb (float_is_zero x)
  | JStr s => match s with [] => false | _ => true end
  end.

(** [v != 0] *)
Definition ne_zero (v : jval) : bool :=
  match v with
  | JNull | JStr _ => true
  | JBool b => b
  | JInt n => negb (n =? 0)
  | JFloat x => negb (float_is_zero x)
  end.

(** Exceptions raised by the code and by the builtins it calls. *)
Inductive exn :=
| ValueError (msg : pystr)
| KeyError (key : pystr)
| TypeError
| AttributeError
| OverflowError.

(** A raw event record: one decoded JSON object of the API. *)
Abbreviation raw := (gmap string jval).

(** [d[key]] on a dict. *)
Definition getitem (d : raw) (key : string) : exn + jval :=
  match d !! key with
  | Some v => inr v
  | None => inl (KeyError (u key))
  end.

(** ** The module's collaborators *)

(** The canonical field names, one per [_<tag>] method of the class. *)
Inductive tag :=
| adress | category | date_from | date_to | date_from_to | id | place_name
| full_text | post_text | poster_imag | price | title | url
| is_registration_open.

Global Instance tag_eq_dec : EqDecision tag.
Proof. solve_decision. Defined.

(** The parameters of one request to the list endpoint. *)
Record events_request_params := {
  p_from : pystr;
  p_to : pystr;
  p_cityId : Z;
  p_limit : Z;
  p_offset : Z;
  p_online : bool;
  p_superTagId : option Z
}.

(** A response of the list endpoint: its truth value ([if response:]) and
    what [response.json()] gives, a list of raw records. *)
Record list_response := {
  lr_ok : bool;
  lr_json : exn + list raw
}.

(** A response of the detail endpoint. *)
Record detail_response := {
  status_code : Z;
  text : pystr;
  json : exn + raw
}.

(** What the file imports or inherits and the sources do not contain: the
    [BaseParser] methods and settings, [add_emoji], the transport, and the
    library functions whose tables are not reproduced here. [datetime] is
    the type of timezone-aware [datetime] values and [world] the state of
    the network; a naive [datetime] is its number of microseconds since
    0001-01-01T00:00:00. *)
Class Collaborators (datetime world : Type) := {
  (** [datetime.strptime(s, DATETIME_STRF).astimezone(self.TIMEZONE)],
      [None] when [s] does not match the format ([ValueError]) *)
  strptime_astimezone : pystr -> option datetime;
  (** [str(d)] of an aware [datetime] *)
  str_datetime : datetime -> pystr;
  (** [d.strftime("%Y-%m-%dT%H:%M:%S+03:00")] of a naive [datetime] *)
  strftime : Z -> pystr;
  (** [str.lower] *)
  lower : pystr -> pystr;
  (** the class [\d] of [re] on [str] patterns *)
  re_digit : N -> bool;
  (** [int(s)] of a [str], [None] for [ValueError] *)
  int_of_str : pystr -> option Z;
  remove_html_tags : pystr -> pystr;
  prepare_post_text : pystr -> pystr;
  add_emoji : pystr -> pystr;
  ALL_EVENT_TAGS : list tag;
  (** the clock and the network *)
  today : world -> Z;
  request_get_events : world -> events_request_params -> list_response * world;
  request_get_event : world -> pystr -> detail_response * world
}.

(** ** State and exceptions *)

Section Radario.
Context {datetime world : Type} `{Collaborators datetime world}.

(** One call to [self._request_get]. *)
Inductive request :=
| ListRequest (p : events_request_params)
| EventRequest (event_api_url : pystr).

(** What the methods read and write: the two attributes stashed on the
    instance, the network with the requests sent so far, the categories
    warned about, and the caller's list [existed_event_ids]. *)
Record state := {
  _date_from_ : option datetime;
  _date_to_ : option datetime;
  net : world;
  requests : list request;
  warnings : list pystr;
  existed_event_ids : list pystr
}.

(** How a method call ends. [OutOfFuel] belongs to the embedding of the
    [while] loop only. *)
Inductive outcome (A : Type) :=
| Ok (a : A)
| Raise (e : exn)
| OutOfFuel.
Global Arguments Ok {A} a.
Global Arguments Raise {A} e.
Global Arguments OutOfFuel {A}.

Definition M (A : Type) : Type := state -> outcome A * state.

Definition ret {A} (a : A) : M A := fun s => (Ok a, s).

Definition raise {A} (e : exn) : M A := fun s => (Raise e, s).

Definition bind {A B} (m : M A) (k : A -> M B) : M B :=
  fun s =>
    match m s with
    | (Ok a, s') => k a s'
    | (Raise e, s') => (Raise e, s')
    | (OutOfFuel, s') => (OutOfFuel, s')
    end.

Notation "x <- m ;; k" := (bind m (fun x => k))
  (at level 100, m at next level, right associativity).
Notation "m ;;; k" := (bind m (fun _ => k))
  (at level 100, right associativity).

(** A pure computation that may raise. *)
Definition lift {A} (r : exn + A) : M A :=
  match r with
  | inl e => raise e
  | inr a => ret a
  end.

(** Reading a part of the state. *)
Definition gets {A} (f : state -> A) : M A := fun s => (Ok (f s), s).

Definition modify (f : state -> state) : M unit := fun s => (Ok tt, f s).

Definition set_date_from_ (d : datetime) (s : state) : state :=
  {| _date_from_ := Some d; _date_to_ := _date_to_ s; net := net s;
     requests := requests s; warnings := warnings s;
     existed_event_ids := existed_event_ids s |}.

Definition set_date_to_ (d : datetime) (s : state) : state :=
  {| _date_from_ := _date_from_ s; _date_to_ := Some d; net := net s;
     requests := requests s; warnings := warnings s;
     existed_event_ids := existed_event_ids s |}.

Definition warn (cat : pystr) (s : state) : state :=
  {| _date_from_ := _date_from_ s; _date_to_ := _date_to_ s; net := net s;
     requests := requests s; warnings := warnings s ++ [cat];
     existed_event_ids := existed_event_ids s |}.

Definition append_existed (i : pystr) (s : state) : state :=
  {| _date_from_ := _date_from_ s; _date_to_ := _date_to_ s; net := net s;
     requests := requests s; warnings := warnings s;
     existed_event_ids := existed_event_ids s ++ [i] |}.

Definition sent (r : request) (w : world) (s : state) : state :=
  {| _date_from_ := _date_from_ s; _date_to_ := _date_to_ s; net := w;
     requests := requests s ++ [r]; warnings := warnings s;
     existed_event_ids := existed_event_ids s |}.

(** [self._request_get(self.BASE_EVENTS_API, params=p)] *)
Definition _request_get_events (p : events_request_params) : M list_response :=
  fun s =>
    let '(r, w) := request_get_events (net s) p in
    (Ok r, sent (ListRequest p) w s).

(** [self._request_get(event_api_url)] *)
Definition _request_get_event (event_api_url : pystr) : M detail_response :=
  fun s =>
    let '(r, w) := request_get_event (net s) event_api_url in
    (Ok r, sent (EventRequest event_api_url) w s).

(** ** Class constants *)

Definition BASE_URL : pystr := u "https://radario.ru/events/".
Definition BASE_EVENTS_API : pystr := u "https://radario.ru/web-api/affiche/events".
Definition parser_prefix : pystr := u "RADARIO-".

Definition AVAILABLE_CATEGORIES : list pystr :=
  [u "concert"; u "theatre"; u "museum"; u "education"; u "sport";
   u "entertainment"; u "kids"; u "show"].

(** ** Regular expressions of [_adress] *)

(** Length of the match of [\d+] followed by the literal [post] at the
    head of [s]: the longest run of digits first, giving digits back
    until [post] follows. *)
Fixpoint digits_then (post s : pystr) : option nat :=
  match s with
  | [] => None
  | c :: t =>
      if re_digit c then
        match digits_then post t with
        | Some n => Some (S n)
        | None => if starts_with post t then Some (S (length post)) else None
        end
      else None
  end.

(** Length of the match of [pre \d+ post] at the head of [s]. *)
Definition match_at (pre post s : pystr) : option nat :=
  if starts_with pre s
  then (fun n => length pre + n)%nat <$> digits_then post (drop (length pre) s)
  else None.

Fixpoint sub_go (pre post repl : pystr) (skip : nat) (s : pystr) : pystr :=
  match s with
  | [] => []
  | c :: t =>
      match skip with
      | S k => sub_go pre post repl k t
      | O =>
          match match_at pre post s with
          | Some n => repl ++ sub_go pre post repl (n - 1) t
          | None => c :: sub_go pre post repl O t
          end
      end
  end.

(** [re.sub(pre + r"\d+" + post, repl, s)] for literal [pre], [post]. *)
Definition re_sub (pre post repl s : pystr) : pystr := sub_go pre post repl O s.

(** [re.sub(r"^\d+" + post, "", s)] *)
Definition re_sub_start (post s : pystr) : pystr :=
  match match_at [] post s with
  | Some n => drop n s
  | None => s
  end.

(** ** Field mapping *)

(** The value of a canonical field. *)
Inductive fval :=
| FVal (v : jval)
| FDate (d : datetime).

(** A method of [str] called on [v]. *)
Definition as_str (v : jval) : exn + pystr :=
  match v with
  | JStr s => inr s
  | _ => inl AttributeError
  end.

Definition bind_sum {A B} (r : exn + A) (k : A -> exn + B) : exn + B :=
  match r with
  | inl e => inl e
  | inr a => k a
  end.

(** The three zip-code substitutions of [_adress]. *)
Definition remove_zip_code (full_address : pystr) : pystr :=
  re_sub_start (u ", ")
    (re_sub (u " ") (u ", ") (u " ")
       (re_sub (u " ") (u " ") (u " ") full_address)).

Definition _adress_pure (event_json_data : raw) : exn + pystr :=
  bind_sum (getitem event_json_data "placeAddress") (fun v =>
  bind_sum (as_str v) (fun a =>
  let full_address := py_strip a in
  let full_address := py_replace (u ", Центральный район") [] full_address in
  let full_address := remove_zip_code full_address in
  if py_in (u "онлайн") (lower full_address) then inr (u "Онлайн")
  else
    bind_sum (getitem event_json_data "cityName") (fun c =>
    let city_name :=
      match c with JNull => u "Санкт-Петербург" | _ => py_str c end in
    if negb (py_find (u ", " ++ city_name) full_address =? -1) then
      let end_idx := py_find (u ", " ++ city_name) full_address in
      inr (py_slice_to end_idx full_address)
    else if negb (py_find (city_name ++ u ", ") full_address =? -1) then
      inr (py_replace (city_name ++ u ", ") [] full_address)
    else inr full_address))).

Definition _adress (event_json_data : raw) : M fval :=
  a <- lift (_adress_pure event_json_data);; ret (FVal (JStr a)).

Definition _category (event_json_data : raw) : M fval :=
  v <- lift (getitem event_json_data "superTagName");;
  c <- lift (as_str v);;
  ret (FVal (JStr (py_strip c))).

(** [datetime.strptime(v, self.DATETIME_STRF).astimezone(self.TIMEZONE)] *)
Definition parse_date (v : jval) : exn + datetime :=
  match v with
  | JStr t =>
      match strptime_astimezone t with
      | Some d => inr d
      | None => inl (ValueError (u "time data does not match format"))
      end
  | _ => inl TypeError
  end.

Definition _date_from (event_json_data : raw) : M fval :=
  v <- lift (getitem event_json_data "beginDate");;
  d <- lift (parse_date v);;
  modify (set_date_from_ d);;;
  stashed <- gets _date_from_;;
  match stashed with
  | Some d' => ret (FDate d')
  | None => raise AttributeError
  end.

Definition _date_to (event_json_data : raw) : M fval :=
  v <- lift (getitem event_json_data "endDate");;
  d <- lift (parse_date v);;
  modify (set_date_to_ d);;;
  stashed <- gets _date_to_;;
  match stashed with
  | Some d' => ret (FDate d')
  | None => raise AttributeError
  end.

Definition _date_from_to (event_json_data : raw) : M fval :=
  stashed_from <- gets _date_from_;;
  match stashed_from with
  | None => raise AttributeError
  | Some f =>
      stashed_to <- gets _date_to_;;
      match stashed_to with
      | None => raise AttributeError
      | Some t => ret (FVal (JStr (str_datetime f ++ u "-#" ++ str_datetime t)))
      end
  end.

Definition _id_pure (event_json_data : raw) : exn + pystr :=
  bind_sum (getitem event_json_data "id") (fun v =>
  inr (parser_prefix ++ py_str v)).

Definition _id (event_json_data : raw) : M fval :=
  i <- lift (_id_pure event_json_data);; ret (FVal (JStr i)).

Definition _place_name (event_json_data : raw) : M fval :=
  v <- lift (getitem event_json_data "placeTitle");;
  p <- lift (as_str v);;
  ret (FVal (JStr (py_strip p))).

Definition _full_text_pure (event_json_data : raw) : exn + pystr :=
  bind_sum (getitem event_json_data "description") (fun v =>
  if truthy v then
    bind_sum (as_str v) (fun d =>
    inr (remove_html_tags (py_replace (u "<br/>") [10%N] d)))
  else inr []).

Definition _full_text (event_json_data : raw) : M fval :=
  t <- lift (_full_text_pure event_json_data);; ret (FVal (JStr t)).

Definition _post_text (event_json_data : raw) : M fval :=
  t <- lift (_full_text_pure event_json_data);;
  ret (FVal (JStr (prepare_post_text t))).

Definition _poster_imag (event_json_data : raw) : M fval :=
  event_image <- lift (getitem event_json_data "imageUri");;
  match event_image with
  | JNull => ret (FVal JNull)
  | _ => ret (FVal event_image)
  end.

(** [s.split('.')[0]] *)
Definition before_dot (s : pystr) : pystr :=
  match split_go (u ".") O s with
  | h :: _ => h
  | [] => []
  end.

Definition _price_pure (event_json_data : raw) : exn + pystr :=
  bind_sum (getitem event_json_data "minPrice") (fun p =>
  let whole := before_dot (py_str p) in
  bind_sum (getitem event_json_data "currency") (fun c =>
  bind_sum (as_str c) (fun cur =>
  inr (whole ++ py_replace (u "RUB") (u "₽") cur)))).

Definition _price (event_json_data : raw) : M fval :=
  p <- lift (_price_pure event_json_data);; ret (FVal (JStr p)).

Definition _title (event_json_data : raw) : M fval :=
  v <- lift (getitem event_json_data "title");;
  t <- lift (as_str v);;
  ret (FVal (JStr (add_emoji (py_strip t)))).

Definition _url (event_json_data : raw) : M fval :=
  i <- lift (_id_pure event_json_data);;
  ret (FVal (JStr (BASE_URL ++ py_replace parser_prefix [] i))).

Definition _is_registration_open (event_json_data : raw) : M fval :=
  v <- lift (getitem event_json_data "ticketCount");;
  ret (FVal (JBool (ne_zero v))).

(** [getattr(self, "_" + tag)] *)
Definition field (t : tag) : raw -> M fval :=
  match t with
  | adress => _adress
  | category => _category
  | date_from => _date_from
  | date_to => _date_to
  | date_from_to => _date_from_to
  | id => _id
  | place_name => _place_name
  | full_text => _full_text
  | post_text => _post_text
  | poster_imag => _poster_imag
  | price => _price
  | title => _title
  | url => _url
  | is_registration_open => _is_registration_open
  end.

(** ** Event assembly *)

(** A canonical event: the requested fields, in the order requested. *)
Abbreviation event := (list (tag * fval)).

(** Modelled from the spec: [BaseParser.parse] is defined in [base.py],
    which is not among the sources. Section 4.5: it invokes only the field
    functions of the requested tags and returns one event; fields that
    were not requested are absent. *)
Fixpoint parse (event_json_data : raw) (tags : list tag) : M event :=
  match tags with
  | [] => ret []
  | t :: ts =>
      v <- field t event_json_data;;
      e <- parse event_json_data ts;;
      ret ((t, v) :: e)
  end.

(** [tags or ALL_EVENT_TAGS] *)
Definition tags_or_all (tags : option (list tag)) : list tag :=
  match tags with
  | None | Some [] => ALL_EVENT_TAGS
  | Some ts => ts
  end.

(** [event.id]: the attribute is missing when the field was not
    requested. The [id] field of a parsed event is always a [str]. *)
Definition event_id_attr (e : event) : exn + pystr :=
  match list_find (fun tv => bool_decide (tv.1 = id)) e with
  | Some (_, (_, FVal (JStr i))) => inr i
  | Some _ => inl TypeError
  | None => inl AttributeError
  end.

(** ** [get_event] *)

(** [event_url.split('/')[-1]] *)
Definition last_segment (event_url : pystr) : pystr :=
  List.last (split_go (u "/") O event_url) [].

Definition fetch_failed (r : detail_response) : exn :=
  ValueError (u "Failed to fetch events. HTTP " ++ str_int (status_code r)
              ++ u ": " ++ text r).

(** [event_id] is [JNull] for [None]. *)
Definition get_event (event_id : jval) (event_url : option pystr)
    (tags : option (list tag)) : M event :=
  event_id <-
    match event_id, event_url with
    | JNull, Some event_url => ret (JStr (last_segment event_url))
    | JNull, None => raise (ValueError (u "'event_id' or 'event_url' required."))
    | _, _ => ret event_id
    end;;
  let event_api_url := BASE_EVENTS_API ++ u "/" ++ py_str event_id in
  response <- _request_get_event event_api_url;;
  if negb (status_code response =? 200) then raise (fetch_failed response)
  else
    event_json_data <- lift (json response);;
    parse event_json_data (tags_or_all tags).

(** ** [get_events] *)

(** A value of the [request_params] dict. *)
Inductive pval :=
| PVal (v : jval)
| PList (l : list pystr).

Definition categories_to_id (category : pystr) : exn + Z :=
  match
    list_find (fun kv => bool_decide (kv.1 = category))
      [(u "concert", 1); (u "theatre", 2); (u "museum", 3);
       (u "education", 4); (u "sport", 5); (u "entertainment", 6);
       (u "kids", 380); (u "show", 1598); (u "Active", 1669)]
  with
  | Some (_, (_, n)) => inr n
  | None => inl (KeyError category)
  end.

Definition cities_to_id (city : pval) : exn + Z :=
  match city with
  | PVal (JStr c) =>
      match
        list_find (fun kv => bool_decide (kv.1 = lower c))
          [(u "spb", 1); (u "kzn", 85); (u "msk", 2)]
      with
      | Some (_, (_, n)) => inr n
      | None => inl (KeyError (lower c))
      end
  | _ => inl AttributeError
  end.

(** Truth value of a parameter. *)
Definition ptruthy (v : pval) : bool :=
  match v with
  | PVal v => truthy v
  | PList l => match l with [] => false | _ => true end
  end.

(** [int(v)] *)
Definition py_int (v : pval) : exn + Z :=
  match v with
  | PVal (JInt n) => inr n
  | PVal (JBool b) => inr (if b then 1 else 0)
  | PVal (JFloat FNan) => inl (ValueError (u "cannot convert float NaN to integer"))
  | PVal (JFloat x) =>
      match float_trunc x with
      | Some n => inr n
      | None => inl OverflowError
      end
  | PVal (JStr t) =>
      match int_of_str t with
      | Some n => inr n
      | None => inl (ValueError (u "invalid literal for int() with base 10"))
      end
  | PVal JNull | PList _ => inl TypeError
  end.

(** Microseconds in a day, and the first instant after [datetime.max]. *)
Definition day_us : Z := 86400 * 1000000.
Definition datetime_end : Z := 3652059 * day_us.

(** [d + timedelta(days=n)] on a naive [datetime]. *)
Definition add_days (d n : Z) : exn + Z :=
  if 999999999 <? Z.abs n then inl OverflowError
  else
    let r := d + n * day_us in
    if (0 <=? r) && (r <? datetime_end) then inr r else inl OverflowError.

(** Lines 100 to 104: the range of dates requested. *)
Definition date_range (now : Z) (request_params : gmap string pval) : exn + (Z * Z) :=
  bind_sum (add_days now 1) (fun from_date =>
  match request_params !! "days" with
  | Some v =>
      bind_sum (py_int v) (fun n =>
      bind_sum (add_days from_date n) (fun to_date =>
      inr (from_date, to_date)))
  | None =>
      bind_sum (add_days from_date 8) (fun to_date =>
      inr (from_date, to_date))
  end).

(** The values a [for] statement draws from [v]. *)
Definition iterate (v : pval) : exn + list pystr :=
  match v with
  | PList l => inr l
  | PVal (JStr t) => inr (map (fun c => [c]) t)
  | PVal _ => inl TypeError
  end.

(** Lines 127 to 134: one record of a page. *)
Definition process_event (tags : option (list tag)) (events : list event)
    (event_json : raw) : M (list event) :=
  event_id <- lift (_id_pure event_json);;
  existed <- gets existed_event_ids;;
  if bool_decide (event_id ∈ existed) then ret events
  else
    raw_id <- lift (getitem event_json "id");;
    new_event <- get_event raw_id None (Some (tags_or_all tags));;
    let events := events ++ [new_event] in
    new_id <- lift (event_id_attr new_event);;
    modify (append_existed new_id);;;
    ret events.

(** The [for] loop over a page. *)
Fixpoint process_page (tags : option (list tag)) (events : list event)
    (list_event_from_json : list raw) : M (list event) :=
  match list_event_from_json with
  | [] => ret events
  | event_json :: rest =>
      events <- process_event tags events event_json;;
      process_page tags events rest
  end.

Definition limit : Z := 21.

(** Lines 109 to 136: the body of the [while] loop; [next] stands for the
    rest of the loop, entered after [offset += (limit-1)]. A short page
    leaves through [break]. *)
Definition page_iter (next : Z -> list event -> M (Z * list event))
    (from_date to_date city_id : Z) (is_online : bool)
    (tags : option (list tag)) (cat : pystr)
    (offset : Z) (events : list event) : M (Z * list event) :=
  superTagId <-
    (if bool_decide (cat = []) then ret None
     else n <- lift (categories_to_id cat);; ret (Some n));;
  let events_request_params :=
    {| p_from := strftime from_date; p_to := strftime to_date;
       p_cityId := city_id; p_limit := limit; p_offset := offset;
       p_online := is_online; p_superTagId := superTagId |} in
  response <- _request_get_events events_request_params;;
  list_event_from_json <-
    (if lr_ok response then lift (lr_json response) else ret []);;
  events <- process_page tags events list_event_from_json;;
  if Z.of_nat (length list_event_from_json) <? limit
  then ret (offset, events)
  else next (offset + (limit - 1)) events.

(** Lines 108 to 136: the [while] loop of one category. It returns the
    offset it leaves behind and the events collected. *)
Fixpoint page_loop (fuel : nat) (from_date to_date city_id : Z)
    (is_online : bool) (tags : option (list tag)) (cat : pystr)
    (offset : Z) (events : list event) : M (Z * list event) :=
  if 100 >=? offset then
    match fuel with
    | O => fun s => (OutOfFuel, s)
    | S fuel =>
        page_iter
          (page_loop fuel from_date to_date city_id is_online tags cat)
          from_date to_date city_id is_online tags cat offset events
    end
  else ret (offset, events).

(** Iterations the [while] loop can still make from [offset]. *)
Definition fuel_for (offset : Z) : nat := Z.to_nat (101 - offset).

(** Lines 106 to 139: the [for] loop over the categories. *)
Fixpoint for_categories (cats : list pystr) (from_date to_date city_id : Z)
    (is_online : bool) (tags : option (list tag))
    (offset : Z) (events : list event) : M (list event) :=
  match cats with
  | [] => ret events
  | cat :: rest =>
      if bool_decide (cat ∈ AVAILABLE_CATEGORIES ++ [[]]) then
        r <- page_loop (fuel_for offset) from_date to_date city_id is_online
               tags cat offset events;;
        for_categories rest from_date to_date city_id is_online tags r.1 r.2
      else
        modify (warn cat);;;
        for_categories rest from_date to_date city_id is_online tags
          offset events
  end.

(** [existed_event_ids] is the list held in the state. *)
Definition get_events (request_params : option (gmap string pval))
    (tags : option (list tag)) : M (list event) :=
  let request_params := default ∅ request_params in
  city_id <-
    match request_params !! "city" with
    | Some c => lift (cities_to_id c)
    | None => ret 1
    end;;
  let is_online :=
    match request_params !! "online" with
    | Some v => ptruthy v
    | None => false
    end in
  let events := [] in
  let offset := 0 in
  now <- gets (fun s => today (net s));;
  range <- lift (date_range now request_params);;
  cats <-
    match request_params !! "category" with
    | Some v => lift (iterate v)
    | None => ret [[]]
    end;;
  for_categories cats range.1 range.2 city_id is_online tags offset events.

End Radario.

(** ** A concrete instance

    A small server and simple stand-ins for the library functions, on
    which the definitions above can be run. *)

Module Demo.

(** Lower-casing of the Latin and the Russian alphabet. *)
Definition demo_lower (s : pystr) : pystr :=
  map (fun c =>
         if ((65 <=? c) && (c <=? 90) || (1040 <=? c) && (c <=? 1071))%N
         then (c + 32)%N
         else if (c =? 1025)%N then 1105%N else c) s.

Definition demo_digit (c : N) : bool := ((48 <=? c) && (c <=? 57))%N.

(** The record of the list endpoint for event [n]. *)
Definition summary (n : Z) : raw := {[ "id" := JInt n ]}.

(** The record of the detail endpoint for event [n]. *)
Definition detail (n : Z) : raw :=
  list_to_map
    [("id", JInt n);
     ("title", JStr (u " Концерт "));
     ("description", JStr (u "Первый<br/>Второй"));
     ("beginDate", JStr (u "2024-05-01T19:00:00.000+03:00"));
     ("endDate", JStr (u "2024-05-01T22:00:00.000+03:00"));
     ("placeAddress", JStr (u "190000, Санкт-Петербург, Невский пр., 1"));
     ("placeTitle", JStr (u "Зал"));
     ("cityName", JNull);
     ("superTagName", JStr (u "Концерты"));
     ("minPrice", JFloat (FFinite false [1; 2; 3; 4; 5; 6]%N 4));
     ("currency", JStr (u "RUB"));
     ("imageUri", JNull);
     ("ticketCount", JInt 12)].

Definition page (l : list raw) : list_response :=
  {| lr_ok := true; lr_json := inr l |}.

(** The list endpoint: two concerts, two theatre events (one of them also
    a concert), an endless supply of full pages for sport, one event when
    no category is asked for, and a failure for the other categories. *)
Definition demo_list (p : events_request_params) : list_response :=
  match p_superTagId p with
  | Some 1 => if p_offset p =? 0 then page [summary 1; summary 2] else page []
  | Some 2 => if p_offset p =? 0 then page [summary 2; summary 3] else page []
  | Some 5 => page (repeat (summary 7) 21)
  | None => if p_offset p =? 0 then page [summary 9] else page []
  | Some _ => {| lr_ok := false; lr_json := inl (ValueError []) |}
  end.

Definition known_events : list Z := [1; 2; 3; 7; 9].

Definition demo_detail (event_api_url : pystr) : detail_response :=
  match
    list_find
      (fun n => bool_decide (event_api_url = BASE_EVENTS_API ++ u "/" ++ str_int n))
      known_events
  with
  | Some (_, n) => {| status_code := 200; text := []; json := inr (detail n) |}
  | None =>
      {| status_code := 404; text := u "Not Found";
         json := inl (ValueError (u "Expecting value")) |}
  end.

(** The world counts the requests it has served. *)
#[export] Instance demo : Collaborators Z nat := {|
  strptime_astimezone := fun t =>
    match t with [] => None | _ => Some (Z.of_nat (length t)) end;
  str_datetime := str_int;
  strftime := str_int;
  lower := demo_lower;
  re_digit := demo_digit;
  int_of_str := fun t => if bool_decide (t = u "3") then Some 3 else None;
  remove_html_tags := fun t => t;
  prepare_post_text := fun t => t;
  add_emoji := fun t => t;
  ALL_EVENT_TAGS :=
    [adress; category; date_from; date_to; date_from_to; id; place_name;
     post_text; poster_imag; price; title; url; is_registration_open;
     full_text];
  today := fun _ => 738000 * day_us;
  request_get_events := fun w p => (demo_list p, S w);
  request_get_event := fun w a => (demo_detail a, S w)
|}.

(** A fresh parser and an empty list of seen ids. *)
Definition st0 : @state Z nat :=
  {| _date_from_ := None; _date_to_ := None; net := O; requests := [];
     warnings := []; existed_event_ids := [] |}.

End Demo.

(** * Vocabulary of the statements *)

Section Vocabulary.
Context {datetime world : Type} `{Collaborators datetime world}.
Local Abbreviation state := (@state datetime world).
Local Abbreviation M := (@M datetime world).
Local Abbreviation fval := (@fval datetime).
Local Abbreviation event := (list (tag * fval)).

(** The text [_adress] tests for the online marker: the stripped address
    without the district suffix and the zip code. *)
Definition cleaned_address (a : pystr) : pystr :=
  remove_zip_code (py_replace (u ", Центральный район") [] (py_strip a)).

(** A computation that leaves the state alone and gives the same outcome
    from every state. *)
Definition stateless {A} (m : M A) : Prop :=
  forall s s', (m s).2 = s /\ (m s).1 = (m s').1.

(** The reading of C3: every field function is stateless. *)
Definition all_fields_stateless : Prop :=
  forall t event_json_data, stateless (field t event_json_data).

(** The states that differ at most in the stashed [_date_from_]
    (respectively [_date_to_]). *)
Definition same_but_date_from (s s' : state) : Prop :=
  _date_to_ s' = _date_to_ s /\ net s' = net s /\ requests s' = requests s
  /\ warnings s' = warnings s /\ existed_event_ids s' = existed_event_ids s.

Definition same_but_date_to (s s' : state) : Prop :=
  _date_from_ s' = _date_from_ s /\ net s' = net s /\ requests s' = requests s
  /\ warnings s' = warnings s /\ existed_event_ids s' = existed_event_ids s.

(** Every run of [m] takes a state to one related to it by [R]. *)
Definition steps (R : state -> state -> Prop) {A} (m : M A) : Prop :=
  forall s, R s (m s).2.

(** The offsets of the requests sent to the list endpoint, in order. *)
Definition list_offsets (rs : list request) : list Z :=
  omap (fun r => match r with
                 | ListRequest p => Some (p_offset p)
                 | EventRequest _ => None
                 end) rs.

(** [s'] extends the log of [s] by requests to the detail endpoint only. *)
Definition only_event_requests (s s' : state) : Prop :=
  exists l, requests s' = requests s ++ l /\ list_offsets l = [].

(** [m] never runs out of fuel. *)
Definition terminates {A} (m : M A) : Prop :=
  forall s, (m s).1 <> OutOfFuel.

(** Lines 123 to 126: the page a response stands for. *)
Definition decoded_page (response : list_response) : exn + list raw :=
  if lr_ok response then lr_json response else inr [].

(** The first [k] offsets requested from [offset] on. *)
Definition arith (offset : Z) (k : nat) : list Z :=
  map (fun i => offset + (limit - 1) * Z.of_nat i) (seq 0 k).

(** The detail endpoint answers a request for an id with a record of that
    id (in the string form the canonical id is built from). *)
Definition detail_echoes_id : Prop :=
  forall (w w' : world) (v : jval) (r : detail_response) (event_json_data : raw),
    request_get_event w (BASE_EVENTS_API ++ u "/" ++ py_str v) = (r, w') ->
    json r = inr event_json_data ->
    exists v', event_json_data !! "id" = Some v' /\ py_str v' = py_str v.

(** The list of seen ids is the same in both states. *)
Definition same_existed (s s' : state) : Prop :=
  existed_event_ids s' = existed_event_ids s.

(** [ids] are the [id] attributes of the events [evs], in order. *)
Definition ids_of (evs : list event) (ids : list pystr) : Prop :=
  Forall2 (fun e i => event_id_attr e = inr i) evs ids.

(** From [events] and state [s] a run has reached [evs] and [s']: it has
    appended events, and their ids to the list of seen ids; when the
    detail endpoint echoes ids, these ids are new and pairwise distinct. *)
Definition emitted (events : list event) (s : state) (evs : list event)
    (s' : state) : Prop :=
  exists new ids,
    evs = events ++ new /\ ids_of new ids
    /\ existed_event_ids s' = existed_event_ids s ++ ids
    /\ (detail_echoes_id ->
        NoDup ids /\ Forall (fun i => i ∉ existed_event_ids s) ids).

(** The states that differ at most in the warnings issued. *)
Definition eq_but_warnings (s1 s2 : state) : Prop :=
  _date_from_ s1 = _date_from_ s2 /\ _date_to_ s1 = _date_to_ s2
  /\ net s1 = net s2 /\ requests s1 = requests s2
  /\ existed_event_ids s1 = existed_event_ids s2.

(** [m] neither reads the warnings nor issues one: from states that differ
    at most in their warnings it gives the same outcome and states that
    again differ at most in their warnings, which it leaves as they are. *)
Definition ignores_warnings {A} (m : M A) : Prop :=
  forall s1 s2, eq_but_warnings s1 s2 ->
    (m s1).1 = (m s2).1 /\ eq_but_warnings (m s1).2 (m s2).2
    /\ warnings (m s1).2 = warnings s1.

(** Line 107: the names of [cats] the loop accepts, the available
    categories and the empty name (which asks for all categories), and
    the names it does not. *)
Definition known (cats : list pystr) : list pystr :=
  filter (fun c => c ∈ AVAILABLE_CATEGORIES ++ [[]]) cats.

Definition unknown (cats : list pystr) : list pystr :=
  filter (fun c => c ∉ AVAILABLE_CATEGORIES ++ [[]]) cats.

(** A request to the list endpoint asks for the dates from [from_date] to
    [to_date]; a request to the detail endpoint carries no dates. *)
Definition in_range (from_date to_date : Z) (r : request) : Prop :=
  match r with
  | ListRequest p => p_from p = strftime from_date /\ p_to p = strftime to_date
  | EventRequest _ => True
  end.

(** [s'] extends the log of [s] by requests for that range only. *)
Definition requests_in_range (from_date to_date : Z) (s s' : state) : Prop :=
  exists l, requests s' = requests s ++ l /\ Forall (in_range from_date to_date) l.

(** The decimal numeral of the standard library written with the digits
    [ds], most significant first. *)
Definition uint_cons (d : N) (r : Decimal.uint) : Decimal.uint :=
  match d with
  | 0 => Decimal.D0 r | 1 => Decimal.D1 r | 2 => Decimal.D2 r
  | 3 => Decimal.D3 r | 4 => Decimal.D4 r | 5 => Decimal.D5 r
  | 6 => Decimal.D6 r | 7 => Decimal.D7 r | 8 => Decimal.D8 r
  | _ => Decimal.D9 r
  end%N.

Definition uint_of_digits (ds : list N) : Decimal.uint :=
  foldr uint_cons Decimal.Nil ds.

Definition is_digit (d : N) : Prop := (d < 10)%N.

(** Decimal digits without a leading zero, but for the numeral [0]. *)
Definition normal_digits (ds : list N) : Prop :=
  Forall is_digit ds /\ (ds = [0%N] \/ exists d r, ds = d :: r /\ d <> 0%N).

(** The floats [repr] writes without an exponent and whose part before
    the point is the numeral of the integer they truncate to: finite,
    of magnitude below [1e16] and at least [1e-4] (or zero), and when
    negative of magnitude at least one. *)
Definition plain_float (x : pyfloat) : Prop :=
  match x with
  | FFinite neg ds decpt =>
      normal_digits ds /\ (ds = [0%N] -> decpt = 1)
      /\ -4 < decpt <= 16
      /\ (neg = true -> 1 <= decpt /\ ds <> [0%N])
  | _ => False
  end.

End Vocabulary.

(** * Vocabulary of the further properties *)

Section MoreVocabulary.
Context {datetime world : Type} `{Collaborators datetime world}.
Local Abbreviation state := (@state datetime world).
Local Abbreviation M := (@M datetime world).
Local Abbreviation fval := (@fval datetime).
Local Abbreviation event := (list (tag * fval)).

(** The state after a warning for each of [cats], in order. *)
Definition warn_all (cats : list pystr) (s : state) : state :=
  foldl (fun s cat => warn cat s) s cats.


(** [s'] extends the request log, the warnings and the list of seen ids
    of [s]: nothing is removed and nothing reordered. *)
Definition grows (s s' : state) : Prop :=
  requests s `prefix_of` requests s'
  /\ warnings s `prefix_of` warnings s'
  /\ existed_event_ids s `prefix_of` existed_event_ids s'.

(** The parameters of the requests sent to the list endpoint, in order. *)
Definition list_params (rs : list request) : list events_request_params :=
  omap (fun r => match r with
                 | ListRequest p => Some p
                 | EventRequest _ => None
                 end) rs.

(** How many of the offsets [offset], [offset + 20], ... do not exceed
    100. *)
Definition remaining (offset : Z) : nat :=
  Z.to_nat ((100 + (limit - 1) - offset) / (limit - 1)).

(** Lines 109 to 119: the parameters of a list request sent for one of
    [cats] in a call with these dates, city and [online] flag. *)
Definition carries (from_date to_date city_id : Z) (is_online : bool)
    (cats : list pystr) (p : events_request_params) : Prop :=
  p_from p = strftime from_date /\ p_to p = strftime to_date
  /\ p_cityId p = city_id /\ p_limit p = 21 /\ p_online p = is_online
  /\ exists cat,
       cat ∈ cats
       /\ match p_superTagId p with
          | None => cat = []
          | Some n => cat <> [] /\ categories_to_id cat = inr n
          end.

(** [s] neither begins nor ends with white space. *)
Definition trimmed (s : pystr) : Prop :=
  match s with
  | [] => True
  | c :: _ => is_space c = false /\ is_space (List.last s c) = false
  end.

(** The key each field function reads first; [_date_from_to] reads none. *)
Definition required_key (t : tag) : option string :=
  match t with
  | adress => Some "placeAddress"
  | category => Some "superTagName"
  | date_from => Some "beginDate"
  | date_to => Some "endDate"
  | date_from_to => None
  | id => Some "id"
  | place_name => Some "placeTitle"
  | full_text => Some "description"
  | post_text => Some "description"
  | poster_imag => Some "imageUri"
  | price => Some "minPrice"
  | title => Some "title"
  | url => Some "id"
  | is_registration_open => Some "ticketCount"
  end.

(** [s'] has the request log, the warnings and the list of seen ids of
    [s]. *)
Definition same_logs (s s' : state) : Prop :=
  requests s' = requests s /\ warnings s' = warnings s
  /\ existed_event_ids s' = existed_event_ids s.

(** [s] and [s'] have the same stashed dates and the same network; they
    may differ in the request log, the warnings and the list of seen
    ids. *)
Definition same_view (s s' : state) : Prop :=
  _date_from_ s = _date_from_ s' /\ _date_to_ s = _date_to_ s'
  /\ net s = net s'.

(** [m] reads nothing but the stashed dates and the network: from two
    such states it gives the same outcome and leaves two such states. *)
Definition reads_view {A} (m : M A) : Prop :=
  forall s s', same_view s s' ->
    (m s).1 = (m s').1 /\ same_view (m s).2 (m s').2.

(** The dict the caller passed, as [get_events] leaves it: line 90 pops
    [online] once the city is resolved (lines 84 to 87), and line 106
    pops [category] once the dates are computed (lines 100 to 104). *)
Definition params_left (request_params : gmap string pval) (now : Z) :
    gmap string pval :=
  match match request_params !! "city" with
        | Some c => cities_to_id c
        | None => inr 1
        end with
  | inl _ => request_params
  | inr _ =>
      match date_range now request_params with
      | inl _ => delete "online" request_params
      | inr _ => delete "category" (delete "online" request_params)
      end
  end.

End MoreVocabulary.

(** * Inputs of the examples *)

Module Inputs.
Import Demo.

(** A record whose address mentions the marker in capitals. *)
Definition online_record : raw :=
  {[ "placeAddress" := JStr (u " ОНЛАЙН, Zoom 123 ") ]}.

(** The first request of the sport category on the demo server. *)
Definition sport_request : events_request_params :=
  {| p_from := strftime 1; p_to := strftime 2; p_cityId := 1;
     p_limit := limit; p_offset := 0; p_online := false;
     p_superTagId := Some 5 |}.

(** A parser that has already seen event 1. *)
Definition st_seen : @state Z nat :=
  {| _date_from_ := None; _date_to_ := None; net := O; requests := [];
     warnings := []; existed_event_ids := [u "RADARIO-1"] |}.

Definition concert_theatre : option (gmap string pval) :=
  Some {[ "category" := PList [u "concert"; u "theatre"] ]}.

(** What the fetch of two categories returns after event 1 was seen, and
    the state it leaves. *)
Definition second_events : list (list (tag * @fval Z)) :=
  Eval vm_compute in
    match (get_events concert_theatre (Some [id]) st_seen).1 with
    | Ok evs => evs
    | _ => []
    end.

Definition second_state : @state Z nat :=
  Eval vm_compute in (get_events concert_theatre (Some [id]) st_seen).2.

(** The parameters of the example in the docstring of [get_events] that
    name a range of dates. *)
Definition dated_params : gmap string pval :=
  <["date_from" := PVal (JStr (u "2020-01-01"))]>
    (<["date_to" := PVal (JStr (u "2020-01-02"))]> ∅).

(** The dates each request to the list endpoint asks for. *)
Definition requested_dates (rs : list request) : list (pystr * pystr) :=
  omap (fun r => match r with
                 | ListRequest p => Some (p_from p, p_to p)
                 | EventRequest _ => None
                 end) rs.

(** A price of ten quadrillion roubles, which [repr] writes ["1e+16"]. *)
Definition huge_price_record : raw :=
  {[ "minPrice" := JFloat (FFinite false [1%N] 17);
     "currency" := JStr (u "RUB") ]}.

(** The price of the testable property: 1234.56 roubles. *)
Definition price_record : raw :=
  {[ "minPrice" := JFloat (FFinite false [1; 2; 3; 4; 5; 6]%N 4);
     "currency" := JStr (u "RUB") ]}.

End Inputs.

(** * A server whose detail endpoint answers with another event *)

Module Mismatch.

(** The list endpoint gives event 2 for concerts; the detail endpoint
    answers every request with the record of event 1. *)
Definition mismatch_list (p : events_request_params) : list_response :=
  match p_superTagId p with
  | Some 1 => if p_offset p =? 0 then Demo.page [Demo.summary 2] else Demo.page []
  | _ => Demo.page []
  end.

Definition mismatch_detail (event_api_url : pystr) : detail_response :=
  {| status_code := 200; text := []; json := inr (Demo.detail 1) |}.

#[export] Instance mismatch : Collaborators Z nat := {|
  strptime_astimezone := @strptime_astimezone Z nat Demo.demo;
  str_datetime := str_int;
  strftime := str_int;
  lower := Demo.demo_lower;
  re_digit := Demo.demo_digit;
  int_of_str := @int_of_str Z nat Demo.demo;
  remove_html_tags := fun t => t;
  prepare_post_text := fun t => t;
  add_emoji := fun t => t;
  ALL_EVENT_TAGS := @ALL_EVENT_TAGS Z nat Demo.demo;
  today := fun _ => 738000 * day_us;
  request_get_events := fun w p => (mismatch_list p, S w);
  request_get_event := fun w a => (mismatch_detail a, S w)
|}.

End Mismatch.

(** * Inputs of the further examples *)

Module MoreInputs.
Import Demo.


(** A category given as a string where a list is expected. *)
Definition sport_as_string : gmap string pval :=
  {[ "category" := PVal (JStr (u "sport")) ]}.

(** The first request for museums, which the demo server fails. *)
Definition museum_request : events_request_params :=
  {| p_from := strftime 1; p_to := strftime 2; p_cityId := 1;
     p_limit := limit; p_offset := 0; p_online := false;
     p_superTagId := Some 3 |}.

(** A call with every parameter [get_events] reads. *)
Definition moscow_online : gmap string pval :=
  {[ "city" := PVal (JStr (u "MSK")); "online" := PVal (JBool true);
     "days" := PVal (JInt 2);
     "category" := PList [u "theatre"; u "bogus"; u "concert"] ]}.

(** A category name with white space around it. *)
Definition spaced_record : raw :=
  {[ "superTagName" := JStr (u "  Концерты и шоу   ") ]}.

(** The [days] parameter as a string. *)
Definition three_days : gmap string pval :=
  {[ "days" := PVal (JStr (u "3")) ]}.

(** An address with the street before the city and a remark after it. *)
Definition street_first : raw :=
  {[ "placeAddress" := JStr (u "Дворцовая площадь, Санкт-Петербург, вход со двора");
     "cityName" := JNull ]}.

(** A record whose place name is null. *)
Definition null_place : raw := {[ "placeTitle" := JNull ]}.

(** Parameters whose [days] is not a number, with [online] set. *)
Definition online_week : gmap string pval :=
  {[ "online" := PVal (JBool true); "days" := PVal (JStr (u "week")) ]}.

End MoreInputs.

(** * A server that fails *)

Module Flaky.

(** The list endpoint: for concerts a page whose second event has no
    detail record, for museums a truthy response whose body is not JSON,
    and an empty page otherwise. *)
Definition flaky_list (p : events_request_params) : list_response :=
  match p_superTagId p with
  | Some 1 =>
      if p_offset p =? 0
      then Demo.page [Demo.summary 1; Demo.summary 4; Demo.summary 2]
      else Demo.page []
  | Some 3 => {| lr_ok := true; lr_json := inl (ValueError (u "Expecting value")) |}
  | _ => Demo.page []
  end.

(** The stand-ins of [Demo.demo] with this list endpoint. *)
#[export] Instance flaky : Collaborators Z nat := {|
  strptime_astimezone := @strptime_astimezone Z nat Demo.demo;
  str_datetime := str_int;
  strftime := str_int;
  lower := Demo.demo_lower;
  re_digit := Demo.demo_digit;
  int_of_str := @int_of_str Z nat Demo.demo;
  remove_html_tags := fun t => t;
  prepare_post_text := fun t => t;
  add_emoji := fun t => t;
  ALL_EVENT_TAGS := @ALL_EVENT_TAGS Z nat Demo.demo;
  today := fun _ => 738000 * day_us;
  request_get_events := fun w p => (flaky_list p, S w);
  request_get_event := fun w a => (Demo.demo_detail a, S w)
|}.

(** The first request for museums, and for concerts. *)
Definition museum_request : events_request_params :=
  {| p_from := str_int 1; p_to := str_int 2; p_cityId := 1;
     p_limit := limit; p_offset := 0; p_online := false;
     p_superTagId := Some 3 |}.

(** The state after the first concert was fetched: two requests sent,
    one id seen. *)
Definition after_first : @state Z nat :=
  Eval vm_compute in
    (@process_page Z nat flaky (Some [id]) [] [Demo.summary 1] Demo.st0).2.

End Flaky.

(** * Properties *)

Section Facts.
Context {datetime world : Type} `{Collaborators datetime world}.
Local Abbreviation state := (@state datetime world).
Local Abbreviation M := (@M datetime world).
Local Abbreviation fval := (@fval datetime).
Local Abbreviation stateless m := (@stateless datetime world _ m).
Local Abbreviation terminates m := (@terminates datetime world _ m).
Local Abbreviation only_event_requests := (@only_event_requests datetime world).
Local Abbreviation eq_but_warnings := (@eq_but_warnings datetime world).
Local Abbreviation warn_all := (@warn_all datetime world).
Local Abbreviation grows := (@grows datetime world).
Local Abbreviation same_view := (@same_view datetime world).
Local Abbreviation reads_view m := (@reads_view datetime world _ m).
Local Abbreviation requests_in_range := (@requests_in_range datetime world _).
Local Abbreviation ignores_warnings m := (@ignores_warnings datetime world _ m).

Local Notation "x <- m ;; k" := (bind m (fun x => k))
  (at level 100, m at next level, right associativity).
Local Abbreviation event := (list (tag * fval)).

Lemma bind_sum_inr {A B} (a : A) (k : A -> exn + B) :
  bind_sum (inr a) k = k a.
Proof. reflexivity. Qed.

Lemma bind_sum_inl {A B} (e : exn) (k : A -> exn + B) :
  bind_sum (inl e) k = inl e.
Proof. reflexivity. Qed.

(** ** Identifier *)

(** C5: for a raw record that has an id, the canonical id is the fixed
    prefix ["RADARIO-"] followed by the string form of the raw id (for a
    numeric id [JInt n] that is the decimal numeral [str_int n]); the
    mapping changes nothing in the state and gives the same id from
    every state, so mapping the record again gives the same id. *)
Theorem id_prefix_stable (event_json_data : raw) (v : jval) (s : state) :
  event_json_data !! "id" = Some v ->
  _id event_json_data s = (Ok (FVal (JStr (parser_prefix ++ py_str v))), s)
  /\ (forall n, v = JInt n -> py_str v = str_int n)
  /\ (x <- _id event_json_data;; _id event_json_data) s = _id event_json_data s
  /\ forall s' : state, (_id event_json_data s').1 = (_id event_json_data s).1.
Proof.
  intros Hid.
  assert (E : forall s0 : state, _id event_json_data s0
              = (Ok (FVal (JStr (parser_prefix ++ py_str v))), s0)).
  { intros s0. unfold _id, _id_pure, getitem, bind, lift. rewrite Hid. reflexivity. }
  split; [apply E|]. split; [intros n ->; reflexivity|].
  split.
  - unfold bind at 1. rewrite E. apply E.
  - intros s'. rewrite !E. reflexivity.
Qed.

(** ** Full text *)

(** C8, as amended: the full text is the empty string when the
    description is null or the empty string; a non-empty description is
    returned with every ["<br/>"] replaced by a newline and passed through
    [remove_html_tags]; a record without the key raises [KeyError]. The
    state is left as it was. *)
Theorem full_text_cases (event_json_data : raw) (s : state) :
  (event_json_data !! "description" = None ->
     _full_text event_json_data s = (Raise (KeyError (u "description")), s))
  /\ (event_json_data !! "description" = Some JNull ->
     _full_text event_json_data s = (Ok (FVal (JStr [])), s))
  /\ (forall d, event_json_data !! "description" = Some (JStr d) ->
     _full_text event_json_data s
     = (Ok (FVal (JStr match d with
                       | [] => []
                       | _ => remove_html_tags (py_replace (u "<br/>") [10%N] d)
                       end)), s)).
Proof.
  unfold _full_text, _full_text_pure, getitem, bind, lift.
  split; [|split].
  - intros ->. reflexivity.
  - intros ->. reflexivity.
  - intros d ->. destruct d; reflexivity.
Qed.

(** ** Address *)

(** C10: when the address, after the district and zip-code removals,
    contains ["онлайн"] in its lower-cased form, the address mapping
    returns ["Онлайн"], whatever else the record holds. *)
Theorem adress_online (event_json_data : raw) (a : pystr) (s : state) :
  event_json_data !! "placeAddress" = Some (JStr a) ->
  py_in (u "онлайн") (lower (cleaned_address a)) = true ->
  _adress event_json_data s = (Ok (FVal (JStr (u "Онлайн"))), s).
Proof.
  unfold cleaned_address. intros Ha Hin.
  unfold _adress, _adress_pure, getitem, bind, lift. rewrite Ha.
  rewrite bind_sum_inr. unfold as_str. rewrite bind_sum_inr.
  cbv zeta. rewrite Hin. reflexivity.
Qed.

(** ** Purity of the field functions *)

Lemma stateless_lift_ret {A B} (r : exn + A) (f : A -> B) :
  stateless (x <- lift r;; ret (f x)).
Proof. intros s s'. unfold bind, lift. destruct r; split; reflexivity. Qed.

Lemma stateless_lift2_ret {A B C} (r : exn + A) (g : A -> exn + B) (f : B -> C) :
  stateless (x <- lift r;; y <- lift (g x);; ret (f y)).
Proof.
  intros s s'. unfold bind, lift. destruct r as [e|a]; [split; reflexivity|].
  unfold ret, raise. destruct (g a); split; reflexivity.
Qed.

(** C3, as amended: every field function other than the three date
    functions leaves the state alone and gives a result that depends on
    the record only. [_date_from] and [_date_to] give a result that
    depends on the record only and store it in [_date_from_]
    (respectively [_date_to_]), changing nothing else: the parsed date of
    the record, [KeyError] without the key and the error of the parser
    otherwise, in which cases nothing is stored. [_date_from_to] changes
    nothing, ignores the record, and depends on the two stored values
    only: it returns them joined by ["-#"] and raises [AttributeError]
    when either has not been stored, so that its result depends on the
    two other functions having been called first. *)
Theorem fields_stateless_but_dates :
  (forall t event_json_data,
      t <> date_from -> t <> date_to -> t <> date_from_to ->
      stateless (field t event_json_data))
  /\ (forall event_json_data s s',
        (_date_from event_json_data s).1 = (_date_from event_json_data s').1
        /\ same_but_date_from s (_date_from event_json_data s).2
        /\ forall d, (_date_from event_json_data s).1 = Ok (FDate d) ->
                     _date_from_ (_date_from event_json_data s).2 = Some d)
  /\ (forall event_json_data s s',
        (_date_to event_json_data s).1 = (_date_to event_json_data s').1
        /\ same_but_date_to s (_date_to event_json_data s).2
        /\ forall d, (_date_to event_json_data s).1 = Ok (FDate d) ->
                     _date_to_ (_date_to event_json_data s).2 = Some d)
  /\ (forall event_json_data event_json_data' s s',
        (_date_from_to event_json_data s).2 = s
        /\ (_date_from_ s' = _date_from_ s -> _date_to_ s' = _date_to_ s ->
            (_date_from_to event_json_data' s').1 = (_date_from_to event_json_data s).1))
  /\ (forall event_json_data s,
        _date_from_to event_json_data s
        = match _date_from_ s, _date_to_ s with
          | Some f, Some t =>
              (Ok (FVal (JStr (str_datetime f ++ u "-#" ++ str_datetime t))), s)
          | _, _ => (Raise AttributeError, s)
          end)
  /\ (forall event_json_data s,
        _date_from event_json_data s
        = match event_json_data !! "beginDate" with
          | None => (Raise (KeyError (u "beginDate")), s)
          | Some v =>
              match parse_date v with
              | inl e => (Raise e, s)
              | inr d => (Ok (FDate d), set_date_from_ d s)
              end
          end)
  /\ (forall event_json_data s,
        _date_to event_json_data s
        = match event_json_data !! "endDate" with
          | None => (Raise (KeyError (u "endDate")), s)
          | Some v =>
              match parse_date v with
              | inl e => (Raise e, s)
              | inr d => (Ok (FDate d), set_date_to_ d s)
              end
          end).
Proof.
  split; [|split; [|split; [|split; [|split; [|split]]]]].
  - intros t e Hf Ht Hft.
    destruct t; try congruence; cbn [field].
    + apply (stateless_lift_ret _ (fun a => FVal (JStr a))).
    + apply (stateless_lift2_ret _ as_str (fun c => FVal (JStr (py_strip c)))).
    + apply (stateless_lift_ret _ (fun a => FVal (JStr a))).
    + apply (stateless_lift2_ret _ as_str (fun c => FVal (JStr (py_strip c)))).
    + apply (stateless_lift_ret _ (fun a => FVal (JStr a))).
    + apply (stateless_lift_ret _ (fun a => FVal (JStr (prepare_post_text a)))).
    + intros s s'. unfold _poster_imag, bind, lift.
      destruct (getitem e "imageUri") as [x|[]]; split; reflexivity.
    + apply (stateless_lift_ret _ (fun a => FVal (JStr a))).
    + apply (stateless_lift2_ret _ as_str (fun c => FVal (JStr (add_emoji (py_strip c))))).
    + apply (stateless_lift_ret _ (fun i => FVal (JStr (BASE_URL ++ py_replace parser_prefix [] i)))).
    + apply (stateless_lift_ret _ (fun v => FVal (JBool (ne_zero v)))).
  - intros e s s'. unfold _date_from, bind, lift, same_but_date_from.
    destruct (getitem e "beginDate") as [x|v]; [cbn; auto 10; repeat split; congruence|].
    unfold ret, raise. destruct (parse_date v) as [x|d]; cbn; repeat split; congruence.
  - intros e s s'. unfold _date_to, bind, lift, same_but_date_to.
    destruct (getitem e "endDate") as [x|v]; [cbn; repeat split; congruence|].
    unfold ret, raise. destruct (parse_date v) as [x|d]; cbn; repeat split; congruence.
  - intros e e' s s'. unfold _date_from_to, bind, gets.
    split.
    + destruct (_date_from_ s); [destruct (_date_to_ s)|]; reflexivity.
    + intros E1 E2. rewrite E1.
      destruct (_date_from_ s); [|reflexivity].
      rewrite E2. destruct (_date_to_ s); reflexivity.
  - intros e s. unfold _date_from_to, bind, gets.
    destruct (_date_from_ s); [destruct (_date_to_ s)|]; reflexivity.
  - intros e s. unfold _date_from, getitem, bind, lift.
    destruct (e !! "beginDate") as [v|]; [|reflexivity].
    unfold ret, raise. destruct (parse_date v) as [x|d]; reflexivity.
  - intros e s. unfold _date_to, getitem, bind, lift.
    destruct (e !! "endDate") as [v|]; [|reflexivity].
    unfold ret, raise. destruct (parse_date v) as [x|d]; reflexivity.
Qed.

(** ** [get_event] *)

Lemma split_go_no_sep (c : N) (s : pystr) :
  c ∉ s -> split_go [c] O s = [s].
Proof.
  induction s as [|x t IH]; intros Hn; [reflexivity|].
  apply not_elem_of_cons in Hn as [Hx Ht].
  cbn [split_go starts_with].
  destruct (N.eqb_spec c x) as [->|_]; [congruence|].
  cbn [andb]. rewrite (IH Ht). reflexivity.
Qed.

Lemma split_go_after_sep (c : N) (pre seg : pystr) :
  c ∉ seg ->
  List.last (split_go [c] O (pre ++ c :: seg)) [] = seg
  /\ (2 <= length (split_go [c] O (pre ++ c :: seg)))%nat.
Proof.
  intros Hn. induction pre as [|x p [IH1 IH2]].
  - cbn [app split_go starts_with]. rewrite N.eqb_refl. cbn [andb length Nat.sub].
    rewrite (split_go_no_sep c seg Hn). split; [reflexivity|cbn; lia].
  - cbn [app split_go starts_with].
    destruct (c =? x)%N; cbn [andb length Nat.sub].
    + destruct (split_go [c] 0 (p ++ c :: seg)) as [|h r] eqn:E; [cbn in IH2; lia|].
      split; [exact IH1|cbn [length] in *; lia].
    + destruct (split_go [c] 0 (p ++ c :: seg)) as [|h [|h' r]] eqn:E;
        [cbn in IH2; lia|cbn in IH2; lia|].
      split; [exact IH1|cbn [length] in *; lia].
Qed.

Lemma last_segment_after_slash (pre seg : pystr) :
  47%N ∉ seg -> last_segment (pre ++ u "/" ++ seg) = seg.
Proof.
  intros Hn. unfold last_segment. change (u "/") with [47%N].
  exact (proj1 (split_go_after_sep 47 pre seg Hn)).
Qed.

Lemma last_segment_no_slash (s : pystr) :
  47%N ∉ s -> last_segment s = s.
Proof.
  intros Hn. unfold last_segment. change (u "/") with [47%N].
  rewrite (split_go_no_sep 47 s Hn). reflexivity.
Qed.

(** C7: [get_event] without [event_id] and without [event_url] raises
    the precondition [ValueError] at once, sending no request and changing
    no state; with only [event_url] it behaves as with the trailing
    segment of the URL (what follows its last ["/"], the whole URL when
    it has none) as [event_id]; and once the id is known it sends one
    request to [BASE_EVENTS_API/<id>], raises the fetch [ValueError] when
    the status of the response is not 200, and otherwise returns what
    [parse] makes of the decoded body. *)
Theorem get_event_cases (tags : option (list tag)) (s : state) :
  get_event JNull None tags s
  = (Raise (ValueError (u "'event_id' or 'event_url' required.")), s)
  /\ (forall event_url,
        get_event JNull (Some event_url) tags s
        = get_event (JStr (last_segment event_url)) None tags s
        /\ (forall pre seg, 47%N ∉ seg -> event_url = pre ++ u "/" ++ seg ->
                            last_segment event_url = seg)
        /\ (47%N ∉ event_url -> last_segment event_url = event_url))
  /\ (forall event_id event_url response w,
        event_id <> JNull ->
        request_get_event (net s) (BASE_EVENTS_API ++ u "/" ++ py_str event_id)
        = (response, w) ->
        get_event event_id event_url tags s
        = let s' := sent (EventRequest (BASE_EVENTS_API ++ u "/" ++ py_str event_id)) w s in
          if status_code response =? 200
          then (event_json_data <- lift (json response);;
                parse event_json_data (tags_or_all tags)) s'
          else (Raise (fetch_failed response), s')).
Proof.
  split; [reflexivity|]. split.
  - intros event_url. split; [reflexivity|]. split.
    + intros pre seg Hn ->. apply last_segment_after_slash, Hn.
    + apply last_segment_no_slash.
  - intros event_id event_url response w Hid Hr.
    assert (E : forall k : jval -> M event,
               (x <- match event_id, event_url with
                     | JNull, Some event_url => ret (JStr (last_segment event_url))
                     | JNull, None => raise (ValueError (u "'event_id' or 'event_url' required."))
                     | _, _ => ret event_id
                     end;; k x) s = k event_id s).
    { intros k. destruct event_id; try congruence; reflexivity. }
    unfold get_event. rewrite E.
    unfold bind at 1. unfold _request_get_event. rewrite Hr.
    cbv zeta. destruct (status_code response =? 200); reflexivity.
Qed.

(** ** State transitions, the request log and termination *)

Section Steps.
Variable R : state -> state -> Prop.
Hypothesis R_refl : forall s, R s s.
Hypothesis R_trans : forall s1 s2 s3, R s1 s2 -> R s2 s3 -> R s1 s3.

Lemma steps_ret {A} (a : A) : steps R (ret a).
Proof. intros s. apply R_refl. Qed.

Lemma steps_raise {A} (e : exn) : steps R (@raise _ _ A e).
Proof. intros s. apply R_refl. Qed.

Lemma steps_lift {A} (r : exn + A) : steps R (lift r).
Proof. destruct r; [apply steps_raise|apply steps_ret]. Qed.

Lemma steps_gets {A} (f : state -> A) : steps R (gets f).
Proof. intros s. apply R_refl. Qed.

Lemma steps_modify (f : state -> state) :
  (forall s, R s (f s)) -> steps R (modify f).
Proof. intros Hf s. apply Hf. Qed.

Lemma steps_bind {A B} (m : M A) (k : A -> M B) :
  steps R m -> (forall a, steps R (k a)) -> steps R (x <- m;; k x).
Proof.
  intros Hm Hk s. unfold bind. specialize (Hm s).
  destruct (m s) as [[a| |] s']; cbn [snd] in *; try exact Hm.
  apply (R_trans _ s'); [exact Hm|apply Hk].
Qed.

Hypothesis R_set_from : forall d s, R s (set_date_from_ d s).
Hypothesis R_set_to : forall d s, R s (set_date_to_ d s).
Hypothesis R_sent_event : forall a w s, R s (sent (EventRequest a) w s).

Ltac steps_tac :=
  repeat match goal with
    | |- steps _ (match ?x with _ => _ end) => destruct x
    | |- steps _ (bind _ _) => apply steps_bind; [|intros ?]
    | |- steps _ (ret _) => apply steps_ret
    | |- steps _ (raise _) => apply steps_raise
    | |- steps _ (lift _) => apply steps_lift
    | |- steps _ (gets _) => apply steps_gets
    | |- steps _ (modify _) => apply steps_modify; solve [auto]
    end.

Lemma steps_field (t : tag) (e : raw) : steps R (field t e).
Proof.
  destruct t; cbn [field];
    unfold _adress, _category, _date_from, _date_to, _date_from_to, _id,
      _place_name, _full_text, _post_text, _poster_imag, _price, _title,
      _url, _is_registration_open;
    steps_tac.
Qed.

Lemma steps_parse (e : raw) (tags : list tag) : steps R (parse e tags).
Proof.
  induction tags as [|t ts IH]; cbn [parse]; [apply steps_ret|].
  apply steps_bind; [apply steps_field|intros v].
  apply steps_bind; [apply IH|intros ev]. apply steps_ret.
Qed.

Lemma steps_request_get_event (a : pystr) : steps R (_request_get_event a).
Proof.
  intros s. unfold _request_get_event.
  destruct (request_get_event (net s) a) as [r w]. apply R_sent_event.
Qed.

Lemma steps_get_event (event_id : jval) (event_url : option pystr)
    (tags : option (list tag)) :
  steps R (get_event event_id event_url tags).
Proof.
  unfold get_event. apply steps_bind.
  - destruct event_id; try apply steps_ret.
    destruct event_url; [apply steps_ret|apply steps_raise].
  - intros i. apply steps_bind; [apply steps_request_get_event|intros r].
    destruct (negb _); [apply steps_raise|].
    apply steps_bind; [apply steps_lift|intros e]. apply steps_parse.
Qed.

Hypothesis R_existed : forall i s, R s (append_existed i s).

Lemma steps_process_event tags events (event_json : raw) :
  steps R (process_event tags events event_json).
Proof.
  unfold process_event.
  apply steps_bind; [apply steps_lift|intros i].
  apply steps_bind; [apply steps_gets|intros ex].
  destruct (bool_decide _); [apply steps_ret|].
  apply steps_bind; [apply steps_lift|intros v].
  apply steps_bind; [apply steps_get_event|intros ev].
  apply steps_bind; [apply steps_lift|intros n].
  apply steps_bind; [apply steps_modify, R_existed|intros []]. apply steps_ret.
Qed.

Lemma steps_process_page tags (page : list raw) : forall events,
  steps R (process_page tags events page).
Proof.
  induction page as [|e rest IH]; intros events; cbn [process_page];
    [apply steps_ret|].
  apply steps_bind; [apply steps_process_event|intros ev]. apply IH.
Qed.

End Steps.

Lemma list_offsets_app (a b : list request) :
  list_offsets (a ++ b) = list_offsets a ++ list_offsets b.
Proof. apply omap_app. Qed.

Lemma only_event_requests_same s s' :
  requests s' = requests s -> only_event_requests s s'.
Proof. intros E. exists []. rewrite app_nil_r. split; [exact E|reflexivity]. Qed.

Lemma only_event_requests_refl s : only_event_requests s s.
Proof. apply only_event_requests_same. reflexivity. Qed.

Lemma only_event_requests_trans s1 s2 s3 :
  only_event_requests s1 s2 -> only_event_requests s2 s3 ->
  only_event_requests s1 s3.
Proof.
  intros [l1 [E1 O1]] [l2 [E2 O2]]. exists (l1 ++ l2).
  rewrite E2, E1, <- app_assoc, list_offsets_app, O1, O2. split; reflexivity.
Qed.

Lemma process_page_only_event_requests tags events page :
  steps only_event_requests (process_page tags events page).
Proof.
  apply steps_process_page.
  - apply only_event_requests_refl.
  - apply only_event_requests_trans.
  - intros d s. apply only_event_requests_same. reflexivity.
  - intros d s. apply only_event_requests_same. reflexivity.
  - intros a w s. exists [EventRequest a]. split; reflexivity.
  - intros i s. apply only_event_requests_same. reflexivity.
Qed.

Lemma terminates_ret {A} (a : A) : terminates (ret a).
Proof. intros s. discriminate. Qed.

Lemma terminates_raise {A} (e : exn) : terminates (@raise _ _ A e).
Proof. intros s. discriminate. Qed.

Lemma terminates_lift {A} (r : exn + A) : terminates (lift r).
Proof. destruct r; [apply terminates_raise|apply terminates_ret]. Qed.

Lemma terminates_gets {A} (f : state -> A) : terminates (gets f).
Proof. intros s. discriminate. Qed.

Lemma terminates_modify (f : state -> state) : terminates (modify f).
Proof. intros s. discriminate. Qed.

Lemma terminates_bind {A B} (m : M A) (k : A -> M B) :
  terminates m -> (forall a, terminates (k a)) -> terminates (x <- m;; k x).
Proof.
  intros Hm Hk s. unfold bind. specialize (Hm s).
  destruct (m s) as [[a|e|] s']; cbn [fst] in *.
  - apply Hk.
  - discriminate.
  - congruence.
Qed.

Ltac terminates_tac :=
  repeat match goal with
    | |- terminates (match ?x with _ => _ end) => destruct x
    | |- terminates (bind _ _) => apply terminates_bind; [|intros ?]
    | |- terminates (ret _) => apply terminates_ret
    | |- terminates (raise _) => apply terminates_raise
    | |- terminates (lift _) => apply terminates_lift
    | |- terminates (gets _) => apply terminates_gets
    | |- terminates (modify _) => apply terminates_modify
    end.

Lemma terminates_field (t : tag) (e : raw) : terminates (field t e).
Proof.
  destruct t; cbn [field];
    unfold _adress, _category, _date_from, _date_to, _date_from_to, _id,
      _place_name, _full_text, _post_text, _poster_imag, _price, _title,
      _url, _is_registration_open;
    terminates_tac.
Qed.

Lemma terminates_parse (e : raw) (tags : list tag) : terminates (parse e tags).
Proof.
  induction tags as [|t ts IH]; cbn [parse]; [apply terminates_ret|].
  apply terminates_bind; [apply terminates_field|intros v].
  apply terminates_bind; [apply IH|intros ev]. apply terminates_ret.
Qed.

Lemma terminates_get_event (event_id : jval) (event_url : option pystr)
    (tags : option (list tag)) :
  terminates (get_event event_id event_url tags).
Proof.
  unfold get_event. apply terminates_bind.
  - destruct event_id; try apply terminates_ret.
    destruct event_url; [apply terminates_ret|apply terminates_raise].
  - intros i. apply terminates_bind.
    + intros s. unfold _request_get_event.
      destruct (request_get_event (net s) _). discriminate.
    + intros r. destruct (negb _); [apply terminates_raise|].
      apply terminates_bind; [apply terminates_lift|intros e].
      apply terminates_parse.
Qed.

Lemma terminates_process_page tags (page : list raw) : forall events,
  terminates (process_page tags events page).
Proof.
  induction page as [|e rest IH]; intros events; cbn [process_page];
    [apply terminates_ret|].
  apply terminates_bind; [|intros ev; apply IH].
  unfold process_event. terminates_tac. apply terminates_get_event.
Qed.
(** What one iteration of the loop does to the log: nothing at all when
    the category lookup fails; otherwise one list request, after which it
    either ends or enters the next iteration. *)
Lemma page_iter_cases next from_date to_date city_id is_online tags cat offset events s :
  let r := page_iter next from_date to_date city_id is_online tags cat offset events s in
  (r.2 = s /\ r.1 <> OutOfFuel)
  \/ exists s2,
       list_offsets (requests s2) = list_offsets (requests s) ++ [offset]
       /\ ((r.2 = s2 /\ r.1 <> OutOfFuel)
           \/ exists events', r = next (offset + (limit - 1)) events' s2).
Proof.
  intros r. remember r as r' eqn:Er. subst r.
  unfold page_iter in Er.
  set (m1 := if bool_decide (cat = []) then ret None
             else bind (lift (categories_to_id cat)) (fun n => ret (Some n))) in Er.
  assert (Hm1 : (exists x, m1 s = (Ok x, s)) \/ (exists e, m1 s = (Raise e, s))).
  { subst m1. destruct (bool_decide _); [left; eexists; reflexivity|].
    unfold bind, lift. destruct (categories_to_id cat); [right|left]; eexists; reflexivity. }
  unfold bind at 1 in Er. destruct Hm1 as [[x E]|[e E]]; rewrite E in Er.
  2: { left. subst r'. split; [reflexivity|cbn; discriminate]. }
  right. unfold bind at 1, _request_get_events in Er.
  destruct (request_get_events (net s) _) as [resp w].
  match type of Er with context [sent (ListRequest ?p) w s] =>
    set (s1 := sent (ListRequest p) w s) in Er end.
  assert (O1 : list_offsets (requests s1) = list_offsets (requests s) ++ [offset]).
  { subst s1. cbn [requests sent]. rewrite list_offsets_app. reflexivity. }
  assert (Hpage : forall page r,
    r = (bind (process_page tags events page)
               (fun events0 =>
                  if Z.of_nat (length page) <? limit then ret (offset, events0)
                  else next (offset + (limit - 1)) events0)) s1 ->
    exists s2, list_offsets (requests s2) = list_offsets (requests s) ++ [offset]
      /\ ((r.2 = s2 /\ r.1 <> OutOfFuel)
          \/ exists events', r = next (offset + (limit - 1)) events' s2)).
  { intros page r Hr. unfold bind in Hr.
    pose proof (process_page_only_event_requests tags events page s1) as [l [El Ol]].
    pose proof (terminates_process_page tags page events s1) as T.
    destruct (process_page tags events page s1) as [[ev'|e|] s2]; cbn [fst snd] in *.
    - exists s2. split.
      + rewrite El, list_offsets_app, Ol, app_nil_r. exact O1.
      + destruct (_ <? _); [left; subst r; split; [reflexivity|cbn; discriminate]|].
        right. exists ev'. exact Hr.
    - exists s2. split.
      + rewrite El, list_offsets_app, Ol, app_nil_r. exact O1.
      + left. subst r. split; [reflexivity|cbn; discriminate].
    - congruence. }
  unfold bind at 1 in Er.
  destruct (lr_ok resp); [destruct (lr_json resp) as [e|page]|]; cbn [lift ret raise] in Er.
  - exists s1. split; [exact O1|]. left. subst r'. split; [reflexivity|cbn; discriminate].
  - apply (Hpage page). exact Er.
  - apply (Hpage []). exact Er.
Qed.
Definition super_tag_of (cat : pystr) : exn + option Z :=
  if bool_decide (cat = []) then inr None
  else match categories_to_id cat with
       | inl e => inl e
       | inr n => inr (Some n)
       end.

Lemma bind_ext {A B} (m : M A) (k k' : A -> M B) s :
  (forall a s', k a s' = k' a s') -> bind m k s = bind m k' s.
Proof.
  intros E. unfold bind. destruct (m s) as [[a|e|] s']; [apply E|reflexivity..].
Qed.

Lemma page_iter_ext next next' from_date to_date city_id is_online tags cat offset events s :
  (forall events' s', next (offset + (limit - 1)) events' s'
                      = next' (offset + (limit - 1)) events' s') ->
  page_iter next from_date to_date city_id is_online tags cat offset events s
  = page_iter next' from_date to_date city_id is_online tags cat offset events s.
Proof.
  intros E. unfold page_iter.
  apply bind_ext; intros x s1. apply bind_ext; intros r s2.
  apply bind_ext; intros l s3. apply bind_ext; intros ev s4.
  destruct (_ <? _); [reflexivity|apply E].
Qed.

Lemma page_iter_step next from_date to_date city_id is_online tags cat offset
    events s x response w page :
  super_tag_of cat = inr x ->
  request_get_events (net s)
    {| p_from := strftime from_date; p_to := strftime to_date;
       p_cityId := city_id; p_limit := limit; p_offset := offset;
       p_online := is_online; p_superTagId := x |} = (response, w) ->
  decoded_page response = inr page ->
  page_iter next from_date to_date city_id is_online tags cat offset events s
  = (events' <- process_page tags events page;;
     if Z.of_nat (length page) <? limit then ret (offset, events')
     else next (offset + (limit - 1)) events')
      (sent (ListRequest
               {| p_from := strftime from_date; p_to := strftime to_date;
                  p_cityId := city_id; p_limit := limit; p_offset := offset;
                  p_online := is_online; p_superTagId := x |}) w s).
Proof.
  intros Hx Hr Hp. unfold page_iter.
  assert (E1 : (if bool_decide (cat = []) then ret None
                else bind (lift (categories_to_id cat)) (fun n => ret (Some n))) s
               = (Ok x, s)).
  { unfold super_tag_of in Hx.
    destruct (bool_decide _); [injection Hx as <-; reflexivity|].
    unfold bind, lift. destruct (categories_to_id cat); [discriminate|].
    injection Hx as <-. reflexivity. }
  unfold bind at 1. rewrite E1.
  unfold bind at 1, _request_get_events. rewrite Hr.
  unfold bind at 1. unfold decoded_page in Hp.
  destruct (lr_ok response); rewrite ?Hp; [|injection Hp as <-]; reflexivity.
Qed.

Lemma fuel_for_next (offset : Z) (fuel : nat) :
  offset <= 100 -> (fuel_for offset <= S fuel)%nat ->
  (fuel_for (offset + (limit - 1)) <= fuel)%nat.
Proof. unfold fuel_for, limit. lia. Qed.

(** More fuel than [fuel_for offset] changes nothing. *)
Lemma page_loop_fuel (fuel1 : nat) from_date to_date city_id is_online tags cat :
  forall fuel2 offset events s,
    (fuel_for offset <= fuel1)%nat -> (fuel_for offset <= fuel2)%nat ->
    page_loop fuel1 from_date to_date city_id is_online tags cat offset events s
    = page_loop fuel2 from_date to_date city_id is_online tags cat offset events s.
Proof.
  induction fuel1 as [|f1 IH]; intros fuel2 offset events s H1 H2.
  - destruct fuel2; cbn [page_loop]; [reflexivity|].
    destruct (100 >=? offset) eqn:G; [|reflexivity].
    apply Z.geb_le in G. unfold fuel_for in H1. lia.
  - destruct fuel2 as [|f2]; cbn [page_loop];
      (destruct (100 >=? offset) eqn:G; [apply Z.geb_le in G|reflexivity]).
    + unfold fuel_for in H2. lia.
    + apply page_iter_ext. intros ev s'.
      apply IH; apply fuel_for_next; assumption.
Qed.
Lemma arith_S (offset : Z) (k : nat) :
  arith offset (S k) = offset :: arith (offset + (limit - 1)) k.
Proof.
  unfold arith. cbn [seq map]. f_equal; [lia|].
  rewrite <- seq_shift, map_map. apply map_ext. intros i. lia.
Qed.

Lemma arith_bound (offset : Z) (k : nat) :
  Forall (fun o => o <= 100) (arith offset k) -> 0 <= offset -> (k <= 6)%nat.
Proof.
  intros HF H0. destruct (le_lt_dec k 6) as [|Hk]; [assumption|exfalso].
  rewrite Forall_forall in HF.
  specialize (HF (offset + (limit - 1) * Z.of_nat 6)).
  unfold limit in HF. enough (offset + (21 - 1) * Z.of_nat 6 <= 100) by lia.
  apply HF. unfold arith, limit. apply list_elem_of_In.
  apply (in_map (fun i => offset + (21 - 1) * Z.of_nat i) (seq 0 k) 6%nat).
  apply in_seq. lia.
Qed.

Lemma page_loop_trace (fuel : nat) from_date to_date city_id is_online tags cat :
  forall offset events s,
    (fuel_for offset <= fuel)%nat ->
    let r := page_loop fuel from_date to_date city_id is_online tags cat
               offset events s in
    r.1 <> OutOfFuel
    /\ exists k, list_offsets (requests r.2) = list_offsets (requests s) ++ arith offset k
                 /\ Forall (fun o => o <= 100) (arith offset k).
Proof.
  induction fuel as [|f IH]; intros offset events s Hf; cbv zeta.
  - cbn [page_loop]. destruct (100 >=? offset) eqn:G.
    + apply Z.geb_le in G. unfold fuel_for in Hf. lia.
    + split; [cbn; discriminate|]. exists O. cbn. rewrite app_nil_r. split; [reflexivity|constructor].
  - cbn [page_loop]. destruct (100 >=? offset) eqn:G.
    2: { split; [cbn; discriminate|]. exists O. cbn. rewrite app_nil_r.
         split; [reflexivity|constructor]. }
    apply Z.geb_le in G.
    pose proof (page_iter_cases
      (page_loop f from_date to_date city_id is_online tags cat)
      from_date to_date city_id is_online tags cat offset events s) as C.
    cbv zeta in C.
    destruct C as [[E2 E1]|[s2 [O2 [[E2 E1]|[ev' E]]]]].
    + split; [exact E1|]. exists O. rewrite E2. cbn. rewrite app_nil_r.
      split; [reflexivity|constructor].
    + split; [exact E1|]. exists 1%nat. rewrite E2, O2, arith_S.
      split; [reflexivity|]. repeat constructor. exact G.
    + rewrite E.
      destruct (IH (offset + (limit - 1)) ev' s2 (fuel_for_next _ _ G Hf))
        as [T [k [Ok Fk]]].
      split; [exact T|]. exists (S k).
      rewrite Ok, O2, arith_S, <- app_assoc. split; [reflexivity|].
      constructor; [exact G|exact Fk].
Qed.

Lemma terminates_for_categories (cats : list pystr) from_date to_date city_id
    is_online tags :
  forall offset events,
    terminates (for_categories cats from_date to_date city_id is_online tags
                  offset events).
Proof.
  induction cats as [|cat rest IH]; intros offset events; cbn [for_categories].
  - apply terminates_ret.
  - destruct (bool_decide _).
    + apply terminates_bind; [|intros r; apply IH].
      intros s. apply page_loop_trace. lia.
    + apply terminates_bind; [apply terminates_modify|intros _; apply IH].
Qed.

Lemma terminates_get_events request_params tags :
  terminates (get_events request_params tags).
Proof.
  unfold get_events. terminates_tac. apply terminates_for_categories.
Qed.

(** C6: once the offset exceeds 100 the loop sends nothing and ends; from
    an offset of at most 100 it sends one request at that offset and,
    having processed the page, ends with the same offset when the page
    has fewer than [limit] = 21 items, and otherwise goes on from the
    offset advanced by [limit - 1] = 20. The loop never runs out of
    fuel, the offsets it requests are [offset], [offset + 20], ... and
    none of them exceeds 100, so that from a non-negative offset at most
    six pages are requested; [get_events] as a whole always ends. *)
Theorem paginator_bounded from_date to_date city_id is_online tags cat offset
    events (s : state) :
  (100 < offset -> forall fuel,
     page_loop fuel from_date to_date city_id is_online tags cat offset events s
     = (Ok (offset, events), s))
  /\ (offset <= 100 -> forall x response w page,
        super_tag_of cat = inr x ->
        request_get_events (net s)
          {| p_from := strftime from_date; p_to := strftime to_date;
             p_cityId := city_id; p_limit := limit; p_offset := offset;
             p_online := is_online; p_superTagId := x |} = (response, w) ->
        decoded_page response = inr page ->
        page_loop (fuel_for offset) from_date to_date city_id is_online tags
          cat offset events s
        = (events' <- process_page tags events page;;
           if Z.of_nat (length page) <? limit then ret (offset, events')
           else page_loop (fuel_for (offset + (limit - 1))) from_date to_date
                  city_id is_online tags cat (offset + (limit - 1)) events')
            (sent (ListRequest
                     {| p_from := strftime from_date; p_to := strftime to_date;
                        p_cityId := city_id; p_limit := limit;
                        p_offset := offset; p_online := is_online;
                        p_superTagId := x |}) w s))
  /\ (let r := page_loop (fuel_for offset) from_date to_date city_id is_online
                 tags cat offset events s in
      r.1 <> OutOfFuel
      /\ exists k,
           list_offsets (requests r.2) = list_offsets (requests s) ++ arith offset k
           /\ Forall (fun o => o <= 100) (arith offset k)
           /\ (0 <= offset -> (k <= 6)%nat))
  /\ (forall request_params, (get_events request_params tags s).1 <> OutOfFuel).
Proof.
  split; [|split; [|split]].
  - intros G fuel. destruct fuel; cbn [page_loop];
      (destruct (100 >=? offset) eqn:E; [apply Z.geb_le in E; lia|reflexivity]).
  - intros G x response w page Hx Hr Hp.
    assert (F : fuel_for offset = S (pred (fuel_for offset)))
      by (unfold fuel_for; lia).
    rewrite F. cbn [page_loop].
    destruct (100 >=? offset) eqn:E; [|rewrite Z.geb_leb in E; apply Z.leb_gt in E; lia].
    rewrite (page_iter_ext _
               (page_loop (fuel_for (offset + (limit - 1))) from_date to_date
                  city_id is_online tags cat)).
    + apply (page_iter_step _ _ _ _ _ _ _ _ _ _ _ _ _ _ Hx Hr Hp).
    + intros ev s'. apply page_loop_fuel; [|lia].
      apply fuel_for_next; [exact G|lia].
  - cbv zeta.
    destruct (page_loop_trace (fuel_for offset) from_date to_date city_id
                is_online tags cat offset events s (le_n _)) as [T [k [Ok Fk]]].
    split; [exact T|]. exists k. split; [exact Ok|]. split; [exact Fk|].
    apply arith_bound, Fk.
  - intros request_params. apply terminates_get_events.
Qed.

(** ** Deduplication *)

Lemma get_event_same_existed event_id event_url tags :
  steps same_existed (get_event event_id event_url tags).
Proof.
  apply steps_get_event; unfold same_existed; try reflexivity.
  intros s1 s2 s3 E1 E2. rewrite E2. exact E1.
Qed.

Lemma field_id_pure (e : raw) (s s' : state) (v : fval) :
  field id e s = (Ok v, s') ->
  exists i, v = FVal (JStr i) /\ _id_pure e = inr i.
Proof.
  cbn [field]. unfold _id, bind, lift.
  destruct (_id_pure e) as [x|i]; [discriminate|].
  intros [= <- <-]. exists i. split; reflexivity.
Qed.

Lemma parse_id (e : raw) (tags : list tag) : forall (s s' : state) (ev : event) i,
  parse e tags s = (Ok ev, s') ->
  event_id_attr ev = inr i -> _id_pure e = inr i.
Proof.
  induction tags as [|t ts IH]; intros s s' ev i; cbn [parse].
  - intros [= <- <-]. discriminate.
  - unfold bind at 1. destruct (field t e s) as [[v| |] s1] eqn:Ef; try discriminate.
    unfold bind at 1. destruct (parse e ts s1) as [[ev'| |] s2] eqn:Ep; try discriminate.
    intros [= <- <-]. unfold event_id_attr. cbn [list_find fst].
    destruct (decide (t = id)) as [->|Hn].
    + rewrite bool_decide_eq_true_2 by reflexivity.
      destruct (field_id_pure e s s1 v Ef) as [j [-> Ej]].
      intros [= <-]. exact Ej.
    + rewrite bool_decide_eq_false_2 by exact Hn.
      intros Hi. apply (IH s1 s2 ev' i Ep). unfold event_id_attr.
      destruct (list_find _ ev') as [[n [t' v']]|]; exact Hi.
Qed.

Lemma get_event_id (v : jval) tags (s s' : state) (ev : event) i :
  get_event v None tags s = (Ok ev, s') ->
  event_id_attr ev = inr i ->
  exists r w event_json_data,
    request_get_event (net s) (BASE_EVENTS_API ++ u "/" ++ py_str v) = (r, w)
    /\ json r = inr event_json_data /\ _id_pure event_json_data = inr i.
Proof.
  unfold get_event. intros Hg Hi.
  assert (E : forall k : jval -> M event,
             (x <- match v, @None pystr with
                   | JNull, Some event_url => ret (JStr (last_segment event_url))
                   | JNull, None => raise (ValueError (u "'event_id' or 'event_url' required."))
                   | _, _ => ret v
                   end;; k x) s = (Ok ev, s') -> k v s = (Ok ev, s')).
  { intros k. destruct v; try (intros X; exact X). discriminate. }
  apply E in Hg. unfold bind at 1, _request_get_event in Hg.
  destruct (request_get_event (net s) _) as [r w] eqn:Er.
  destruct (negb _); [discriminate|].
  unfold bind, lift in Hg. destruct (json r) as [x|e] eqn:Ej; [discriminate|].
  unfold ret in Hg. cbv beta iota in Hg.
  exists r, w, e. split; [reflexivity|]. split; [exact Ej|].
  exact (parse_id e _ _ _ _ _ Hg Hi).
Qed.

Lemma process_event_emits tags events (event_json : raw) (s s' : state) evs :
  process_event tags events event_json s = (Ok evs, s') ->
  (evs = events /\ s' = s)
  \/ exists e i eid,
       _id_pure event_json = inr eid /\ (eid ∉ existed_event_ids s)
       /\ evs = events ++ [e] /\ event_id_attr e = inr i
       /\ existed_event_ids s' = existed_event_ids s ++ [i]
       /\ (detail_echoes_id -> i = eid).
Proof.
  unfold process_event. unfold bind at 1, lift.
  destruct (_id_pure event_json) as [x|eid] eqn:Eid; [discriminate|].
  unfold bind at 1, gets, ret.
  destruct (bool_decide_reflect (eid ∈ existed_event_ids s)) as [Hin|Hnin].
  { intros [= <- <-]. left. split; reflexivity. }
  unfold bind at 1, lift.
  destruct (getitem event_json "id") as [x|v] eqn:Ev; [discriminate|].
  unfold bind at 1.
  pose proof (get_event_same_existed v None (Some (tags_or_all tags)) s) as Hs.
  destruct (get_event v None (Some (tags_or_all tags)) s) as [[e| |] s1] eqn:Eg;
    try discriminate.
  cbn [snd] in Hs. unfold same_existed in Hs.
  unfold bind at 1, lift.
  destruct (event_id_attr e) as [x|i] eqn:Ei; [discriminate|].
  unfold bind, modify, ret. intros [= <- <-].
  right. exists e, i, eid. repeat (split; [reflexivity || assumption|]).
  split; [cbn [existed_event_ids append_existed]; rewrite Hs; reflexivity|].
  intros Hc.
  destruct (get_event_id v _ s s1 e i Eg Ei) as [r [w [d [Er [Ej Ed]]]]].
  destruct (Hc _ _ _ _ _ Er Ej) as [v' [Ev' Ep]].
  unfold _id_pure, getitem in Ed, Eid, Ev.
  rewrite Ev' in Ed. cbn [bind_sum] in Ed.
  destruct (event_json !! "id") as [v0|]; [|discriminate].
  cbn [bind_sum] in Eid. injection Ev as <-. congruence.
Qed.

Lemma emitted_refl events s s' :
  same_existed s s' -> emitted events s events s'.
Proof.
  intros E. exists [], []. rewrite !app_nil_r.
  repeat split; [constructor|exact E|constructor|constructor].
Qed.

Lemma emitted_trans ev0 s0 ev1 s1 ev2 s2 :
  emitted ev0 s0 ev1 s1 -> emitted ev1 s1 ev2 s2 -> emitted ev0 s0 ev2 s2.
Proof.
  intros [n1 [i1 [E1 [F1 [X1 C1]]]]] [n2 [i2 [E2 [F2 [X2 C2]]]]].
  exists (n1 ++ n2), (i1 ++ i2). subst ev1 ev2.
  split; [symmetry; apply app_assoc|].
  split; [apply Forall2_app; assumption|].
  split; [rewrite X2, X1; symmetry; apply app_assoc|].
  intros Hc. destruct (C1 Hc) as [N1 D1]. destruct (C2 Hc) as [N2 D2].
  rewrite X1 in D2. split.
  - apply NoDup_app. split; [exact N1|]. split; [|exact N2].
    intros x Hx1 Hx2. rewrite Forall_forall in D2.
    apply (D2 x Hx2). apply elem_of_app. right. exact Hx1.
  - apply Forall_app. split; [exact D1|].
    eapply Forall_impl; [exact D2|]. cbn. intros x Hx Hin.
    apply Hx. apply elem_of_app. left. exact Hin.
Qed.

Lemma emitted_after ev0 s0 s1 ev2 s2 :
  same_existed s0 s1 -> emitted ev0 s1 ev2 s2 -> emitted ev0 s0 ev2 s2.
Proof. intros E. apply emitted_trans, emitted_refl, E. Qed.

Lemma process_event_emitted tags events (event_json : raw) (s s' : state) evs :
  process_event tags events event_json s = (Ok evs, s') ->
  emitted events s evs s'.
Proof.
  intros Hp. destruct (process_event_emits _ _ _ _ _ _ Hp)
    as [[-> ->]|[e [i [eid [Eid [Hn [-> [Ei [Ex Hc]]]]]]]]].
  - apply emitted_refl. reflexivity.
  - exists [e], [i]. split; [reflexivity|].
    split; [repeat constructor; exact Ei|]. split; [exact Ex|].
    intros C. rewrite (Hc C). split.
    + apply NoDup_singleton.
    + repeat constructor. exact Hn.
Qed.

Lemma process_page_emitted tags (page : list raw) :
  forall events (s s' : state) evs,
    process_page tags events page s = (Ok evs, s') -> emitted events s evs s'.
Proof.
  induction page as [|e rest IH]; intros events s s' evs; cbn [process_page].
  - intros [= <- <-]. apply emitted_refl. reflexivity.
  - unfold bind.
    destruct (process_event tags events e s) as [[ev1| |] s1] eqn:E1;
      try discriminate.
    intros E2. eapply emitted_trans.
    + apply (process_event_emitted _ _ _ _ _ _ E1).
    + apply IH, E2.
Qed.

Lemma page_iter_emitted next from_date to_date city_id is_online tags cat
    offset events (s s' : state) r :
  (forall events1 s1 r1 s1',
      next (offset + (limit - 1)) events1 s1 = (Ok r1, s1') ->
      emitted events1 s1 r1.2 s1') ->
  page_iter next from_date to_date city_id is_online tags cat offset events s
  = (Ok r, s') ->
  emitted events s r.2 s'.
Proof.
  intros Hnext. unfold page_iter.
  set (m1 := if bool_decide (cat = []) then ret None
             else bind (lift (categories_to_id cat)) (fun n => ret (Some n))).
  assert (Hm1 : (exists x, m1 s = (Ok x, s)) \/ (exists e, m1 s = (Raise e, s))).
  { subst m1. destruct (bool_decide _); [left; eexists; reflexivity|].
    unfold bind, lift. destruct (categories_to_id cat); [right|left]; eexists; reflexivity. }
  unfold bind at 1. destruct Hm1 as [[x E]|[e E]]; rewrite E; [|discriminate].
  unfold bind at 1, _request_get_events.
  destruct (request_get_events (net s) _) as [resp w].
  match goal with |- context [sent (ListRequest ?p) w s] =>
    set (s1 := sent (ListRequest p) w s) end.
  assert (S1 : same_existed s s1) by reflexivity.
  assert (Hpage : forall page,
    (bind (process_page tags events page)
       (fun events0 =>
          if Z.of_nat (length page) <? limit then ret (offset, events0)
          else next (offset + (limit - 1)) events0)) s1 = (Ok r, s') ->
    emitted events s r.2 s').
  { intros page. unfold bind.
    destruct (process_page tags events page s1) as [[ev1| |] s2] eqn:Ep;
      try discriminate.
    apply process_page_emitted in Ep. intros Hr.
    apply (emitted_after _ _ s1 _ _ S1).
    destruct (_ <? _).
    - injection Hr as <- <-. exact Ep.
    - eapply emitted_trans; [exact Ep|]. apply (Hnext _ _ _ _ Hr). }
  unfold bind at 1.
  destruct (lr_ok resp); [destruct (lr_json resp) as [e|page]|]; cbn [lift ret raise].
  - discriminate.
  - apply Hpage.
  - apply (Hpage []).
Qed.

Lemma page_loop_emitted (fuel : nat) from_date to_date city_id is_online tags cat :
  forall offset events (s s' : state) r,
    page_loop fuel from_date to_date city_id is_online tags cat offset events s
    = (Ok r, s') ->
    emitted events s r.2 s'.
Proof.
  induction fuel as [|f IH]; intros offset events s s' r; cbn [page_loop];
    (destruct (100 >=? offset);
     [|intros [= <- <-]; apply emitted_refl; reflexivity]).
  - discriminate.
  - apply page_iter_emitted. intros ev1 s1 r1 s1'. apply IH.
Qed.

Lemma for_categories_emitted (cats : list pystr) from_date to_date city_id
    is_online tags :
  forall offset events (s s' : state) evs,
    for_categories cats from_date to_date city_id is_online tags offset events s
    = (Ok evs, s') ->
    emitted events s evs s'.
Proof.
  induction cats as [|cat rest IH]; intros offset events s s' evs;
    cbn [for_categories].
  - intros [= <- <-]. apply emitted_refl. reflexivity.
  - destruct (bool_decide _).
    + unfold bind at 1.
      destruct (page_loop _ _ _ _ _ _ _ _ _ s) as [[r| |] s1] eqn:Ep;
        try discriminate.
      intros Hr. eapply emitted_trans.
      * apply (page_loop_emitted _ _ _ _ _ _ _ _ _ _ _ _ Ep).
      * apply (IH _ _ _ _ _ Hr).
    + unfold bind at 1, modify. intros Hr.
      apply (emitted_after _ _ (warn cat s)); [reflexivity|].
      apply (IH _ _ _ _ _ Hr).
Qed.

Lemma bind_ok {A B} (m : M A) (k : A -> M B) (s s' : state) (b : B) :
  bind m k s = (Ok b, s') ->
  exists a s1, m s = (Ok a, s1) /\ k a s1 = (Ok b, s').
Proof.
  unfold bind. destruct (m s) as [[a| |] s1]; try discriminate.
  intros E. exists a, s1. split; [reflexivity|exact E].
Qed.

Lemma lift_ok {A} (r : exn + A) (s s' : state) (a : A) :
  lift r s = (Ok a, s') -> s' = s /\ r = inr a.
Proof. destruct r; cbn; [discriminate|]. intros [= <- <-]. split; reflexivity. Qed.

Lemma get_events_emitted request_params tags (s s' : state) evs :
  get_events request_params tags s = (Ok evs, s') -> emitted [] s evs s'.
Proof.
  unfold get_events. intros Hg.
  apply bind_ok in Hg as (city_id & s1 & E1 & Hg).
  assert (s1 = s) as ->.
  { destruct (default ∅ request_params !! "city").
    - apply lift_ok in E1 as [-> _]. reflexivity.
    - injection E1 as _ <-. reflexivity. }
  apply bind_ok in Hg as (now & s1 & E2 & Hg). injection E2 as _ <-.
  apply bind_ok in Hg as (range & s1 & E3 & Hg). apply lift_ok in E3 as [-> _].
  apply bind_ok in Hg as (cats & s1 & E4 & Hg).
  assert (s1 = s) as ->.
  { destruct (default ∅ request_params !! "category").
    - apply lift_ok in E4 as [-> _]. reflexivity.
    - injection E4 as _ <-. reflexivity. }
  apply (for_categories_emitted _ _ _ _ _ _ _ _ _ _ _ Hg).
Qed.

(** C4, as amended: a record whose canonical id is in the list of seen ids
    when it is processed is skipped: no event is added, no request is
    sent, nothing changes. A batch fetch that returns appends to the list of seen ids
    exactly the ids of the events it returns, in order; so do two fetches
    that share the list, one after the other. When the detail endpoint
    echoes the id it is asked for, the ids of the events returned (by one
    fetch, or by both) are pairwise distinct and none of them was in the
    list before. *)
Theorem seen_ids_deduplicate (tags : option (list tag)) :
  (forall events (event_json : raw) (s : state) eid,
      _id_pure event_json = inr eid -> eid ∈ existed_event_ids s ->
      process_event tags events event_json s = (Ok events, s))
  /\ (forall request_params (s s' : state) evs,
        get_events request_params tags s = (Ok evs, s') ->
        exists ids,
          ids_of evs ids
          /\ existed_event_ids s' = existed_event_ids s ++ ids
          /\ (detail_echoes_id ->
              NoDup ids /\ Forall (fun i => i ∉ existed_event_ids s) ids))
  /\ (forall request_params1 request_params2 tags2 (s s1 s2 : state) evs1 evs2,
        get_events request_params1 tags s = (Ok evs1, s1) ->
        get_events request_params2 tags2 s1 = (Ok evs2, s2) ->
        exists ids1 ids2,
          ids_of evs1 ids1 /\ ids_of evs2 ids2
          /\ existed_event_ids s2 = existed_event_ids s ++ ids1 ++ ids2
          /\ (detail_echoes_id ->
              NoDup (ids1 ++ ids2)
              /\ Forall (fun i => i ∉ existed_event_ids s) (ids1 ++ ids2))).
Proof.
  split; [|split].
  - intros events event_json s eid Eid Hin.
    unfold process_event. unfold bind at 1. rewrite Eid. cbn [lift ret].
    unfold bind at 1, gets. rewrite bool_decide_eq_true_2 by exact Hin.
    reflexivity.
  - intros request_params s s' evs Hg.
    destruct (get_events_emitted _ _ _ _ _ Hg) as [new [ids [E [F [X C]]]]].
    cbn [app] in E. subst new. exists ids. repeat split; try assumption; apply C; assumption.
  - intros rp1 rp2 tags2 s s1 s2 evs1 evs2 H1 H2.
    apply get_events_emitted in H1. apply get_events_emitted in H2.
    destruct H1 as [n1 [i1 [E1 [F1 [X1 C1]]]]].
    destruct H2 as [n2 [i2 [E2 [F2 [X2 C2]]]]].
    cbn [app] in E1, E2. subst n1 n2.
    exists i1, i2. split; [exact F1|]. split; [exact F2|].
    split; [rewrite X2, X1; symmetry; apply app_assoc|].
    intros Hc. destruct (C1 Hc) as [N1 D1]. destruct (C2 Hc) as [N2 D2].
    rewrite X1 in D2. split.
    + apply NoDup_app. split; [exact N1|]. split; [|exact N2].
      intros x Hx1 Hx2. rewrite Forall_forall in D2.
      apply (D2 x Hx2). apply elem_of_app. right. exact Hx1.
    + apply Forall_app. split; [exact D1|].
      eapply Forall_impl; [exact D2|]. cbn. intros x Hx Hin.
      apply Hx. apply elem_of_app. left. exact Hin.
Qed.

(** ** Price *)

Lemma is_digit_cases (d : N) :
  is_digit d ->
  d = 0%N \/ d = 1%N \/ d = 2%N \/ d = 3%N \/ d = 4%N \/ d = 5%N \/ d = 6%N
  \/ d = 7%N \/ d = 8%N \/ d = 9%N.
Proof. unfold is_digit. lia. Qed.

Ltac digit_cases H :=
  apply is_digit_cases in H;
  destruct H as [->|[->|[->|[->|[->|[->|[->|[->|[->| ->]]]]]]]]].

Lemma of_uint_acc_digits (ds : list N) : forall acc,
  Forall is_digit ds ->
  Z.pos (Pos.of_uint_acc (uint_of_digits ds) acc)
  = fold_left (fun a d => 10 * a + Z.of_N d) ds (Z.pos acc).
Proof.
  induction ds as [|d r IH]; intros acc Hd; [reflexivity|].
  apply Forall_cons in Hd as [Hd Hr].
  digit_cases Hd; cbn [uint_of_digits foldr uint_cons Pos.of_uint_acc fold_left];
    fold (uint_of_digits r); rewrite (IH _ Hr); f_equal; lia.
Qed.

Lemma of_uint_digits (ds : list N) :
  Forall is_digit ds ->
  Z.of_uint (uint_of_digits ds) = digits_value ds.
Proof.
  unfold digits_value, Z.of_uint.
  induction ds as [|d r IH]; intros Hd; [reflexivity|].
  apply Forall_cons in Hd as [Hd Hr].
  digit_cases Hd; cbn [uint_of_digits foldr uint_cons Pos.of_uint fold_left Z.of_N];
    fold (uint_of_digits r);
    first [exact (IH Hr)|apply of_uint_acc_digits; exact Hr].
Qed.

Lemma unorm_digits (ds : list N) :
  normal_digits ds -> Decimal.unorm (uint_of_digits ds) = uint_of_digits ds.
Proof.
  intros [Hd [->|[d [r [-> Hn]]]]]; [reflexivity|].
  apply Forall_cons in Hd as [Hd _].
  digit_cases Hd; try reflexivity. congruence.
Qed.

Lemma nzhead_digits (d : N) (r : list N) :
  is_digit d -> d <> 0%N ->
  Decimal.nzhead (uint_of_digits (d :: r)) = uint_of_digits (d :: r).
Proof. intros Hd Hn. digit_cases Hd; try reflexivity. congruence. Qed.

Lemma u_cons (c : ascii) (s : string) :
  (N_of_ascii c <? 128)%N = true -> u (String c s) = N_of_ascii c :: u s.
Proof.
  intros Hc. unfold u. cbn [list_ascii_of_string map utf8_decode].
  rewrite Hc. reflexivity.
Qed.

Lemma u_string_of_uint (ds : list N) :
  Forall is_digit ds ->
  u (NilEmpty.string_of_uint (uint_of_digits ds)) = digit_chars ds.
Proof.
  induction ds as [|d r IH]; intros Hd; [reflexivity|].
  apply Forall_cons in Hd as [Hd Hr].
  digit_cases Hd;
    cbn [uint_of_digits foldr uint_cons NilEmpty.string_of_uint digit_chars map];
    fold (uint_of_digits r); rewrite u_cons by reflexivity; rewrite (IH Hr);
    reflexivity.
Qed.

Lemma str_int_digits (ds : list N) :
  normal_digits ds -> str_int (digits_value ds) = digit_chars ds.
Proof.
  intros Hn. pose proof (proj1 Hn) as Hd. unfold str_int.
  rewrite <- (of_uint_digits ds Hd).
  change (Z.of_uint (uint_of_digits ds))
    with (Z.of_int (Decimal.Pos (uint_of_digits ds))).
  rewrite DecimalZ.to_of. cbn [Decimal.norm]. rewrite (unorm_digits ds Hn).
  cbn [NilEmpty.string_of_int]. apply u_string_of_uint, Hd.
Qed.

Lemma str_int_neg_digits (d : N) (r : list N) :
  Forall is_digit (d :: r) -> d <> 0%N ->
  str_int (- digits_value (d :: r)) = 45%N :: digit_chars (d :: r).
Proof.
  intros Hd Hn. unfold str_int.
  rewrite <- (of_uint_digits _ Hd).
  change (- Z.of_uint (uint_of_digits (d :: r)))
    with (Z.of_int (Decimal.Neg (uint_of_digits (d :: r)))).
  rewrite DecimalZ.to_of. cbn [Decimal.norm].
  rewrite (nzhead_digits d r (Forall_inv Hd) Hn).
  assert (E : exists x, uint_of_digits (d :: r) = x /\ x <> Decimal.Nil).
  { eexists. split; [reflexivity|].
    pose proof (Forall_inv Hd) as H0. digit_cases H0; discriminate. }
  destruct E as [x [E Hx]]. rewrite E.
  destruct x; [congruence|..]; cbn [NilEmpty.string_of_int];
    rewrite u_cons by reflexivity; rewrite <- E, u_string_of_uint by exact Hd;
    reflexivity.
Qed.

Lemma before_dot_no_dot (s : pystr) : 46%N ∉ s -> before_dot s = s.
Proof.
  intros Hn. unfold before_dot. change (u ".") with [46%N].
  rewrite (split_go_no_sep 46 s Hn). reflexivity.
Qed.

Lemma before_dot_app (a b : pystr) :
  46%N ∉ a -> before_dot (a ++ u "." ++ b) = a.
Proof.
  intros Hn. unfold before_dot. change (u ".") with [46%N].
  induction a as [|x t IH].
  - cbn [app split_go starts_with]. reflexivity.
  - apply not_elem_of_cons in Hn as [Hx Ht].
    cbn [app split_go starts_with].
    destruct (N.eqb_spec 46 x) as [E|_]; [exfalso; exact (Hx E)|]. cbn [andb].
    specialize (IH Ht). cbn [app] in IH.
    destruct (split_go [46%N] 0 (t ++ 46%N :: b)) as [|h r]; congruence.
Qed.

Lemma digit_chars_no_dot (ds : list N) : Forall is_digit ds -> 46%N ∉ digit_chars ds.
Proof.
  intros Hd Hin. unfold digit_chars in Hin.
  apply list_elem_of_fmap in Hin as [d [E Hin]].
  rewrite Forall_forall in Hd. specialize (Hd d Hin). unfold is_digit in Hd. lia.
Qed.

Lemma zeros_digit_chars (n : Z) : zeros n = digit_chars (repeat 0%N (Z.to_nat n)).
Proof.
  unfold zeros, digit_chars. induction (Z.to_nat n) as [|k IH]; [reflexivity|].
  cbn [repeat map]. rewrite IH. reflexivity.
Qed.

Lemma digits_value_app (a b : list N) :
  digits_value (a ++ b)
  = fold_left (fun acc d => 10 * acc + Z.of_N d) b (digits_value a).
Proof. unfold digits_value. apply fold_left_app. Qed.

Lemma digits_value_zeros (ds : list N) (k : nat) :
  digits_value (ds ++ repeat 0%N k) = digits_value ds * 10 ^ Z.of_nat k.
Proof.
  rewrite digits_value_app. generalize (digits_value ds) as v.
  induction k as [|k IH]; intros v.
  - cbn [repeat fold_left]. change (10 ^ Z.of_nat 0) with 1. lia.
  - cbn [repeat fold_left]. rewrite IH, Nat2Z.inj_succ, Z.pow_succ_r by lia.
    change (Z.of_N 0) with 0. lia.
Qed.

Lemma str_int_no_dot (n : Z) : 46%N ∉ str_int n.
Proof.
  unfold str_int.
  assert (Hu : forall d, 46%N ∉ u (NilEmpty.string_of_uint d)).
  { induction d; cbn [NilEmpty.string_of_uint];
      [intros X; inversion X|..];
      rewrite u_cons by reflexivity;
      (apply not_elem_of_cons; split; [discriminate|exact IHd]). }
  destruct (Z.to_int n) as [d|d]; cbn [NilEmpty.string_of_int].
  - apply Hu.
  - rewrite u_cons by reflexivity.
    apply not_elem_of_cons. split; [discriminate|apply Hu].
Qed.

Lemma normal_digits_zeros (ds : list N) (k : nat) :
  normal_digits ds -> (ds = [0%N] -> k = O) ->
  normal_digits (ds ++ repeat 0%N k).
Proof.
  intros [Hd Hh] Hz. split.
  - apply Forall_app. split; [exact Hd|].
    apply Forall_forall. intros d Hin. apply list_elem_of_In, repeat_spec in Hin.
    subst d. unfold is_digit. lia.
  - destruct Hh as [->|[d [r [-> Hn]]]].
    + rewrite (Hz eq_refl). left. reflexivity.
    + right. exists d, (r ++ repeat 0%N k). split; [reflexivity|exact Hn].
Qed.

Lemma sign_digits_no_dot (neg : bool) (ds : list N) :
  Forall is_digit ds -> 46%N ∉ sign_str neg ++ digit_chars ds.
Proof.
  intros Hd Hin. apply elem_of_app in Hin as [Hin|Hin].
  - destruct neg; cbn in Hin; [|inversion Hin].
    apply list_elem_of_singleton in Hin. discriminate Hin.
  - exact (digit_chars_no_dot ds Hd Hin).
Qed.

Lemma str_int_signed (neg : bool) (ds : list N) :
  normal_digits ds -> (neg = true -> ds <> [0%N]) ->
  str_int (if neg then - digits_value ds else digits_value ds)
  = sign_str neg ++ digit_chars ds.
Proof.
  intros Hn Hz. destruct neg; [|apply str_int_digits, Hn].
  destruct Hn as [Hd [->|[d [r [-> Hn]]]]]; [destruct (Hz eq_refl eq_refl)|].
  apply str_int_neg_digits; assumption.
Qed.

(** Line 211, [str(x).split('.')[0]] on such a float. *)
Lemma float_whole (x : pyfloat) (n : Z) :
  plain_float x -> float_trunc x = Some n ->
  before_dot (float_repr x) = str_int n.
Proof.
  destruct x as [|neg|neg ds decpt]; cbn [plain_float];
    [intros []|intros []|].
  intros (Hn & Hz & Hp & Hneg) Ht. cbn [float_trunc] in Ht.
  injection Ht as <-. cbn [float_repr].
  replace ((decpt <=? -4) || (16 <? decpt)) with false
    by (symmetry; apply orb_false_iff; split; [apply Z.leb_gt|apply Z.ltb_ge]; lia).
  pose proof (proj1 Hn) as Hd.
  destruct (Z.leb_spec decpt 0) as [H0|H0].
  - assert (neg = false) as ->
      by (destruct neg; [destruct (Hneg eq_refl); lia|reflexivity]).
    cbn [sign_str app].
    change (u "0." ++ zeros (- decpt) ++ digit_chars ds)
      with ([48%N] ++ u "." ++ zeros (- decpt) ++ digit_chars ds).
    rewrite before_dot_app; [reflexivity|].
    intros Hin. apply list_elem_of_singleton in Hin. discriminate Hin.
  - destruct (Z.leb_spec (Z.of_nat (length ds)) decpt) as [Hl|Hl].
    + set (k := Z.to_nat (decpt - Z.of_nat (length ds))).
      assert (Ek : decpt - Z.of_nat (length ds) = Z.of_nat k)
        by (unfold k; lia).
      rewrite zeros_digit_chars. fold k.
      change (u ".0") with (u "." ++ [48%N]).
      rewrite !app_assoc. rewrite <- (app_assoc _ (u ".")).
      rewrite <- (app_assoc (sign_str neg)).
      unfold digit_chars at 1 2. rewrite <- map_app. fold (digit_chars (ds ++ repeat 0%N k)).
      assert (Hk : ds = [0%N] -> k = O).
      { intros ->. specialize (Hz eq_refl). subst decpt. reflexivity. }
      pose proof (normal_digits_zeros ds k Hn Hk) as Hn'.
      rewrite before_dot_app by (apply sign_digits_no_dot, Hn').
      rewrite Ek, <- digits_value_zeros.
      symmetry. apply str_int_signed; [exact Hn'|].
      intros Hneg' E. destruct (Hneg Hneg') as [_ Hnz].
      destruct Hn as [_ [->|[d [r [-> Hdn]]]]]; [congruence|].
      injection E as -> _. congruence.
    + rewrite app_assoc.
      assert (Hn' : normal_digits (take (Z.to_nat decpt) ds)
                    /\ take (Z.to_nat decpt) ds <> [0%N]).
      { destruct Hn as [_ [->|[d [r [-> Hdn]]]]]; [cbn in Hl; lia|].
        destruct (Z.to_nat decpt) as [|j] eqn:Ej; [lia|].
        cbn [take]. split; [|intros E; injection E as -> _; congruence].
        split.
        - change (d :: take j r) with (take (S j) (d :: r)).
          apply Forall_take, Hd.
        - right. exists d, (take j r). split; [reflexivity|exact Hdn]. }
      destruct Hn' as [Hn' Hnz].
      rewrite before_dot_app by (apply sign_digits_no_dot, Hn').
      symmetry. apply str_int_signed; [exact Hn'|intros _; exact Hnz].
Qed.

(** C9, as amended: for a record whose currency is the string [cur] and
    whose price is an integer, or a float that [repr] writes without an
    exponent and that is not a negative number above [-1] (nor negative
    zero), the price mapping returns the decimal numeral of the price
    truncated to an integer, followed by [cur] with every occurrence of
    ["RUB"] replaced by the rouble sign. *)
Theorem price_truncated (event_json_data : raw) (cur : pystr) (s : state) :
  event_json_data !! "currency" = Some (JStr cur) ->
  (forall n,
      event_json_data !! "minPrice" = Some (JInt n) ->
      _price event_json_data s
      = (Ok (FVal (JStr (str_int n ++ py_replace (u "RUB") (u "₽") cur))), s))
  /\ (forall x n,
        event_json_data !! "minPrice" = Some (JFloat x) ->
        plain_float x -> float_trunc x = Some n ->
        _price event_json_data s
        = (Ok (FVal (JStr (str_int n ++ py_replace (u "RUB") (u "₽") cur))), s)).
Proof.
  intros Hc. split.
  - intros n Hp. unfold _price, _price_pure, getitem. rewrite Hp, Hc.
    cbn [bind_sum as_str py_str].
    rewrite (before_dot_no_dot _ (str_int_no_dot n)). reflexivity.
  - intros x n Hp Hx Ht. unfold _price, _price_pure, getitem. rewrite Hp, Hc.
    cbn [bind_sum as_str py_str].
    rewrite (float_whole x n Hx Ht). reflexivity.
Qed.

(** ** The range of dates *)

(** Lines 100 to 104 read the parameter [days] and no other. *)
Lemma date_range_insert (now : Z) (request_params : gmap string pval) key v :
  key <> "days" ->
  date_range now (<[key := v]> request_params) = date_range now request_params.
Proof.
  intros Hk. unfold date_range. rewrite lookup_insert_ne by exact Hk. reflexivity.
Qed.

Lemma requests_in_range_same from_date to_date (s s' : state) :
  requests s' = requests s -> requests_in_range from_date to_date s s'.
Proof. intros E. exists []. rewrite app_nil_r. split; [exact E|constructor]. Qed.

Lemma requests_in_range_refl from_date to_date (s : state) :
  requests_in_range from_date to_date s s.
Proof. apply requests_in_range_same. reflexivity. Qed.

Lemma requests_in_range_trans from_date to_date (s1 s2 s3 : state) :
  requests_in_range from_date to_date s1 s2 ->
  requests_in_range from_date to_date s2 s3 ->
  requests_in_range from_date to_date s1 s3.
Proof.
  intros [l1 [E1 F1]] [l2 [E2 F2]]. exists (l1 ++ l2).
  rewrite E2, E1, <- app_assoc. split; [reflexivity|].
  apply Forall_app. split; assumption.
Qed.

Lemma process_page_in_range from_date to_date tags events page :
  steps (requests_in_range from_date to_date) (process_page tags events page).
Proof.
  apply steps_process_page.
  - apply requests_in_range_refl.
  - apply requests_in_range_trans.
  - intros d s. apply requests_in_range_same. reflexivity.
  - intros d s. apply requests_in_range_same. reflexivity.
  - intros a w s. exists [EventRequest a]. split; [reflexivity|].
    constructor; [exact I|constructor].
  - intros i s. apply requests_in_range_same. reflexivity.
Qed.

Lemma page_loop_in_range (fuel : nat) from_date to_date city_id is_online tags cat :
  forall offset events,
    steps (requests_in_range from_date to_date)
      (page_loop fuel from_date to_date city_id is_online tags cat offset events).
Proof.
  pose proof (requests_in_range_refl from_date to_date) as Rr.
  pose proof (requests_in_range_trans from_date to_date) as Rt.
  induction fuel as [|f IH]; intros offset events; cbn [page_loop];
    (destruct (100 >=? offset); [|apply steps_ret, Rr]).
  - intros s. apply Rr.
  - unfold page_iter.
    apply steps_bind; [exact Rt| |intros superTagId].
    { destruct (bool_decide _); [apply steps_ret, Rr|].
      apply steps_bind; [exact Rt|apply steps_lift, Rr|intros n].
      apply steps_ret, Rr. }
    apply steps_bind; [exact Rt| |intros response].
    { intros s. unfold _request_get_events.
      destruct (request_get_events _ _) as [r w].
      eexists [ListRequest _]. split; [reflexivity|].
      constructor; [split; reflexivity|constructor]. }
    apply steps_bind; [exact Rt| |intros page].
    { destruct (lr_ok response); [apply steps_lift, Rr|apply steps_ret, Rr]. }
    apply steps_bind; [exact Rt|apply process_page_in_range|intros evs].
    destruct (_ <? _); [apply steps_ret, Rr|apply IH].
Qed.

Lemma for_categories_in_range (cats : list pystr) from_date to_date city_id
    is_online tags :
  forall offset events,
    steps (requests_in_range from_date to_date)
      (for_categories cats from_date to_date city_id is_online tags offset events).
Proof.
  pose proof (requests_in_range_refl from_date to_date) as Rr.
  pose proof (requests_in_range_trans from_date to_date) as Rt.
  induction cats as [|cat rest IH]; intros offset events; cbn [for_categories].
  - apply steps_ret, Rr.
  - destruct (bool_decide _).
    + apply steps_bind; [exact Rt|apply page_loop_in_range|intros r; apply IH].
    + apply steps_bind; [exact Rt| |intros _; apply IH].
      apply steps_modify. intros s. apply requests_in_range_same. reflexivity.
Qed.

(** [get_events] by cases: the city, the range of dates and the categories
    are found first, without any request; then the loop runs. *)
Lemma get_events_unfold request_params tags (s : state) :
  get_events request_params tags s
  = match match default ∅ request_params !! "city" with
          | Some c => cities_to_id c
          | None => inr 1
          end with
    | inl e => (Raise e, s)
    | inr city_id =>
        match date_range (today (net s)) (default ∅ request_params) with
        | inl e => (Raise e, s)
        | inr range =>
            match match default ∅ request_params !! "category" with
                  | Some v => iterate v
                  | None => inr [[]]
                  end with
            | inl e => (Raise e, s)
            | inr cats =>
                for_categories cats range.1 range.2 city_id
                  match default ∅ request_params !! "online" with
                  | Some v => ptruthy v
                  | None => false
                  end tags 0 [] s
            end
        end
    end.
Proof.
  unfold get_events.
  assert (Hrest : forall city_id,
    (now <- gets (fun s => today (net s));;
     range <- lift (date_range now (default ∅ request_params));;
     cats <- match default ∅ request_params !! "category" with
             | Some v => lift (iterate v)
             | None => ret [[]]
             end;;
     for_categories cats range.1 range.2 city_id
       match default ∅ request_params !! "online" with
       | Some v => ptruthy v
       | None => false
       end tags 0 []) s
    = match date_range (today (net s)) (default ∅ request_params) with
      | inl e => (Raise e, s)
      | inr range =>
          match match default ∅ request_params !! "category" with
                | Some v => iterate v
                | None => inr [[]]
                end with
          | inl e => (Raise e, s)
          | inr cats =>
              for_categories cats range.1 range.2 city_id
                match default ∅ request_params !! "online" with
                | Some v => ptruthy v
                | None => false
                end tags 0 [] s
          end
      end).
  { intros city_id. unfold bind at 1, gets. cbv beta iota.
    unfold bind at 1, lift at 1.
    destruct (date_range _ _) as [e|range]; [reflexivity|].
    unfold ret at 1. cbv beta iota. unfold bind at 1.
    destruct (default ∅ request_params !! "category") as [v|].
    - unfold lift at 1. destruct (iterate v) as [e|cats]; reflexivity.
    - reflexivity. }
  destruct (default ∅ request_params !! "city") as [c|].
  - unfold bind at 1, lift at 1.
    destruct (cities_to_id c) as [e|city_id]; [reflexivity|].
    unfold ret at 1. cbv beta iota. apply Hrest.
  - unfold bind at 1, ret at 1. cbv beta iota. apply Hrest.
Qed.

(** Every request [get_events] sends to the list endpoint asks for the
    range [date_range] gives for the day of the call. *)
Lemma get_events_in_range request_params tags (s : state) :
  match date_range (today (net s)) (default ∅ request_params) with
  | inr range =>
      requests_in_range range.1 range.2 s (get_events request_params tags s).2
  | inl _ => requests (get_events request_params tags s).2 = requests s
  end.
Proof.
  rewrite get_events_unfold.
  destruct (match default ∅ request_params !! "city" with
            | Some c => cities_to_id c
            | None => inr 1
            end) as [e|city_id];
    destruct (date_range _ _) as [e'|range];
    try reflexivity; try apply requests_in_range_refl.
  destruct (match default ∅ request_params !! "category" with
            | Some v => iterate v
            | None => inr [[]]
            end) as [e|cats]; [apply requests_in_range_refl|].
  apply for_categories_in_range.
Qed.

(** Lines 100 and 104: without [days] the range is from tomorrow to eight
    days after tomorrow. *)
Lemma date_range_default (now : Z) (request_params : gmap string pval) :
  request_params !! "days" = None ->
  0 <= now + day_us -> now + 9 * day_us < datetime_end ->
  date_range now request_params = inr (now + day_us, now + 9 * day_us).
Proof.
  intros Hd H0 H9. unfold date_range. rewrite Hd. unfold add_days.
  assert (Hday : day_us = 86400000000) by reflexivity.
  change (999999999 <? Z.abs 1) with false.
  change (999999999 <? Z.abs 8) with false. cbv iota zeta.
  rewrite Z.mul_1_l.
  replace ((0 <=? now + day_us) && (now + day_us <? datetime_end)) with true
    by (symmetry; apply andb_true_iff; split; [apply Z.leb_le|apply Z.ltb_lt]; lia).
  rewrite bind_sum_inr.
  replace (now + day_us + 8 * day_us) with (now + 9 * day_us) by lia.
  replace ((0 <=? now + 9 * day_us) && (now + 9 * day_us <? datetime_end)) with true
    by (symmetry; apply andb_true_iff; split; [apply Z.leb_le|apply Z.ltb_lt]; lia).
  reflexivity.
Qed.

(** [get_events] reads the parameters [city], [online], [days] and
    [category] and no other. *)
Lemma get_events_ignores_key key v (request_params : gmap string pval) tags
    (s : state) :
  key <> "city" -> key <> "online" -> key <> "days" -> key <> "category" ->
  get_events (Some (<[key := v]> request_params)) tags s
  = get_events (Some request_params) tags s.
Proof.
  intros H1 H2 H3 H4. rewrite !get_events_unfold.
  unfold default. cbn [from_option]. unfold Datatypes.id.
  rewrite !lookup_insert_ne by congruence.
  rewrite date_range_insert by exact H3. reflexivity.
Qed.

(** ** Unknown categories *)

Lemma iw_ret {A} (a : A) : ignores_warnings (ret a).
Proof. intros s1 s2 E. repeat split; try apply E; reflexivity. Qed.

Lemma iw_raise {A} (e : exn) : ignores_warnings (@raise _ _ A e).
Proof. intros s1 s2 E. repeat split; try apply E; reflexivity. Qed.

Lemma iw_lift {A} (r : exn + A) : ignores_warnings (lift r).
Proof. destruct r; [apply iw_raise|apply iw_ret]. Qed.

Lemma iw_gets {A} (f : state -> A) :
  (forall s1 s2, eq_but_warnings s1 s2 -> f s1 = f s2) ->
  ignores_warnings (gets f).
Proof.
  intros Hf s1 s2 E. unfold gets. cbn [fst snd].
  rewrite (Hf s1 s2 E). repeat split; try apply E; reflexivity.
Qed.

Lemma iw_modify (f : state -> state) :
  (forall s1 s2, eq_but_warnings s1 s2 -> eq_but_warnings (f s1) (f s2)) ->
  (forall s, warnings (f s) = warnings s) ->
  ignores_warnings (modify f).
Proof.
  intros Hf Hw s1 s2 E. unfold modify. cbn [fst snd].
  split; [reflexivity|]. split; [apply Hf, E|apply Hw].
Qed.

Lemma iw_bind {A B} (m : M A) (k : A -> M B) :
  ignores_warnings m -> (forall a, ignores_warnings (k a)) ->
  ignores_warnings (x <- m;; k x).
Proof.
  intros Hm Hk s1 s2 E. unfold bind.
  destruct (Hm s1 s2 E) as [E1 [E2 E3]].
  destruct (m s1) as [o1 t1], (m s2) as [o2 t2]. cbn [fst snd] in *. subst o2.
  destruct o1 as [a|e|].
  - destruct (Hk a t1 t2 E2) as [F1 [F2 F3]].
    split; [exact F1|]. split; [exact F2|]. rewrite F3. exact E3.
  - repeat split; try apply E2. exact E3.
  - repeat split; try apply E2. exact E3.
Qed.

Ltac iw_tac :=
  repeat match goal with
    | |- ignores_warnings (match ?x with _ => _ end) => destruct x
    | |- ignores_warnings (bind _ _) => apply iw_bind; [|intros ?]
    | |- ignores_warnings (ret _) => apply iw_ret
    | |- ignores_warnings (raise _) => apply iw_raise
    | |- ignores_warnings (lift _) => apply iw_lift
    | |- ignores_warnings (gets _) =>
        apply iw_gets; intros ? ? E; try apply E
    | |- ignores_warnings (modify _) =>
        apply iw_modify;
        [intros ? ? E; unfold eq_but_warnings in *; cbn; intuition congruence
        |intros ?; reflexivity]
    end.

Lemma iw_field (t : tag) (e : raw) : ignores_warnings (field t e).
Proof.
  destruct t; cbn [field];
    unfold _adress, _category, _date_from, _date_to, _date_from_to, _id,
      _place_name, _full_text, _post_text, _poster_imag, _price, _title,
      _url, _is_registration_open;
    iw_tac.
Qed.

Lemma iw_parse (e : raw) (tags : list tag) : ignores_warnings (parse e tags).
Proof.
  induction tags as [|t ts IH]; cbn [parse]; [apply iw_ret|].
  apply iw_bind; [apply iw_field|intros v].
  apply iw_bind; [apply IH|intros ev]. apply iw_ret.
Qed.

Lemma iw_request_get_event (a : pystr) : ignores_warnings (_request_get_event a).
Proof.
  intros s1 s2 E. unfold _request_get_event.
  destruct E as (E1 & E2 & E3 & E4 & E5). rewrite E3.
  destruct (request_get_event (net s2) a) as [r w]. cbn.
  unfold eq_but_warnings. cbn. repeat split; congruence.
Qed.

Lemma iw_request_get_events p : ignores_warnings (_request_get_events p).
Proof.
  intros s1 s2 E. unfold _request_get_events.
  destruct E as (E1 & E2 & E3 & E4 & E5). rewrite E3.
  destruct (request_get_events (net s2) p) as [r w]. cbn.
  unfold eq_but_warnings. cbn. repeat split; congruence.
Qed.

Lemma iw_get_event (event_id : jval) (event_url : option pystr)
    (tags : option (list tag)) :
  ignores_warnings (get_event event_id event_url tags).
Proof.
  unfold get_event. apply iw_bind.
  - destruct event_id; try apply iw_ret.
    destruct event_url; [apply iw_ret|apply iw_raise].
  - intros i. apply iw_bind; [apply iw_request_get_event|intros r].
    destruct (negb _); [apply iw_raise|].
    apply iw_bind; [apply iw_lift|intros e]. apply iw_parse.
Qed.

Lemma iw_process_page tags (page : list raw) : forall events,
  ignores_warnings (process_page tags events page).
Proof.
  induction page as [|e rest IH]; intros events; cbn [process_page];
    [apply iw_ret|].
  apply iw_bind; [|intros ev; apply IH].
  unfold process_event. iw_tac. apply iw_get_event.
Qed.

Lemma iw_page_loop (fuel : nat) from_date to_date city_id is_online tags cat :
  forall offset events,
    ignores_warnings (page_loop fuel from_date to_date city_id is_online tags
                        cat offset events).
Proof.
  induction fuel as [|f IH]; intros offset events; cbn [page_loop];
    (destruct (100 >=? offset); [|apply iw_ret]).
  - intros s1 s2 E. cbn. repeat split; try apply E.
  - unfold page_iter.
    iw_tac; first [apply iw_request_get_events|apply iw_process_page|apply IH].
Qed.

Lemma bind_modify {B} (f : state -> state) (k : unit -> M B) (s : state) :
  bind (modify f) k s = k tt (f s).
Proof. reflexivity. Qed.

Lemma eq_but_warnings_refl (s : state) : eq_but_warnings s s.
Proof. repeat split. Qed.

Lemma for_categories_known (cats : list pystr) from_date to_date city_id
    is_online tags :
  forall offset events (s1 s2 : state),
    eq_but_warnings s1 s2 ->
    let r1 := for_categories cats from_date to_date city_id is_online tags
                offset events s1 in
    let r2 := for_categories (known cats) from_date to_date city_id is_online
                tags offset events s2 in
    r1.1 = r2.1 /\ eq_but_warnings r1.2 r2.2
    /\ warnings r2.2 = warnings s2
    /\ exists skipped,
         warnings r1.2 = warnings s1 ++ skipped
         /\ skipped `prefix_of` unknown cats
         /\ (forall evs, r1.1 = Ok evs -> skipped = unknown cats).
Proof.
  induction cats as [|cat rest IH]; intros offset events s1 s2 E; cbv zeta.
  - cbn. split; [reflexivity|]. split; [exact E|]. split; [reflexivity|].
    exists []. rewrite app_nil_r. repeat split; reflexivity.
  - unfold known, unknown. rewrite !filter_cons.
    cbn [for_categories].
    destruct (bool_decide_reflect (cat ∈ AVAILABLE_CATEGORIES ++ [[]])) as [Hk|Hk].
    + rewrite decide_True by exact Hk.
      rewrite (decide_False (P := cat ∉ _)) by (intros X; exact (X Hk)).
      cbn [for_categories]. rewrite bool_decide_eq_true_2 by exact Hk.
      unfold bind.
      destruct (iw_page_loop (fuel_for offset) from_date to_date city_id is_online
                  tags cat offset events s1 s2 E) as [P1 [P2 P3]].
      pose proof (proj2 (proj2 (iw_page_loop (fuel_for offset) from_date to_date
                    city_id is_online tags cat offset events s2 s2
                    (eq_but_warnings_refl s2)))) as W2.
      destruct (page_loop _ _ _ _ _ _ _ _ _ s1) as [o1 t1],
               (page_loop _ _ _ _ _ _ _ _ _ s2) as [o2 t2].
      cbn [fst snd] in *. subst o2.
      destruct o1 as [r|e|].
      * destruct (IH r.1 r.2 t1 t2 P2) as [I1 [I2 [I3 [sk [I4 [I5 I6]]]]]].
        split; [exact I1|]. split; [exact I2|].
        split; [fold (known rest); rewrite I3; exact W2|].
        exists sk. fold (unknown rest). rewrite I4, P3. repeat split; assumption.
      * split; [reflexivity|]. split; [exact P2|]. split; [exact W2|].
        exists []. rewrite app_nil_r. split; [exact P3|].
        split; [apply prefix_nil|discriminate].
      * split; [reflexivity|]. split; [exact P2|]. split; [exact W2|].
        exists []. rewrite app_nil_r. split; [exact P3|].
        split; [apply prefix_nil|discriminate].
    + rewrite decide_False by exact Hk.
      rewrite (decide_True (P := cat ∉ _)) by exact Hk.
      rewrite !bind_modify.
      assert (E' : eq_but_warnings (warn cat s1) s2) by exact E.
      destruct (IH offset events (warn cat s1) s2 E')
        as [I1 [I2 [I3 [sk [I4 [I5 I6]]]]]].
      split; [exact I1|]. split; [exact I2|]. split; [exact I3|].
      exists (cat :: sk). fold (unknown rest).
      split; [rewrite I4; cbn [warnings warn]; rewrite <- app_assoc; reflexivity|].
      split; [apply prefix_cons, I5|].
      intros evs Hev. rewrite (I6 evs Hev). reflexivity.
Qed.

Lemma get_events_categories (request_params : gmap string pval) cats tags
    (s : state) :
  get_events (Some (<["category" := PList cats]> request_params)) tags s
  = match match request_params !! "city" with
          | Some c => cities_to_id c
          | None => inr 1
          end with
    | inl e => (Raise e, s)
    | inr city_id =>
        match date_range (today (net s)) request_params with
        | inl e => (Raise e, s)
        | inr range =>
            for_categories cats range.1 range.2 city_id
              match request_params !! "online" with
              | Some v => ptruthy v
              | None => false
              end tags 0 [] s
        end
    end.
Proof.
  rewrite get_events_unfold. unfold default. cbn [from_option].
  unfold Datatypes.id.
  rewrite (lookup_insert_ne request_params "category" "city") by discriminate.
  rewrite (lookup_insert_ne request_params "category" "online") by discriminate.
  rewrite lookup_insert_eq. rewrite date_range_insert by discriminate.
  reflexivity.
Qed.

(** C1, as amended: a batch request whose categories are the list [cats]
    behaves as the request with the names that are neither an available
    category nor the empty name removed. It returns the same events or
    fails with the same error, and leaves the same state but for the
    warnings; the request without these names issues no warning, and the
    request with them issues a warning for each of them it reaches, in
    order: for all of them when it returns. So such a name contributes no
    event and does not fail the batch, and the other names give what
    they give without it. *)
Theorem unknown_categories_skipped (request_params : gmap string pval)
    (cats : list pystr) (tags : option (list tag)) (s : state) :
  let r1 := get_events (Some (<["category" := PList cats]> request_params))
              tags s in
  let r2 := get_events (Some (<["category" := PList (known cats)]> request_params))
              tags s in
  r1.1 = r2.1 /\ eq_but_warnings r1.2 r2.2
  /\ warnings r2.2 = warnings s
  /\ exists skipped,
       warnings r1.2 = warnings s ++ skipped
       /\ skipped `prefix_of` unknown cats
       /\ (forall evs, r1.1 = Ok evs -> skipped = unknown cats).
Proof.
  cbv zeta. rewrite !get_events_categories.
  destruct (match request_params !! "city" with
            | Some c => cities_to_id c
            | None => inr 1
            end) as [e|city_id].
  { split; [reflexivity|]. split; [apply eq_but_warnings_refl|].
    split; [reflexivity|]. exists []. rewrite app_nil_r.
    split; [reflexivity|]. split; [apply prefix_nil|discriminate]. }
  destruct (date_range _ _) as [e|range].
  { split; [reflexivity|]. split; [apply eq_but_warnings_refl|].
    split; [reflexivity|]. exists []. rewrite app_nil_r.
    split; [reflexivity|]. split; [apply prefix_nil|discriminate]. }
  apply for_categories_known, eq_but_warnings_refl.
Qed.

(** ** Resolvers, categories and the list endpoint *)

Lemma accepted_cases (cat : pystr) :
  cat ∈ AVAILABLE_CATEGORIES ++ [[]] ->
  cat = u "concert" \/ cat = u "theatre" \/ cat = u "museum"
  \/ cat = u "education" \/ cat = u "sport" \/ cat = u "entertainment"
  \/ cat = u "kids" \/ cat = u "show" \/ cat = [].
Proof.
  unfold AVAILABLE_CATEGORIES. cbn [app]. intros Hin.
  repeat (apply elem_of_cons in Hin as [Hin|Hin]; [tauto|]).
  inversion Hin.
Qed.

(** X1: every name the loop of [get_events] accepts resolves: the empty
    name to no [superTagId], each available category to its id in the
    table of [categories_to_id]; so the lookup of line 119 never raises
    [KeyError]. *)
Theorem accepted_categories_resolve (cat : pystr) :
  cat ∈ AVAILABLE_CATEGORIES ++ [[]] ->
  exists x, super_tag_of cat = inr x /\ (x = None <-> cat = []).
Proof.
  intros Hin. apply accepted_cases in Hin.
  destruct Hin as [->|[->|[->|[->|[->|[->|[->|[->| ->]]]]]]]];
    (eexists; split; [vm_compute; reflexivity|split; intros E; discriminate E])
    || (exists None; split; [reflexivity|split; reflexivity]).
Qed.


Lemma for_categories_all_unknown (cats : list pystr) from_date to_date city_id
    is_online tags offset events :
  forall s : state,
    Forall (fun cat => cat ∉ AVAILABLE_CATEGORIES ++ [[]]) cats ->
    for_categories cats from_date to_date city_id is_online tags offset events s
    = (Ok events, warn_all cats s).
Proof.
  induction cats as [|cat rest IH]; intros s Hall; [reflexivity|].
  apply Forall_cons in Hall as [Hc Hr].
  cbn [for_categories]. rewrite bool_decide_eq_false_2 by exact Hc.
  rewrite bind_modify. rewrite (IH _ Hr). reflexivity.
Qed.

Lemma warn_all_warnings (cats : list pystr) : forall s : state,
  warnings (warn_all cats s) = warnings s ++ cats
  /\ requests (warn_all cats s) = requests s
  /\ existed_event_ids (warn_all cats s) = existed_event_ids s
  /\ net (warn_all cats s) = net s.
Proof.
  induction cats as [|cat rest IH]; intros s.
  - cbn. rewrite app_nil_r. repeat split.
  - cbn [warn_all foldl]. fold (warn_all rest (warn cat s)).
    destruct (IH (warn cat s)) as (E1 & E2 & E3 & E4).
    rewrite E1, E2, E3, E4. cbn [warnings requests existed_event_ids net warn].
    rewrite <- app_assoc. repeat split.
Qed.

Lemma single_char_unknown (c : N) : [c] ∉ AVAILABLE_CATEGORIES ++ [[]].
Proof.
  intros Hin. apply accepted_cases in Hin.
  destruct Hin as [E|[E|[E|[E|[E|[E|[E|[E|E]]]]]]]];
    apply (f_equal length) in E; vm_compute in E; discriminate E.
Qed.

(** X3: a [category] parameter that is a string and not a list is
    iterated code point by code point (line 106); no single code point is
    an accepted name, so, once the city and the dates are found, the call
    returns no event, sends no request and issues one warning per code
    point of the string. *)
Theorem category_string_warns_per_char (request_params : gmap string pval)
    (t : pystr) (city_id : Z) (range : Z * Z) tags (s : state) :
  request_params !! "category" = Some (PVal (JStr t)) ->
  match request_params !! "city" with
  | Some c => cities_to_id c
  | None => inr 1
  end = inr city_id ->
  date_range (today (net s)) request_params = inr range ->
  get_events (Some request_params) tags s
  = (Ok [], warn_all (map (fun c => [c]) t) s)
  /\ warnings (warn_all (map (fun c => [c]) t) s)
     = warnings s ++ map (fun c => [c]) t
  /\ requests (warn_all (map (fun c => [c]) t) s) = requests s.
Proof.
  intros Hcat Hcity Hrange. split.
  - rewrite get_events_unfold. unfold default. cbn [from_option].
    unfold Datatypes.id. rewrite Hcity, Hrange, Hcat. cbn [iterate].
    apply for_categories_all_unknown.
    apply Forall_forall. intros cat Hin.
    apply list_elem_of_fmap in Hin as [c [-> _]]. apply single_char_unknown.
  - destruct (warn_all_warnings (map (fun c => [c]) t) s) as (E1 & E2 & _).
    split; assumption.
Qed.

(** X4: a falsy response of the list endpoint (lines 123 to 126) counts
    as an empty page, whatever its body: the loop of the category ends
    after this one request, with the offset and the events as they were
    and without an error. *)
Theorem failed_list_response_is_empty_page from_date to_date city_id is_online
    tags cat offset events (s : state) x response w :
  offset <= 100 ->
  super_tag_of cat = inr x ->
  request_get_events (net s)
    {| p_from := strftime from_date; p_to := strftime to_date;
       p_cityId := city_id; p_limit := limit; p_offset := offset;
       p_online := is_online; p_superTagId := x |} = (response, w) ->
  lr_ok response = false ->
  page_loop (fuel_for offset) from_date to_date city_id is_online tags cat
    offset events s
  = (Ok (offset, events),
     sent (ListRequest
             {| p_from := strftime from_date; p_to := strftime to_date;
                p_cityId := city_id; p_limit := limit; p_offset := offset;
                p_online := is_online; p_superTagId := x |}) w s).
Proof.
  intros Ho Hx Hr Hok.
  assert (Hf : exists f, fuel_for offset = S f).
  { unfold fuel_for. destruct (Z.to_nat (101 - offset)) eqn:E; [lia|eexists; reflexivity]. }
  destruct Hf as [f ->]. cbn [page_loop].
  rewrite (proj2 (Z.geb_le 100 offset) Ho).
  rewrite (page_iter_step _ _ _ _ _ _ _ _ _ _ x response w [] Hx Hr)
    by (unfold decoded_page; rewrite Hok; reflexivity).
  reflexivity.
Qed.

(** X5: a truthy response of the list endpoint whose body is not JSON
    fails the batch: the error of [response.json()] (line 124) leaves the
    loop, after the one request. *)
Theorem broken_list_body_fails from_date to_date city_id is_online
    tags cat offset events (s : state) x response w e :
  offset <= 100 ->
  super_tag_of cat = inr x ->
  request_get_events (net s)
    {| p_from := strftime from_date; p_to := strftime to_date;
       p_cityId := city_id; p_limit := limit; p_offset := offset;
       p_online := is_online; p_superTagId := x |} = (response, w) ->
  lr_ok response = true -> lr_json response = inl e ->
  page_loop (fuel_for offset) from_date to_date city_id is_online tags cat
    offset events s
  = (Raise e,
     sent (ListRequest
             {| p_from := strftime from_date; p_to := strftime to_date;
                p_cityId := city_id; p_limit := limit; p_offset := offset;
                p_online := is_online; p_superTagId := x |}) w s).
Proof.
  intros Ho Hx Hr Hok Hj.
  assert (Hf : exists f, fuel_for offset = S f).
  { unfold fuel_for. destruct (Z.to_nat (101 - offset)) eqn:E; [lia|eexists; reflexivity]. }
  destruct Hf as [f ->]. cbn [page_loop].
  rewrite (proj2 (Z.geb_le 100 offset) Ho).
  unfold page_iter.
  assert (E1 : (if bool_decide (cat = []) then ret None
                else bind (lift (categories_to_id cat)) (fun n => ret (Some n))) s
               = (Ok x, s)).
  { unfold super_tag_of in Hx.
    destruct (bool_decide _); [injection Hx as <-; reflexivity|].
    unfold bind, lift. destruct (categories_to_id cat); [discriminate|].
    injection Hx as <-. reflexivity. }
  unfold bind at 1. rewrite E1.
  unfold bind at 1, _request_get_events. rewrite Hr.
  unfold bind at 1. rewrite Hok, Hj. reflexivity.
Qed.

(** ** What a call sends and leaves behind *)

Lemma grows_refl (s : state) : grows s s.
Proof. repeat split; reflexivity. Qed.

Lemma grows_trans (s1 s2 s3 : state) : grows s1 s2 -> grows s2 s3 -> grows s1 s3.
Proof.
  intros (A1 & A2 & A3) (B1 & B2 & B3).
  repeat split; etransitivity; eassumption.
Qed.

Lemma process_page_grows tags events page :
  steps grows (process_page tags events page).
Proof.
  apply steps_process_page.
  - apply grows_refl.
  - apply grows_trans.
  - intros d s. repeat split; reflexivity.
  - intros d s. repeat split; reflexivity.
  - intros a w s. split; [apply prefix_app_r; reflexivity|].
    split; reflexivity.
  - intros i s. split; [reflexivity|].
    split; [reflexivity|apply prefix_app_r; reflexivity].
Qed.

Lemma page_loop_grows (fuel : nat) from_date to_date city_id is_online tags cat :
  forall offset events,
    steps grows
      (page_loop fuel from_date to_date city_id is_online tags cat offset events).
Proof.
  pose proof grows_refl as Rr. pose proof grows_trans as Rt.
  induction fuel as [|f IH]; intros offset events; cbn [page_loop];
    (destruct (100 >=? offset); [|apply steps_ret, Rr]).
  - intros s. apply Rr.
  - unfold page_iter.
    apply steps_bind; [exact Rt| |intros superTagId].
    { destruct (bool_decide _); [apply steps_ret, Rr|].
      apply steps_bind; [exact Rt|apply steps_lift, Rr|intros n].
      apply steps_ret, Rr. }
    apply steps_bind; [exact Rt| |intros response].
    { intros s. unfold _request_get_events.
      destruct (request_get_events _ _) as [r w].
      split; [apply prefix_app_r; reflexivity|]. split; reflexivity. }
    apply steps_bind; [exact Rt| |intros page].
    { destruct (lr_ok response); [apply steps_lift, Rr|apply steps_ret, Rr]. }
    apply steps_bind; [exact Rt|apply process_page_grows|intros evs].
    destruct (_ <? _); [apply steps_ret, Rr|apply IH].
Qed.

Lemma for_categories_grows (cats : list pystr) from_date to_date city_id
    is_online tags :
  forall offset events,
    steps grows
      (for_categories cats from_date to_date city_id is_online tags offset events).
Proof.
  pose proof grows_refl as Rr. pose proof grows_trans as Rt.
  induction cats as [|cat rest IH]; intros offset events; cbn [for_categories].
  - apply steps_ret, Rr.
  - destruct (bool_decide _).
    + apply steps_bind; [exact Rt|apply page_loop_grows|intros r; apply IH].
    + apply steps_bind; [exact Rt| |intros _; apply IH].
      apply steps_modify. intros s. split; [reflexivity|].
      split; [apply prefix_app_r; reflexivity|reflexivity].
Qed.

(** X6: whatever its outcome, a call of [get_events] only appends: the
    request log, the warnings and the caller's list of seen ids after the
    call extend those before it; in particular the ids appended before a
    failure stay in the caller's list. *)
Theorem get_events_only_appends request_params tags (s : state) :
  grows s (get_events request_params tags s).2.
Proof.
  rewrite get_events_unfold.
  destruct (match default ∅ request_params !! "city" with
            | Some c => cities_to_id c
            | None => inr 1
            end) as [e|city_id]; [apply grows_refl|].
  destruct (date_range _ _) as [e'|range]; [apply grows_refl|].
  destruct (match default ∅ request_params !! "category" with
            | Some v => iterate v
            | None => inr [[]]
            end) as [e|cats]; [apply grows_refl|].
  apply for_categories_grows.
Qed.

Lemma process_page_app tags (a b : list raw) : forall events (s : state),
  process_page tags events (a ++ b) s
  = (events' <- process_page tags events a;; process_page tags events' b) s.
Proof.
  induction a as [|e a IH]; intros events s; [reflexivity|].
  cbn [app process_page]. unfold bind.
  destruct (process_event tags events e s) as [[ev| |] s1]; try reflexivity.
  rewrite IH. reflexivity.
Qed.

(** X7: a detail fetch that does not answer 200 is fatal for the page
    and so for the batch: when the records [before] have been processed
    and the next record is new, the fetch error is raised after that one
    request; the records after it are not looked at, the events collected
    are not returned, and the list of seen ids stays as [before] left
    it. *)
Theorem detail_failure_fails_batch tags (before after : list raw)
    (event_json : raw) (events events1 : list event) (s s1 : state)
    (v : jval) (response : detail_response) (w : world) :
  process_page tags events before s = (Ok events1, s1) ->
  event_json !! "id" = Some v -> v <> JNull ->
  (parser_prefix ++ py_str v) ∉ existed_event_ids s1 ->
  request_get_event (net s1) (BASE_EVENTS_API ++ u "/" ++ py_str v)
  = (response, w) ->
  status_code response <> 200 ->
  process_page tags events (before ++ event_json :: after) s
  = (Raise (fetch_failed response),
     sent (EventRequest (BASE_EVENTS_API ++ u "/" ++ py_str v)) w s1).
Proof.
  intros Hb Hid Hv Hnew Hr Hs.
  rewrite process_page_app. unfold bind at 1. rewrite Hb.
  cbn [process_page]. unfold bind at 1.
  unfold process_event. unfold _id_pure, getitem. rewrite Hid.
  cbn [bind_sum lift]. unfold bind at 1, ret at 1. cbv beta iota.
  unfold bind at 1, gets. cbv beta iota.
  rewrite bool_decide_eq_false_2 by exact Hnew.
  unfold bind at 1, ret at 1. cbv beta iota.
  unfold bind at 1. unfold get_event.
  assert (Ev : (match v, @None pystr with
                | JNull, Some event_url => ret (JStr (last_segment event_url))
                | JNull, None =>
                    raise (ValueError (u "'event_id' or 'event_url' required."))
                | _, _ => ret v
                end : M jval) = ret v) by (destruct v; congruence).
  rewrite Ev. unfold bind at 1, ret at 1. cbv beta iota.
  unfold bind at 1, _request_get_event. rewrite Hr.
  rewrite (proj2 (Z.eqb_neq _ _) Hs). cbn [negb]. reflexivity.
Qed.

Lemma list_offsets_params (rs : list request) :
  list_offsets rs = map p_offset (list_params rs).
Proof.
  unfold list_offsets, list_params.
  induction rs as [|[p|a] rs IH]; cbn [omap list_omap map]; [reflexivity| |exact IH].
  cbn. f_equal. exact IH.
Qed.

Lemma list_params_app (a b : list request) :
  list_params (a ++ b) = list_params a ++ list_params b.
Proof. apply omap_app. Qed.

Lemma list_params_nil (l : list request) :
  list_offsets l = [] -> list_params l = [].
Proof. rewrite list_offsets_params. apply fmap_nil_inv. Qed.

Lemma page_iter_outcomes next from_date to_date city_id is_online tags cat
    offset events (s : state) :
  let r := page_iter next from_date to_date city_id is_online tags cat offset
             events s in
  (exists e, r = (Raise e, s))
  \/ exists x l s2,
       super_tag_of cat = inr x
       /\ requests s2
          = requests s
            ++ ListRequest
                 {| p_from := strftime from_date; p_to := strftime to_date;
                    p_cityId := city_id; p_limit := limit; p_offset := offset;
                    p_online := is_online; p_superTagId := x |} :: l
       /\ list_params l = []
       /\ warnings s2 = warnings s
       /\ ((exists e, r = (Raise e, s2))
           \/ (exists events', r = (Ok (offset, events'), s2))
           \/ (exists events', r = next (offset + (limit - 1)) events' s2)).
Proof.
  cbv zeta.
  destruct (super_tag_of cat) as [e|x] eqn:Hx.
  { left. exists e. unfold page_iter. unfold super_tag_of in Hx.
    unfold bind at 1.
    destruct (bool_decide (cat = [])); [discriminate Hx|].
    unfold bind at 1, lift at 1.
    destruct (categories_to_id cat); [|discriminate Hx].
    injection Hx as <-. reflexivity. }
  right. exists x.
  destruct (request_get_events (net s)
              {| p_from := strftime from_date; p_to := strftime to_date;
                 p_cityId := city_id; p_limit := limit; p_offset := offset;
                 p_online := is_online; p_superTagId := x |})
    as [response w] eqn:Hr.
  destruct (decoded_page response) as [e|page] eqn:Hp.
  { exists [], (sent (ListRequest
               {| p_from := strftime from_date; p_to := strftime to_date;
                  p_cityId := city_id; p_limit := limit; p_offset := offset;
                  p_online := is_online; p_superTagId := x |}) w s).
    split; [reflexivity|]. split; [reflexivity|]. split; [reflexivity|].
    split; [reflexivity|].
    left. exists e. unfold page_iter.
    assert (E1 : (if bool_decide (cat = []) then ret None
                  else bind (lift (categories_to_id cat)) (fun n => ret (Some n))) s
                 = (Ok x, s)).
    { unfold super_tag_of in Hx.
      destruct (bool_decide _); [injection Hx as <-; reflexivity|].
      unfold bind, lift. destruct (categories_to_id cat); [discriminate|].
      injection Hx as <-. reflexivity. }
    unfold bind at 1. rewrite E1.
    unfold bind at 1, _request_get_events. rewrite Hr.
    unfold bind at 1. unfold decoded_page in Hp.
    destruct (lr_ok response); [|discriminate Hp]. rewrite Hp. reflexivity. }
  rewrite (page_iter_step next _ _ _ _ _ _ _ _ _ x response w page Hx Hr Hp).
  set (s1 := sent _ w s).
  pose proof (process_page_only_event_requests tags events page s1) as [l [El Ol]].
  pose proof (terminates_process_page tags page events s1) as T.
  pose proof (process_page_grows tags events page s1) as G.
  pose proof (iw_process_page tags page events s1 s1 (eq_but_warnings_refl s1)) as W.
  unfold bind.
  destruct (process_page tags events page s1) as [[ev'|e|] s2]; cbn [fst snd] in *.
  - exists l, s2. split; [reflexivity|].
    split; [rewrite El; subst s1; cbn [requests sent]; rewrite <- app_assoc; reflexivity|].
    split; [apply list_params_nil, Ol|].
    split; [apply W|].
    destruct (_ <? _); [right; left; exists ev'; reflexivity|].
    right; right. exists ev'. reflexivity.
  - exists l, s2. split; [reflexivity|].
    split; [rewrite El; subst s1; cbn [requests sent]; rewrite <- app_assoc; reflexivity|].
    split; [apply list_params_nil, Ol|].
    split; [apply W|].
    left. exists e. reflexivity.
  - congruence.
Qed.

Lemma super_tag_of_inr (cat : pystr) (x : option Z) :
  super_tag_of cat = inr x ->
  match x with
  | None => cat = []
  | Some n => cat <> [] /\ categories_to_id cat = inr n
  end.
Proof.
  unfold super_tag_of.
  destruct (bool_decide_reflect (cat = [])) as [E|E].
  - intros X. injection X as <-. exact E.
  - destruct (categories_to_id cat) as [e|n]; [discriminate|].
    intros X. injection X as <-. split; [exact E|reflexivity].
Qed.

Lemma remaining_step (offset : Z) :
  offset <= 100 -> remaining offset = S (remaining (offset + (limit - 1))).
Proof.
  intros Ho. unfold remaining, limit. change (21 - 1) with 20.
  replace (100 + 20 - offset) with ((100 - offset) + 1 * 20) by lia.
  rewrite Z.div_add by lia.
  replace (100 + 20 - (offset + 20)) with (100 - offset) by lia.
  assert (0 <= (100 - offset) / 20) by (apply Z.div_pos; lia). lia.
Qed.

Lemma arith_0 (offset : Z) : arith offset 0 = [].
Proof. reflexivity. Qed.

Lemma arith_ge (k : nat) : forall offset,
  Forall (fun o => offset <= o) (arith offset k).
Proof.
  induction k as [|k IH]; intros offset; [constructor|].
  rewrite arith_S. constructor; [lia|].
  eapply Forall_impl; [apply IH|]. unfold limit. cbn beta. intros o Ho. lia.
Qed.

Lemma arith_sorted (k : nat) : forall offset,
  StronglySorted Z.le (arith offset k).
Proof.
  induction k as [|k IH]; intros offset; [constructor|].
  rewrite arith_S. constructor; [apply IH|].
  eapply Forall_impl; [apply arith_ge|]. unfold limit. cbn beta. intros o Ho. lia.
Qed.

Lemma page_loop_requests (fuel : nat) from_date to_date city_id is_online tags cat :
  forall offset events (s : state),
    (fuel_for offset <= fuel)%nat ->
    let r := page_loop fuel from_date to_date city_id is_online tags cat
               offset events s in
    exists l k,
      requests r.2 = requests s ++ l
      /\ Forall (carries from_date to_date city_id is_online [cat]) (list_params l)
      /\ map p_offset (list_params l) = arith offset k
      /\ Forall (fun o => o <= 100) (arith offset k)
      /\ warnings r.2 = warnings s
      /\ (k <= remaining offset)%nat
      /\ (forall off' evs, r.1 = Ok (off', evs) ->
            offset <= off'
            /\ Forall (fun o => o <= off') (arith offset k)
            /\ (k + remaining off' <= 1 + remaining offset)%nat).
Proof.
  induction fuel as [|f IH]; intros offset events s Hf; cbv zeta;
    cbn [page_loop]; destruct (100 >=? offset) eqn:G.
  - apply Z.geb_le in G. unfold fuel_for in Hf. lia.
  - exists [], O. cbn [ret fst snd]. rewrite app_nil_r.
    split; [reflexivity|]. split; [constructor|]. split; [reflexivity|].
    split; [constructor|]. split; [reflexivity|]. split; [lia|].
    intros off' evs E. injection E as <- _.
    split; [lia|]. split; [constructor|lia].
  - apply Z.geb_le in G.
    pose proof (remaining_step offset G) as Hrem.
    pose proof (page_iter_outcomes
      (page_loop f from_date to_date city_id is_online tags cat)
      from_date to_date city_id is_online tags cat offset events s) as C.
    cbv zeta in C.
    destruct C as [[e E]|(x & l1 & s2 & Hx & Hreq & Hl1 & Hw & C)].
    { rewrite E. exists [], O. cbn [fst snd]. rewrite app_nil_r.
      split; [reflexivity|]. split; [constructor|]. split; [reflexivity|].
      split; [constructor|]. split; [reflexivity|]. split; [lia|].
      intros off' evs E'. discriminate E'. }
    set (p := Build_events_request_params _ _ _ _ _ _ _) in Hreq.
    assert (Hp : list_params (ListRequest p :: l1) = [p]).
    { change (ListRequest p :: l1) with ([ListRequest p] ++ l1).
      rewrite list_params_app, Hl1. reflexivity. }
    assert (Hc : carries from_date to_date city_id is_online [cat] p).
    { repeat (split; [reflexivity|]). exists cat.
      split; [apply list_elem_of_singleton; reflexivity|].
      apply super_tag_of_inr, Hx. }
    destruct C as [[e E]|[[ev' E]|[ev' E]]].
    + rewrite E. exists (ListRequest p :: l1), 1%nat. cbn [fst snd].
      split; [exact Hreq|]. rewrite Hp.
      split; [constructor; [exact Hc|constructor]|].
      split; [rewrite arith_S, arith_0; reflexivity|].
      split; [rewrite arith_S, arith_0; constructor; [exact G|constructor]|].
      split; [exact Hw|]. split; [lia|].
      intros off' evs E'. discriminate E'.
    + rewrite E. exists (ListRequest p :: l1), 1%nat. cbn [fst snd].
      split; [exact Hreq|]. rewrite Hp.
      split; [constructor; [exact Hc|constructor]|].
      split; [rewrite arith_S, arith_0; reflexivity|].
      split; [rewrite arith_S, arith_0; constructor; [exact G|constructor]|].
      split; [exact Hw|]. split; [lia|].
      intros off' evs E'. injection E' as <- _.
      split; [lia|].
      split; [rewrite arith_S, arith_0; constructor; [lia|constructor]|lia].
    + rewrite E.
      destruct (IH (offset + (limit - 1)) ev' s2 (fuel_for_next _ _ G Hf))
        as (l2 & k2 & R2 & C2 & O2 & B2 & W2 & K2 & F2).
      exists ((ListRequest p :: l1) ++ l2), (S k2).
      split; [rewrite R2, Hreq, <- app_assoc; reflexivity|].
      rewrite list_params_app, Hp. cbn [app map].
      split; [constructor; [exact Hc|exact C2]|].
      split; [rewrite arith_S, O2; reflexivity|].
      split; [rewrite arith_S; constructor; [exact G|exact B2]|].
      split; [rewrite W2; exact Hw|]. split; [lia|].
      intros off' evs E'. destruct (F2 off' evs E') as (A1 & A2 & A3).
      unfold limit in A1.
      split; [lia|].
      split; [rewrite arith_S; constructor; [lia|exact A2]|lia].
  - exists [], O. cbn [ret fst snd]. rewrite app_nil_r.
    split; [reflexivity|]. split; [constructor|]. split; [reflexivity|].
    split; [constructor|]. split; [reflexivity|]. split; [lia|].
    intros off' evs E. injection E as <- _.
    split; [lia|]. split; [constructor|lia].
Qed.

Lemma carries_mono from_date to_date city_id is_online (cats cats' : list pystr) p :
  (forall c, c ∈ cats -> c ∈ cats') ->
  carries from_date to_date city_id is_online cats p ->
  carries from_date to_date city_id is_online cats' p.
Proof.
  intros Hsub (A1 & A2 & A3 & A4 & A5 & cat & Hin & Hx).
  repeat (split; [assumption|]). exists cat. split; [apply Hsub, Hin|exact Hx].
Qed.

Lemma for_categories_requests (cats : list pystr) from_date to_date city_id
    is_online tags :
  forall offset events (s : state),
    let r := for_categories cats from_date to_date city_id is_online tags
               offset events s in
    exists l,
      requests r.2 = requests s ++ l
      /\ Forall (carries from_date to_date city_id is_online (known cats))
           (list_params l)
      /\ StronglySorted Z.le (map p_offset (list_params l))
      /\ Forall (fun o => offset <= o <= 100) (map p_offset (list_params l))
      /\ (length (list_params l) <= length (known cats) + remaining offset)%nat.
Proof.
  induction cats as [|cat rest IH]; intros offset events s; cbv zeta.
  - exists []. cbn. rewrite app_nil_r. split; [reflexivity|].
    split; [constructor|]. split; [constructor|]. split; [constructor|lia].
  - unfold known. rewrite filter_cons. cbn [for_categories].
    destruct (bool_decide_reflect (cat ∈ AVAILABLE_CATEGORIES ++ [[]])) as [Hk|Hk].
    + rewrite decide_True by exact Hk. fold (known rest).
      unfold bind.
      destruct (page_loop_requests (fuel_for offset) from_date to_date city_id
                  is_online tags cat offset events s (le_n _))
        as (l1 & k & R1 & C1 & O1 & B1 & W1 & K1 & F1).
      cbv zeta in R1, F1, W1.
      destruct (page_loop _ _ _ _ _ _ _ _ _ s) as [[[off' evs]|e|] s1];
        cbn [fst snd] in *.
      * destruct (F1 off' evs eq_refl) as (A1 & A2 & A3).
        destruct (IH off' evs s1) as (l2 & R2 & C2 & S2 & B2 & N2).
        exists (l1 ++ l2). split; [rewrite R2, R1, <- app_assoc; reflexivity|].
        rewrite list_params_app, map_app, O1.
        split.
        { apply Forall_app. split.
          - eapply Forall_impl; [exact C1|]. intros p. apply carries_mono.
            intros c Hc. apply list_elem_of_singleton in Hc as ->. left.
          - eapply Forall_impl; [exact C2|]. intros p. apply carries_mono.
            intros c Hc. right. exact Hc. }
        split.
        { apply StronglySorted_app_2; [|apply arith_sorted|exact S2].
          intros x1 x2 H1 H2. rewrite Forall_forall in A2, B2.
          specialize (A2 x1 H1). specialize (B2 x2 H2). lia. }
        split.
        { apply Forall_app. split.
          - pose proof (arith_ge k offset) as Hge.
            rewrite Forall_forall in Hge, B1. apply Forall_forall.
            intros o Ho. specialize (Hge o Ho). specialize (B1 o Ho). lia.
          - eapply Forall_impl; [exact B2|]. cbn beta. intros o Ho. lia. }
        rewrite length_app. cbn [length].
        assert (Hk1 : length (list_params l1) = k).
        { rewrite <- (length_map p_offset), O1. unfold arith.
          rewrite length_map, length_seq. reflexivity. }
        lia.
      * exists l1. split; [exact R1|]. rewrite O1.
        split.
        { eapply Forall_impl; [exact C1|]. intros p. apply carries_mono.
          intros c Hc. apply list_elem_of_singleton in Hc as ->. left. }
        split; [apply arith_sorted|].
        split.
        { pose proof (arith_ge k offset) as Hge.
          rewrite Forall_forall in Hge, B1. apply Forall_forall.
          intros o Ho. specialize (Hge o Ho). specialize (B1 o Ho). lia. }
        assert (Hk1 : length (list_params l1) = k).
        { rewrite <- (length_map p_offset), O1. unfold arith.
          rewrite length_map, length_seq. reflexivity. }
        cbn [length]. lia.
      * exists l1. split; [exact R1|]. rewrite O1.
        split.
        { eapply Forall_impl; [exact C1|]. intros p. apply carries_mono.
          intros c Hc. apply list_elem_of_singleton in Hc as ->. left. }
        split; [apply arith_sorted|].
        split.
        { pose proof (arith_ge k offset) as Hge.
          rewrite Forall_forall in Hge, B1. apply Forall_forall.
          intros o Ho. specialize (Hge o Ho). specialize (B1 o Ho). lia. }
        assert (Hk1 : length (list_params l1) = k).
        { rewrite <- (length_map p_offset), O1. unfold arith.
          rewrite length_map, length_seq. reflexivity. }
        cbn [length]. lia.
    + rewrite decide_False by exact Hk. fold (known rest).
      rewrite bind_modify.
      destruct (IH offset events (warn cat s)) as (l2 & R2 & C2 & S2 & B2 & N2).
      exists l2. split; [exact R2|]. split; [exact C2|]. split; [exact S2|].
      split; assumption.
Qed.

(** X8: every request [get_events] sends to the list endpoint carries the
    parameters of the call: the dates of [date_range], the resolved city
    (1 without [city]), [limit] 21, the truth value of [online] (false
    without it) and the [superTagId] of one of the requested categories
    that the loop accepts (none for the empty name). *)
Theorem list_requests_carry_parameters (request_params : gmap string pval)
    (city_id : Z) (range : Z * Z) (cats : list pystr) tags (s : state) :
  match request_params !! "city" with
  | Some c => cities_to_id c
  | None => inr 1
  end = inr city_id ->
  date_range (today (net s)) request_params = inr range ->
  match request_params !! "category" with
  | Some v => iterate v
  | None => inr [[]]
  end = inr cats ->
  exists l,
    requests (get_events (Some request_params) tags s).2 = requests s ++ l
    /\ Forall (carries range.1 range.2 city_id
                 match request_params !! "online" with
                 | Some v => ptruthy v
                 | None => false
                 end (known cats))
         (list_params l).
Proof.
  intros Hcity Hrange Hcats. rewrite get_events_unfold.
  unfold default. cbn [from_option]. unfold Datatypes.id.
  rewrite Hcity, Hrange, Hcats.
  destruct (for_categories_requests cats range.1 range.2 city_id
              match request_params !! "online" with
              | Some v => ptruthy v
              | None => false
              end tags 0 [] s) as (l & R & C & _).
  exists l. split; assumption.
Qed.

(** X9: [offset] is set to 0 once, before the loop over the categories
    (line 98), and only grows: over a whole call the offsets of the list
    requests never decrease and lie between 0 and 100, and at most six
    requests more than there are accepted categories are sent. *)
Theorem offsets_never_decrease request_params tags (s : state) :
  exists l,
    requests (get_events request_params tags s).2 = requests s ++ l
    /\ StronglySorted Z.le (list_offsets l)
    /\ Forall (fun o => 0 <= o <= 100) (list_offsets l)
    /\ (forall cats,
          match default ∅ request_params !! "category" with
          | Some v => iterate v
          | None => inr [[]]
          end = inr cats ->
          (length (list_offsets l) <= length (known cats) + 6)%nat).
Proof.
  rewrite get_events_unfold.
  assert (Hnil : forall s0 : state, exists l : list request,
            requests s0 = requests s0 ++ l
            /\ StronglySorted Z.le (list_offsets l)
            /\ Forall (fun o => 0 <= o <= 100) (list_offsets l)
            /\ (forall cats,
                  match default ∅ request_params !! "category" with
                  | Some v => iterate v
                  | None => inr [[]]
                  end = inr cats ->
                  (length (list_offsets l) <= length (known cats) + 6)%nat)).
  { intros s0. exists []. rewrite app_nil_r. split; [reflexivity|].
    split; [constructor|]. split; [constructor|]. intros cats _. cbn. lia. }
  destruct (match default ∅ request_params !! "city" with
            | Some c => cities_to_id c
            | None => inr 1
            end) as [e|city_id]; [apply Hnil|].
  destruct (date_range _ _) as [e'|range]; [apply Hnil|].
  destruct (match default ∅ request_params !! "category" with
            | Some v => iterate v
            | None => inr [[]]
            end) as [e|cats] eqn:Hcats; [apply Hnil|].
  destruct (for_categories_requests cats range.1 range.2 city_id
              match default ∅ request_params !! "online" with
              | Some v => ptruthy v
              | None => false
              end tags 0 [] s) as (l & R & _ & S2 & B & N).
  exists l. rewrite list_offsets_params. split; [exact R|].
  split; [exact S2|]. split; [exact B|].
  intros cats' E. injection E as <-. rewrite length_map.
  change (remaining 0) with 6%nat in N. exact N.
Qed.

(** ** Fields, tags and the [days] parameter *)

Lemma str_int_chars (n : Z) :
  Forall (fun c => c = 45%N \/ (48 <= c <= 57)%N) (str_int n).
Proof.
  unfold str_int.
  assert (Hu : forall d, Forall (fun c => c = 45%N \/ (48 <= c <= 57)%N)
                           (u (NilEmpty.string_of_uint d))).
  { induction d; cbn [NilEmpty.string_of_uint]; [constructor|..];
      rewrite u_cons by reflexivity;
      (constructor; [right; cbn; lia|exact IHd]). }
  destruct (Z.to_int n) as [d|d]; cbn [NilEmpty.string_of_int].
  - apply Hu.
  - rewrite u_cons by reflexivity. constructor; [left; reflexivity|apply Hu].
Qed.

Lemma str_int_lacks (c : N) (n : Z) :
  c <> 45%N -> ~ (48 <= c <= 57)%N -> c ∉ str_int n.
Proof.
  intros H1 H2 Hin. pose proof (str_int_chars n) as F.
  rewrite Forall_forall in F. destruct (F c Hin); [congruence|tauto].
Qed.

Lemma replace_go_skip (old new pre : pystr) : forall s,
  replace_go old new (length pre) (pre ++ s) = replace_go old new O s.
Proof.
  induction pre as [|c pre IH]; intros s; [reflexivity|].
  cbn [length app]. destruct s as [|x t].
  - rewrite app_nil_r. cbn [replace_go]. specialize (IH []).
    rewrite app_nil_r in IH. exact IH.
  - cbn [replace_go]. apply IH.
Qed.

Lemma starts_with_app (p s : pystr) : starts_with p (p ++ s) = true.
Proof.
  induction p as [|c p IH]; [reflexivity|].
  cbn [app starts_with]. rewrite N.eqb_refl. exact IH.
Qed.

Lemma replace_go_absent (c : N) (old new s : pystr) :
  c ∉ s -> replace_go (c :: old) new O s = s.
Proof.
  induction s as [|x t IH]; intros Hn; [reflexivity|].
  apply not_elem_of_cons in Hn as [Hx Ht].
  cbn [replace_go starts_with].
  destruct (N.eqb_spec c x) as [E|_]; [congruence|]. cbn [andb].
  rewrite (IH Ht). reflexivity.
Qed.

Lemma py_replace_prefix (c : N) (old s : pystr) :
  c ∉ s -> py_replace (c :: old) [] ((c :: old) ++ s) = s.
Proof.
  intros Hn. unfold py_replace.
  pose proof (starts_with_app (c :: old) s) as Hs.
  cbn [app] in Hs |- *. cbn [replace_go]. rewrite Hs. cbn [app].
  replace (length (c :: old) - 1)%nat with (length old) by (cbn [length]; lia).
  rewrite replace_go_skip. apply replace_go_absent, Hn.
Qed.

Lemma strip_prefix (s : pystr) :
  82%N ∉ s -> py_replace parser_prefix [] (parser_prefix ++ s) = s.
Proof.
  change parser_prefix with (82%N :: [65; 68; 65; 82; 73; 79; 45]%N).
  apply py_replace_prefix.
Qed.

(** X10: for a record with an integer id the URL is [BASE_URL] followed
    by the numeral of the id, its last segment is that numeral, and
    [get_event] given only this URL does what [get_event] given the id
    does. *)
Theorem url_round_trip (event_json_data : raw) (n : Z) tags (s : state) :
  event_json_data !! "id" = Some (JInt n) ->
  _url event_json_data s = (Ok (FVal (JStr (BASE_URL ++ str_int n))), s)
  /\ last_segment (BASE_URL ++ str_int n) = str_int n
  /\ get_event JNull (Some (BASE_URL ++ str_int n)) tags s
     = get_event (JInt n) None tags s.
Proof.
  intros Hid.
  assert (Hl : last_segment (BASE_URL ++ str_int n) = str_int n).
  { change BASE_URL with (u "https://radario.ru/events" ++ u "/").
    rewrite <- app_assoc. apply last_segment_after_slash.
    apply str_int_lacks; [discriminate|lia]. }
  split; [|split; [exact Hl|]].
  - unfold _url, _id_pure, getitem. rewrite Hid. cbn [bind_sum lift py_str].
    unfold bind, ret. rewrite strip_prefix; [reflexivity|].
    apply str_int_lacks; [discriminate|lia].
  - unfold get_event. rewrite Hl. reflexivity.
Qed.

Lemma lstrip_split (s : pystr) :
  exists sp, s = sp ++ lstrip s /\ Forall (fun c => is_space c = true) sp.
Proof.
  induction s as [|c t [sp [E F]]].
  - exists []. split; [reflexivity|constructor].
  - cbn [lstrip]. destruct (is_space c) eqn:Hc.
    + exists (c :: sp). split; [cbn [app]; f_equal; exact E|].
      constructor; assumption.
    + exists []. split; [reflexivity|constructor].
Qed.

Lemma lstrip_head (s : pystr) :
  match lstrip s with
  | [] => True
  | c :: _ => is_space c = false
  end.
Proof.
  induction s as [|c t IH]; [exact I|].
  cbn [lstrip]. destruct (is_space c) eqn:Hc; [exact IH|exact Hc].
Qed.

Lemma lstrip_fixed (c : N) (t : pystr) :
  is_space c = false -> lstrip (c :: t) = c :: t.
Proof. intros Hc. cbn [lstrip]. rewrite Hc. reflexivity. Qed.

Lemma py_strip_trimmed (s : pystr) : trimmed (py_strip s).
Proof.
  unfold py_strip.
  pose proof (lstrip_head s) as Hh.
  destruct (lstrip_split (rev (lstrip s))) as [sp [E F]].
  pose proof (lstrip_head (rev (lstrip s))) as Hr.
  destruct (lstrip (rev (lstrip s))) as [|z r] eqn:Er; [exact I|].
  assert (Et : lstrip s = rev r ++ [z] ++ rev sp).
  { rewrite <- (rev_involutive (lstrip s)), E, rev_app_distr. cbn [rev].
    rewrite <- app_assoc. reflexivity. }
  cbn [rev]. unfold trimmed.
  destruct (rev r ++ [z]) as [|c q] eqn:Eq.
  { destruct (rev r); discriminate Eq. }
  split.
  - rewrite app_assoc, Eq in Et. rewrite Et in Hh. exact Hh.
  - rewrite <- Eq. rewrite last_last. exact Hr.
Qed.

Lemma py_strip_fixed (s : pystr) : trimmed s -> py_strip s = s.
Proof.
  unfold trimmed, py_strip. destruct s as [|c t]; [reflexivity|].
  intros [Hc Hl]. rewrite (lstrip_fixed c t Hc).
  destruct (exists_last (l := c :: t)) as [q [z E]]; [discriminate|].
  rewrite E in Hl |- *. rewrite last_last in Hl.
  rewrite rev_app_distr. cbn [rev app].
  rewrite (lstrip_fixed z (rev q) Hl). cbn [rev].
  rewrite rev_involutive. reflexivity.
Qed.

(** X11: the category and the place name are returned stripped: the
    result neither begins nor ends with white space, and a value that is
    already so is returned unchanged. *)
Theorem stripped_fields (t : tag) (key : string) (event_json_data : raw)
    (v : pystr) (s : state) :
  (t = category /\ key = "superTagName") \/ (t = place_name /\ key = "placeTitle") ->
  event_json_data !! key = Some (JStr v) ->
  field t event_json_data s = (Ok (FVal (JStr (py_strip v))), s)
  /\ trimmed (py_strip v)
  /\ (trimmed v -> py_strip v = v).
Proof.
  intros Ht Hk. split; [|split; [apply py_strip_trimmed|apply py_strip_fixed]].
  destruct Ht as [[-> ->]|[-> ->]]; cbn [field];
    [unfold _category|unfold _place_name]; unfold getitem; rewrite Hk; reflexivity.
Qed.

(** X12: every field function but [_date_from_to] raises [KeyError] with
    the name of the key when the key it reads first is absent, and changes
    no state. *)
Theorem missing_key_raises (t : tag) (key : string) (event_json_data : raw)
    (s : state) :
  required_key t = Some key ->
  event_json_data !! key = None ->
  field t event_json_data s = (Raise (KeyError (u key)), s).
Proof.
  intros Hr Hk.
  destruct t; cbn [required_key] in Hr; try discriminate Hr;
    injection Hr as <-; cbn [field];
    unfold _adress, _category, _date_from, _date_to, _id, _place_name,
      _full_text, _post_text, _poster_imag, _price, _title, _url,
      _is_registration_open;
    unfold _adress_pure, _id_pure, _full_text_pure, _price_pure, getitem;
    rewrite Hk; reflexivity.
Qed.

Lemma process_page_tags tags1 tags2 (page : list raw) :
  tags_or_all tags1 = tags_or_all tags2 ->
  forall events (s : state),
    process_page tags1 events page s = process_page tags2 events page s.
Proof.
  intros Ht. induction page as [|e rest IH]; intros events s; [reflexivity|].
  cbn [process_page]. unfold process_event. rewrite Ht.
  apply bind_ext. intros ev s'. apply IH.
Qed.

Lemma page_loop_tags tags1 tags2 (fuel : nat) from_date to_date city_id
    is_online cat :
  tags_or_all tags1 = tags_or_all tags2 ->
  forall offset events (s : state),
    page_loop fuel from_date to_date city_id is_online tags1 cat offset events s
    = page_loop fuel from_date to_date city_id is_online tags2 cat offset events s.
Proof.
  intros Ht. induction fuel as [|f IH]; intros offset events s;
    cbn [page_loop]; (destruct (100 >=? offset); [|reflexivity]); [reflexivity|].
  unfold page_iter.
  apply bind_ext; intros x s1. apply bind_ext; intros r s2.
  apply bind_ext; intros l s3. unfold bind.
  rewrite (process_page_tags tags1 tags2 l Ht).
  destruct (process_page tags2 events l s3) as [[ev|e|] s4]; try reflexivity.
  destruct (_ <? _); [reflexivity|apply IH].
Qed.

Lemma for_categories_tags tags1 tags2 (cats : list pystr) from_date to_date
    city_id is_online :
  tags_or_all tags1 = tags_or_all tags2 ->
  forall offset events (s : state),
    for_categories cats from_date to_date city_id is_online tags1 offset events s
    = for_categories cats from_date to_date city_id is_online tags2 offset
        events s.
Proof.
  intros Ht. induction cats as [|cat rest IH]; intros offset events s;
    [reflexivity|].
  cbn [for_categories]. destruct (bool_decide _).
  - unfold bind. rewrite (page_loop_tags tags1 tags2 _ _ _ _ _ _ Ht).
    destruct (page_loop _ _ _ _ _ tags2 _ _ _ s) as [[r|e|] s1]; try reflexivity.
    apply IH.
  - apply bind_ext. intros _ s'. apply IH.
Qed.

(** ** The city in an address *)

Lemma starts_with_inv (p : pystr) : forall s,
  starts_with p s = true -> exists rest, s = p ++ rest.
Proof.
  induction p as [|c p IH]; intros s Hs; [exists s; reflexivity|].
  destruct s as [|x t]; [discriminate Hs|].
  cbn [starts_with] in Hs. apply andb_true_iff in Hs as [Hc Hp].
  apply N.eqb_eq in Hc as ->. destruct (IH t Hp) as [rest ->].
  exists rest. reflexivity.
Qed.

(** [str.find]: [-1] when [sub] does not occur, the length of the text
    before its first occurrence otherwise. *)
Lemma py_find_cases (sub : pystr) : forall s,
  (py_find sub s = -1 /\ forall pre post, s <> pre ++ sub ++ post)
  \/ exists pre post,
       s = pre ++ sub ++ post
       /\ py_find sub s = Z.of_nat (length pre)
       /\ forall pre' post', s = pre' ++ sub ++ post' ->
                             (length pre <= length pre')%nat.
Proof.
  induction s as [|c t IH].
  - cbn [py_find]. destruct (starts_with sub []) eqn:Hs.
    + right. apply starts_with_inv in Hs as [rest E].
      exists [], rest. split; [exact E|]. split; [reflexivity|].
      intros pre' post' _. cbn. lia.
    + left. split; [reflexivity|]. intros pre post E.
      symmetry in E. apply app_eq_nil in E as [-> E].
      apply app_eq_nil in E as [-> ->]. discriminate Hs.
  - cbn [py_find]. destruct (starts_with sub (c :: t)) eqn:Hs.
    + right. apply starts_with_inv in Hs as [rest E].
      exists [], rest. split; [exact E|]. split; [reflexivity|].
      intros pre' post' _. cbn. lia.
    + assert (Hpre : forall pre post, c :: t = pre ++ sub ++ post ->
                exists pre', pre = c :: pre' /\ t = pre' ++ sub ++ post).
      { intros [|x pre'] post E.
        - cbn [app] in E. rewrite E, starts_with_app in Hs. discriminate Hs.
        - cbn [app] in E. injection E as -> E. exists pre'. split; [reflexivity|exact E]. }
      destruct IH as [[E N]|(pre & post & E & F & M)].
      * left. rewrite E. cbn. split; [reflexivity|].
        intros pre post X. destruct (Hpre pre post X) as [pre' [-> X']].
        exact (N pre' post X').
      * right. exists (c :: pre), post. split; [rewrite E; reflexivity|].
        split.
        { rewrite F. destruct (Z.ltb_spec (Z.of_nat (length pre)) 0); [lia|].
          cbn [length]. lia. }
        intros pre' post' X. destruct (Hpre pre' post' X) as [p' [-> X']].
        cbn [length]. specialize (M p' post' X'). lia.
Qed.

(** X15: an address that is not online, for the city of the record (Saint
    Petersburg when [cityName] is null): when [", <city>"] occurs in the
    cleaned address, the result is the text before its first occurrence,
    whatever follows the city; when neither [", <city>"] nor
    ["<city>, "] occurs, the cleaned address is returned as it is; and
    when only ["<city>, "] occurs, every occurrence of it is removed. *)
Theorem adress_city_cases (event_json_data : raw) (a : pystr) (c : jval)
    (s : state) :
  event_json_data !! "placeAddress" = Some (JStr a) ->
  py_in (u "онлайн") (lower (cleaned_address a)) = false ->
  event_json_data !! "cityName" = Some c ->
  let city_name :=
    match c with JNull => u "Санкт-Петербург" | _ => py_str c end in
  (forall street rest,
      cleaned_address a = street ++ (u ", " ++ city_name) ++ rest ->
      (forall street' rest',
          cleaned_address a = street' ++ (u ", " ++ city_name) ++ rest' ->
          (length street <= length street')%nat) ->
      _adress event_json_data s = (Ok (FVal (JStr street)), s))
  /\ ((forall pre post, cleaned_address a <> pre ++ (u ", " ++ city_name) ++ post) ->
      (forall pre post, cleaned_address a <> pre ++ (city_name ++ u ", ") ++ post) ->
      _adress event_json_data s = (Ok (FVal (JStr (cleaned_address a))), s))
  /\ ((forall pre post, cleaned_address a <> pre ++ (u ", " ++ city_name) ++ post) ->
      (exists pre post, cleaned_address a = pre ++ (city_name ++ u ", ") ++ post) ->
      _adress event_json_data s
      = (Ok (FVal (JStr (py_replace (city_name ++ u ", ") [] (cleaned_address a)))),
         s)).
Proof.
  unfold cleaned_address. intros Ha Hon Hc. cbv zeta.
  unfold _adress, _adress_pure, getitem. rewrite Ha. cbn [bind_sum as_str].
  cbv zeta. rewrite Hon, Hc. cbn [bind_sum].
  set (full := remove_zip_code _) in *.
  set (city_name := match c with JNull => u "Санкт-Петербург" | _ => py_str c end).
  split; [|split].
  - intros street rest E Hmin.
    destruct (py_find_cases (u ", " ++ city_name) full)
      as [[_ N]|(pre & post & E' & F & M)]; [destruct (N _ _ E)|].
    assert (El : length pre = length street).
    { apply Nat.le_antisymm; [exact (M _ _ E)|exact (Hmin _ _ E')]. }
    assert (pre = street) as ->.
    { rewrite E' in E. apply app_inj_1 in E as [E _]; assumption. }
    rewrite F.
    replace (Z.of_nat (length street) =? -1) with false
      by (symmetry; apply Z.eqb_neq; lia).
    cbn [negb]. unfold py_slice_to.
    replace (Z.of_nat (length street) <? 0) with false
      by (symmetry; apply Z.ltb_ge; lia).
    rewrite Nat2Z.id. rewrite E' at 1. rewrite take_app_length. reflexivity.
  - intros N1 N2.
    destruct (py_find_cases (u ", " ++ city_name) full)
      as [[F1 _]|(pre & post & E' & _)]; [|destruct (N1 _ _ E')].
    destruct (py_find_cases (city_name ++ u ", ") full)
      as [[F2 _]|(pre & post & E' & _)]; [|destruct (N2 _ _ E')].
    rewrite F1, F2. reflexivity.
  - intros N1 (pre & post & E2).
    destruct (py_find_cases (u ", " ++ city_name) full)
      as [[F1 _]|(pre' & post' & E' & _)]; [|destruct (N1 _ _ E')].
    destruct (py_find_cases (city_name ++ u ", ") full)
      as [[_ N2]|(pre' & post' & _ & F2 & _)]; [destruct (N2 _ _ E2)|].
    rewrite F1, F2. cbn [Z.eqb negb].
    replace (Z.of_nat (length pre') =? -1) with false
      by (symmetry; apply Z.eqb_neq; lia).
    reflexivity.
Qed.

(** ** [get_event] and the dates *)

Lemma parse_same_logs (e : raw) (tags : list tag) : steps same_logs (parse e tags).
Proof.
  apply steps_parse.
  - intros s. repeat split.
  - intros s1 s2 s3 (A1 & A2 & A3) (B1 & B2 & B3).
    repeat split; etransitivity; eassumption.
  - intros d s. repeat split.
  - intros d s. repeat split.
Qed.

(** X17: after [_date_from] and [_date_to] have mapped a record whose dates
    parse, [_date_from_to], called with any record, returns the two dates
    of that record joined by ["-#"]; the three calls leave the two dates
    stashed on the instance and change nothing else. *)
Theorem date_fields_compose (event_json_data event_json_data' : raw)
    (t1 t2 : pystr) (d1 d2 : datetime) (s : state) :
  event_json_data !! "beginDate" = Some (JStr t1) ->
  event_json_data !! "endDate" = Some (JStr t2) ->
  strptime_astimezone t1 = Some d1 ->
  strptime_astimezone t2 = Some d2 ->
  (v1 <- _date_from event_json_data;;
   v2 <- _date_to event_json_data;;
   v3 <- _date_from_to event_json_data';;
   ret (v1, v2, v3)) s
  = (Ok (FDate d1, FDate d2,
         FVal (JStr (str_datetime d1 ++ u "-#" ++ str_datetime d2))),
     set_date_to_ d2 (set_date_from_ d1 s)).
Proof.
  intros H1 H2 P1 P2.
  unfold _date_from, _date_to, _date_from_to, getitem.
  rewrite H1, H2. unfold bind, lift, ret, raise, gets, modify.
  cbv beta iota. cbn [parse_date]. rewrite P1. cbv beta iota.
  cbn [_date_from_ _date_to_ set_date_from_ set_date_to_]. cbv beta iota.
  rewrite P2. reflexivity.
Qed.

(** X18: the address, the category, the place name and the title call a
    method of [str] on the raw value: when the key is there but its value
    is not a string (null, for one), the mapping raises [AttributeError]
    and changes no state. *)
Theorem non_string_raises (t : tag) (key : string) (event_json_data : raw)
    (v : jval) (s : state) :
  t = adress \/ t = category \/ t = place_name \/ t = title ->
  required_key t = Some key ->
  event_json_data !! key = Some v ->
  (forall text, v <> JStr text) ->
  field t event_json_data s = (Raise AttributeError, s).
Proof.
  intros Ht Hr Hk Hv.
  assert (Ev : as_str v = inl AttributeError).
  { destruct v as [| | | |text]; try reflexivity. destruct (Hv text eq_refl). }
  destruct Ht as [->|[->|[->| ->]]]; cbn [required_key] in Hr;
    injection Hr as <-; cbn [field];
    unfold _adress, _category, _place_name, _title;
    unfold _adress_pure, getitem; rewrite Hk; cbn [bind_sum lift];
    unfold bind; cbn [lift ret]; rewrite Ev; reflexivity.
Qed.

(** ** What [get_event] reads, tags and the [days] parameter *)

Lemma rv_ret {A} (a : A) : reads_view (ret a).
Proof. intros s s' E. split; [reflexivity|exact E]. Qed.

Lemma rv_raise {A} (e : exn) : reads_view (@raise _ _ A e).
Proof. intros s s' E. split; [reflexivity|exact E]. Qed.

Lemma rv_lift {A} (r : exn + A) : reads_view (lift r).
Proof. destruct r; [apply rv_raise|apply rv_ret]. Qed.

Lemma rv_bind {A B} (m : M A) (k : A -> M B) :
  reads_view m -> (forall a, reads_view (k a)) -> reads_view (x <- m;; k x).
Proof.
  intros Hm Hk s s' E. unfold bind.
  destruct (Hm s s' E) as [E1 E2].
  destruct (m s) as [o1 t1], (m s') as [o2 t2]. cbn [fst snd] in *. subst o2.
  destruct o1 as [a|e|]; [apply Hk, E2|split; [reflexivity|exact E2]..].
Qed.

Lemma rv_field (t : tag) (e : raw) : reads_view (field t e).
Proof.
  destruct t; cbn [field];
    unfold _adress, _category, _date_from, _date_to, _date_from_to, _id,
      _place_name, _full_text, _post_text, _poster_imag, _price, _title,
      _url, _is_registration_open;
    repeat match goal with
      | |- reads_view (match ?x with _ => _ end) => destruct x
      | |- reads_view (bind _ _) => apply rv_bind; [|intros ?]
      | |- reads_view (ret _) => apply rv_ret
      | |- reads_view (raise _) => apply rv_raise
      | |- reads_view (lift _) => apply rv_lift
      | |- reads_view (gets _) =>
          intros s s' E; unfold gets; cbn [fst snd];
          destruct E as (E1 & E2 & E3); rewrite ?E1, ?E2;
          (split; [reflexivity|repeat split; assumption])
      | |- reads_view (modify _) =>
          intros s s' E; unfold modify; cbn [fst snd];
          destruct E as (E1 & E2 & E3);
          (split; [reflexivity|repeat split; assumption || reflexivity])
      end.
Qed.

Lemma rv_parse (e : raw) (tags : list tag) : reads_view (parse e tags).
Proof.
  induction tags as [|t ts IH]; cbn [parse]; [apply rv_ret|].
  apply rv_bind; [apply rv_field|intros v].
  apply rv_bind; [apply IH|intros ev]. apply rv_ret.
Qed.

Lemma rv_request_get_event (a : pystr) : reads_view (_request_get_event a).
Proof.
  intros s s' (E1 & E2 & E3). unfold _request_get_event. rewrite E3.
  destruct (request_get_event (net s') a) as [r w]. cbn [fst snd].
  split; [reflexivity|]. repeat split; assumption.
Qed.

Lemma rv_get_event (event_id : jval) (event_url : option pystr)
    (tags : option (list tag)) :
  reads_view (get_event event_id event_url tags).
Proof.
  unfold get_event. apply rv_bind.
  - destruct event_id; try apply rv_ret.
    destruct event_url; [apply rv_ret|apply rv_raise].
  - intros i. apply rv_bind; [apply rv_request_get_event|intros r].
    destruct (negb _); [apply rv_raise|].
    apply rv_bind; [apply rv_lift|intros e]. apply rv_parse.
Qed.

(** X16: [get_event] neither reads nor changes the request log, the
    warnings and the list of seen ids, but for the one request it logs:
    its outcome and the dates it stashes are the same from any two states
    with the same stashed dates and network, and the warnings and the
    list of seen ids are left as they were. Without id and URL it fails
    the precondition at once; with only a URL it sends exactly one
    request, for the last segment of the URL; with an id exactly one, for
    that id. *)
Theorem get_event_frame (event_id : jval) (event_url : option pystr) tags
    (s : state) :
  let r := get_event event_id event_url tags s in
  (forall s' : state,
      same_view s s' ->
      (get_event event_id event_url tags s').1 = r.1
      /\ same_view r.2 (get_event event_id event_url tags s').2)
  /\ warnings r.2 = warnings s
  /\ existed_event_ids r.2 = existed_event_ids s
  /\ match event_id, event_url with
     | JNull, None =>
         r = (Raise (ValueError (u "'event_id' or 'event_url' required.")), s)
     | JNull, Some event_url' =>
         requests r.2
         = requests s
           ++ [EventRequest (BASE_EVENTS_API ++ u "/" ++ last_segment event_url')]
     | _, _ =>
         requests r.2
         = requests s
           ++ [EventRequest (BASE_EVENTS_API ++ u "/" ++ py_str event_id)]
     end.
Proof.
  intros r. split.
  { intros s' E. destruct (rv_get_event event_id event_url tags s s' E) as [E1 E2].
    split; [symmetry; exact E1|exact E2]. }
  subst r. unfold get_event.
  assert (Hgo : forall i,
    let r := (response <- _request_get_event (BASE_EVENTS_API ++ u "/" ++ py_str i);;
              if negb (status_code response =? 200)
              then raise (fetch_failed response)
              else event_json_data <- lift (json response);;
                   parse event_json_data (tags_or_all tags)) s in
    warnings r.2 = warnings s /\ existed_event_ids r.2 = existed_event_ids s
    /\ requests r.2
       = requests s ++ [EventRequest (BASE_EVENTS_API ++ u "/" ++ py_str i)]).
  { intros i r. remember r as r' eqn:Er. subst r.
    unfold bind at 1, _request_get_event in Er.
    destruct (request_get_event (net s) _) as [response w].
    destruct (negb _); [subst r'; split; [reflexivity|split; reflexivity]|].
    unfold bind at 1, lift at 1 in Er.
    destruct (json response) as [e|ev];
      [subst r'; split; [reflexivity|split; reflexivity]|].
    unfold ret at 1 in Er. cbv beta iota in Er.
    destruct (parse_same_logs ev (tags_or_all tags)
                (sent (EventRequest (BASE_EVENTS_API ++ u "/" ++ py_str i)) w s))
      as (A1 & A2 & A3).
    rewrite <- Er in A1, A2, A3. rewrite A1, A2, A3.
    split; [reflexivity|split; reflexivity]. }
  cbv zeta in Hgo.
  destruct event_id as [| b | n | x | t].
  - destruct event_url as [event_url'|].
    + unfold bind at 1 2 3, ret at 1 2 3. cbv beta iota.
      exact (Hgo (JStr (last_segment event_url'))).
    + split; [reflexivity|]. split; reflexivity.
  - unfold bind at 1 2 3, ret at 1 2 3. cbv beta iota. exact (Hgo (JBool b)).
  - unfold bind at 1 2 3, ret at 1 2 3. cbv beta iota. exact (Hgo (JInt n)).
  - unfold bind at 1 2 3, ret at 1 2 3. cbv beta iota. exact (Hgo (JFloat x)).
  - unfold bind at 1 2 3, ret at 1 2 3. cbv beta iota. exact (Hgo (JStr t)).
Qed.

Lemma tags_or_all_idem tags :
  tags_or_all (Some (tags_or_all tags)) = tags_or_all tags.
Proof.
  unfold tags_or_all. destruct tags as [[|t ts]|]; try reflexivity;
    destruct ALL_EVENT_TAGS; reflexivity.
Qed.

Lemma get_event_fetched (event_id : jval) (event_url : option pystr) tags
    (s : state) (response : detail_response) (w : world) (e : raw) :
  event_id <> JNull ->
  request_get_event (net s) (BASE_EVENTS_API ++ u "/" ++ py_str event_id)
  = (response, w) ->
  status_code response = 200 ->
  json response = inr e ->
  get_event event_id event_url tags s
  = parse e (tags_or_all tags)
      (sent (EventRequest (BASE_EVENTS_API ++ u "/" ++ py_str event_id)) w s).
Proof.
  intros Hn Hr Hs Hj. unfold get_event.
  assert (Ev : (match event_id, event_url with
                | JNull, Some event_url => ret (JStr (last_segment event_url))
                | JNull, None =>
                    raise (ValueError (u "'event_id' or 'event_url' required."))
                | _, _ => ret event_id
                end : M jval) = ret event_id) by (destruct event_id; congruence).
  rewrite Ev. unfold bind at 1, ret at 1. cbv beta iota.
  unfold bind at 1, _request_get_event. rewrite Hr, Hs, Hj. reflexivity.
Qed.

(** X13: an empty list of tags is falsy, so [tags or ALL_EVENT_TAGS]
    selects every tag: [get_events] and [get_event] with [tags = []] do
    what they do with [tags = None], a fetched record is mapped over all
    of [ALL_EVENT_TAGS], by [get_event] and for every new record of a
    page. *)
Theorem empty_tags_select_all request_params (event_id : jval)
    (event_url : option pystr) (s : state) :
  get_events request_params (Some []) s = get_events request_params None s
  /\ get_event event_id event_url (Some []) s
     = get_event event_id event_url None s
  /\ (forall response w e,
        event_id <> JNull ->
        request_get_event (net s) (BASE_EVENTS_API ++ u "/" ++ py_str event_id)
        = (response, w) ->
        status_code response = 200 ->
        json response = inr e ->
        get_event event_id event_url (Some []) s
        = parse e ALL_EVENT_TAGS
            (sent (EventRequest (BASE_EVENTS_API ++ u "/" ++ py_str event_id))
               w s))
  /\ (forall events (event_json : raw) response w e,
        event_json !! "id" = Some event_id ->
        event_id <> JNull ->
        (parser_prefix ++ py_str event_id) ∉ existed_event_ids s ->
        request_get_event (net s) (BASE_EVENTS_API ++ u "/" ++ py_str event_id)
        = (response, w) ->
        status_code response = 200 ->
        json response = inr e ->
        process_event (Some []) events event_json s
        = (new_event <- parse e ALL_EVENT_TAGS;;
           new_id <- lift (event_id_attr new_event);;
           _ <- modify (append_existed new_id);;
           ret (events ++ [new_event]))
            (sent (EventRequest (BASE_EVENTS_API ++ u "/" ++ py_str event_id))
               w s)).
Proof.
  split; [|split; [reflexivity|split]].
  - rewrite !get_events_unfold.
    destruct (match default ∅ request_params !! "city" with
              | Some c => cities_to_id c
              | None => inr 1
              end) as [e|city_id]; [reflexivity|].
    destruct (date_range _ _) as [e'|range]; [reflexivity|].
    destruct (match default ∅ request_params !! "category" with
              | Some v => iterate v
              | None => inr [[]]
              end) as [e|cats]; [reflexivity|].
    apply for_categories_tags. reflexivity.
  - intros response w e Hn Hr Hs Hj.
    rewrite (get_event_fetched _ _ _ _ _ _ _ Hn Hr Hs Hj). reflexivity.
  - intros events ej response w e Hid Hn Hnew Hr Hs Hj.
    unfold process_event. unfold _id_pure, getitem. rewrite Hid.
    cbn [bind_sum lift]. unfold bind at 1, ret at 1. cbv beta iota.
    unfold bind at 1, gets. cbv beta iota.
    rewrite bool_decide_eq_false_2 by exact Hnew.
    unfold bind at 1, ret at 1. cbv beta iota.
    unfold bind at 1.
    rewrite (get_event_fetched _ None _ _ _ _ _ Hn Hr Hs Hj).
    rewrite tags_or_all_idem. reflexivity.
Qed.

(** X14: the [days] parameter goes through [int()]: when that fails the
    call raises before any request, with the request log, the warnings,
    the list of seen ids and the stashed dates as they were; the caller's
    dict has by then lost [online] (line 90), unless the city failed
    first, in which case it is untouched and the error is the city's.
    Otherwise the range runs from tomorrow to that many days after
    tomorrow. *)
Theorem days_parameter (request_params : gmap string pval) (v : pval)
    tags (s : state) :
  request_params !! "days" = Some v ->
  0 <= today (net s) + day_us < datetime_end ->
  (forall e, py_int v = inl e ->
     exists e',
       get_events (Some request_params) tags s = (Raise e', s)
       /\ ((e' = e
            /\ params_left request_params (today (net s))
               = delete "online" request_params)
           \/ (match request_params !! "city" with
               | Some c => cities_to_id c
               | None => inr 1
               end = inl e'
               /\ params_left request_params (today (net s)) = request_params)))
  /\ (forall n, py_int v = inr n ->
        Z.abs n <= 999999999 ->
        0 <= today (net s) + (1 + n) * day_us < datetime_end ->
        date_range (today (net s)) request_params
        = inr (today (net s) + day_us, today (net s) + (1 + n) * day_us)).
Proof.
  intros Hd Hnow.
  assert (Hfrom : add_days (today (net s)) 1 = inr (today (net s) + day_us)).
  { unfold add_days. change (999999999 <? Z.abs 1) with false. cbv iota zeta.
    rewrite Z.mul_1_l.
    replace ((0 <=? today (net s) + day_us)
             && (today (net s) + day_us <? datetime_end)) with true
      by (symmetry; apply andb_true_iff; split;
          [apply Z.leb_le|apply Z.ltb_lt]; lia).
    reflexivity. }
  split.
  - intros e He. rewrite get_events_unfold. unfold params_left.
    unfold default. cbn [from_option]. unfold Datatypes.id.
    destruct (match request_params !! "city" with
              | Some c => cities_to_id c
              | None => inr 1
              end) as [e0|city_id];
      [exists e0; split; [reflexivity|right; split; reflexivity]|].
    unfold date_range. rewrite Hfrom, bind_sum_inr, Hd, He. cbn [bind_sum].
    exists e. split; [reflexivity|left; split; reflexivity].
  - intros n Hn Habs Hto. unfold date_range.
    rewrite Hfrom, bind_sum_inr, Hd, Hn, bind_sum_inr.
    unfold add_days.
    replace (999999999 <? Z.abs n) with false
      by (symmetry; apply Z.ltb_ge; lia).
    cbv zeta.
    replace (today (net s) + day_us + n * day_us)
      with (today (net s) + (1 + n) * day_us) by lia.
    replace ((0 <=? today (net s) + (1 + n) * day_us)
             && (today (net s) + (1 + n) * day_us <? datetime_end)) with true
      by (symmetry; apply andb_true_iff; split;
          [apply Z.leb_le|apply Z.ltb_lt]; lia).
    reflexivity.
Qed.


End Facts.


(** * The statements on the concrete instance *)

Section Closed.
Import Demo Inputs.

Local Notation "x <- m ;; k" := (bind m (fun x => k))
  (at level 100, m at next level, right associativity).

(** ** The string functions on examples *)

Example u_ascii : u "RUB" = [82; 85; 66]%N.
Proof. reflexivity. Qed.

Example u_cyrillic : u "₽Он" = [8381; 1054; 1085]%N.
Proof. reflexivity. Qed.

Example replace_br : py_replace (u "<br/>") (u "n") (u "a<br/>b<br<br/>/>") = u "anb<brn/>".
Proof. reflexivity. Qed.

Example split_dot : py_split (u ".") (u "1234.56") = Some [u "1234"; u "56"].
Proof. reflexivity. Qed.

Example split_url : py_split (u "/") (u "https://radario.ru/events/123")
  = Some [u "https:"; u ""; u "radario.ru"; u "events"; u "123"].
Proof. reflexivity. Qed.

Example strip_ex : py_strip (u "  a b  ") = u "a b".
Proof. reflexivity. Qed.

Example str_int_ex : str_int (-1234) = u "-1234" /\ str_int 0 = u "0".
Proof. split; reflexivity. Qed.

Example find_ex : py_find (u ", X") (u "ab, X, X") = 2 /\ py_find (u "z") (u "ab") = -1.
Proof. split; reflexivity. Qed.

Example float_repr_ex :
  float_repr (FFinite false [1; 2; 3; 4; 5; 6]%N 4) = u "1234.56"
  /\ float_repr (FFinite false [1%N] 17) = u "1e+16"
  /\ float_repr (FFinite true [1; 5]%N (-4)) = u "-1.5e-05"
  /\ float_repr (FFinite false [0%N] 1) = u "0.0"
  /\ float_repr (FFinite false [2; 5]%N 0) = u "0.25"
  /\ float_repr (FFinite false [3%N] 3) = u "300.0".
Proof. repeat split; reflexivity. Qed.

(** ** The claims on examples *)

Lemma id_prefix_stable_witness :
  detail 1 !! "id" = Some (JInt 1)
  /\ _id (detail 1) st0
     = (Ok (FVal (JStr (parser_prefix ++ py_str (JInt 1)))), st0).
Proof.
  assert (E : detail 1 !! "id" = Some (JInt 1)) by (vm_compute; reflexivity).
  split; [exact E|].
  exact (proj1 (id_prefix_stable (detail 1) (JInt 1) st0 E)).
Defined.

(** C8 as stated fails on a record without the key: the mapping raises
    [KeyError] where the claim promises the empty string. *)
Lemma full_text_absent_counterexample :
  (∅ : raw) !! "description" = None
  /\ _full_text ∅ st0 = (Raise (KeyError (u "description")), st0)
  /\ _full_text ∅ st0 <> (Ok (FVal (JStr [])), st0).
Proof.
  assert (E : _full_text ∅ st0 = (Raise (KeyError (u "description")), st0))
    by (vm_compute; reflexivity).
  split; [vm_compute; reflexivity|]. split; [exact E|].
  rewrite E. discriminate.
Qed.

Lemma full_text_cases_witness :
  exists d,
    detail 1 !! "description" = Some (JStr d)
    /\ _full_text (detail 1) st0
       = (Ok (FVal (JStr match d with
                         | [] => []
                         | _ => remove_html_tags (py_replace (u "<br/>") [10%N] d)
                         end)), st0).
Proof.
  exists (u "Первый<br/>Второй").
  assert (E : detail 1 !! "description" = Some (JStr (u "Первый<br/>Второй")))
    by (vm_compute; reflexivity).
  split; [exact E|].
  exact (proj2 (proj2 (full_text_cases (detail 1) st0)) _ E).
Defined.

Lemma adress_online_witness :
  online_record !! "placeAddress" = Some (JStr (u " ОНЛАЙН, Zoom 123 "))
  /\ py_in (u "онлайн") (lower (cleaned_address (u " ОНЛАЙН, Zoom 123 "))) = true
  /\ _adress online_record st0 = (Ok (FVal (JStr (u "Онлайн"))), st0).
Proof.
  assert (E1 : online_record !! "placeAddress" = Some (JStr (u " ОНЛАЙН, Zoom 123 ")))
    by (vm_compute; reflexivity).
  assert (E2 : py_in (u "онлайн") (lower (cleaned_address (u " ОНЛАЙН, Zoom 123 "))) = true)
    by (vm_compute; reflexivity).
  split; [exact E1|]. split; [exact E2|].
  exact (adress_online online_record _ st0 E1 E2).
Defined.

(** C3 as stated fails: [_date_from] writes to the instance, and
    [_date_from_to] fails on a fresh parser but succeeds once the two
    other date functions have run. *)
Lemma fields_stateless_counterexample :
  ~ all_fields_stateless
  /\ _date_from_ (field date_from (detail 1) st0).2 = Some 29
  /\ (_date_from_to (detail 1) st0).1 = Raise AttributeError
  /\ ((x <- _date_from (detail 1);; y <- _date_to (detail 1);;
       _date_from_to (detail 1)) st0).1
     = Ok (FVal (JStr (u "29-#29"))).
Proof.
  assert (F : _date_from_ (field date_from (detail 1) st0).2 = Some 29)
    by (vm_compute; reflexivity).
  split.
  - intros Hc. rewrite (proj1 (Hc date_from (detail 1) st0 st0)) in F.
    discriminate F.
  - split; [exact F|]. split; vm_compute; reflexivity.
Qed.

Lemma fields_stateless_witness :
  id <> date_from /\ id <> date_to /\ id <> date_from_to
  /\ stateless (field id (detail 1)).
Proof.
  assert (N1 : id <> date_from) by discriminate.
  assert (N2 : id <> date_to) by discriminate.
  assert (N3 : id <> date_from_to) by discriminate.
  repeat (split; [assumption|]).
  exact (proj1 fields_stateless_but_dates id (detail 1) N1 N2 N3).
Defined.

Lemma get_event_cases_witness :
  JInt 1 <> JNull
  /\ request_get_event (net st0) (BASE_EVENTS_API ++ u "/" ++ py_str (JInt 1))
     = (demo_detail (BASE_EVENTS_API ++ u "/" ++ py_str (JInt 1)), 1%nat)
  /\ get_event (JInt 1) None None st0
     = let s' := sent (EventRequest (BASE_EVENTS_API ++ u "/" ++ py_str (JInt 1))) 1%nat st0 in
       if status_code (demo_detail (BASE_EVENTS_API ++ u "/" ++ py_str (JInt 1))) =? 200
       then (event_json_data <- lift (json (demo_detail (BASE_EVENTS_API ++ u "/" ++ py_str (JInt 1))));;
             parse event_json_data (tags_or_all None)) s'
       else (Raise (fetch_failed (demo_detail (BASE_EVENTS_API ++ u "/" ++ py_str (JInt 1)))), s').
Proof.
  assert (N : JInt 1 <> JNull) by discriminate.
  assert (E : request_get_event (net st0) (BASE_EVENTS_API ++ u "/" ++ py_str (JInt 1))
              = (demo_detail (BASE_EVENTS_API ++ u "/" ++ py_str (JInt 1)), 1%nat))
    by reflexivity.
  split; [exact N|]. split; [exact E|].
  exact (proj2 (proj2 (get_event_cases None st0)) (JInt 1) None _ _ N E).
Defined.

Lemma paginator_bounded_witness :
  0 <= 100
  /\ super_tag_of (u "sport") = inr (Some 5)
  /\ request_get_events (net st0) sport_request = (demo_list sport_request, 1%nat)
  /\ decoded_page (demo_list sport_request) = inr (repeat (summary 7) 21)
  /\ page_loop (fuel_for 0) 1 2 1 false (Some [id]) (u "sport") 0 [] st0
     = (events' <- process_page (Some [id]) [] (repeat (summary 7) 21);;
        if Z.of_nat (length (repeat (summary 7) 21)) <? limit
        then ret (0, events')
        else page_loop (fuel_for (0 + (limit - 1))) 1 2 1 false (Some [id])
               (u "sport") (0 + (limit - 1)) events')
         (sent (ListRequest sport_request) 1%nat st0).
Proof.
  assert (H0 : 0 <= 100) by lia.
  assert (H1 : super_tag_of (u "sport") = inr (Some 5)) by (vm_compute; reflexivity).
  assert (H2 : request_get_events (net st0) sport_request
               = (demo_list sport_request, 1%nat)) by reflexivity.
  assert (H3 : decoded_page (demo_list sport_request) = inr (repeat (summary 7) 21))
    by reflexivity.
  split; [exact H0|]. split; [exact H1|]. split; [exact H2|]. split; [exact H3|].
  exact (proj1 (proj2 (paginator_bounded 1 2 1 false (Some [id]) (u "sport") 0 [] st0))
           H0 (Some 5) (demo_list sport_request) 1%nat (repeat (summary 7) 21)
           H1 H2 H3).
Defined.

(** The six requests of an endless category, and nothing for the category
    that follows it. *)
Example sport_then_concert_offsets :
  list_offsets (requests (get_events
     (Some {[ "category" := PList [u "sport"; u "concert"] ]}) (Some [id]) st0).2)
  = [0; 20; 40; 60; 80; 100].
Proof. vm_compute. reflexivity. Qed.

(** The demo server echoes ids. *)
Lemma demo_echoes_id : detail_echoes_id.
Proof.
  intros w w' v r e Hr Hj.
  change (request_get_event w (BASE_EVENTS_API ++ u "/" ++ py_str v))
    with (demo_detail (BASE_EVENTS_API ++ u "/" ++ py_str v), S w) in Hr.
  injection Hr as <- _. unfold demo_detail in Hj.
  destruct (list_find _ known_events) as [[k n]|] eqn:Ef; [|discriminate Hj].
  injection Hj as <-.
  apply list_find_Some in Ef as (_ & Hb & _).
  apply bool_decide_unpack in Hb.
  assert (Hb' : BASE_EVENTS_API ++ u "/" ++ py_str v
                = BASE_EVENTS_API ++ u "/" ++ str_int n) by exact Hb.
  apply app_inv_head in Hb'. apply app_inv_head in Hb'.
  exists (JInt n). split; [|symmetry; exact Hb'].
  unfold detail. cbn [list_to_map foldr]. apply lookup_insert_eq.
Qed.

Lemma seen_ids_deduplicate_witness :
  _id_pure (summary 1) = inr (u "RADARIO-1")
  /\ u "RADARIO-1" ∈ existed_event_ids st_seen
  /\ process_event (Some [id]) [] (summary 1) st_seen = (Ok [], st_seen)
  /\ get_events concert_theatre (Some [id]) st_seen = (Ok second_events, second_state)
  /\ exists ids,
       ids_of second_events ids
       /\ existed_event_ids second_state = existed_event_ids st_seen ++ ids
       /\ NoDup ids /\ Forall (fun i => i ∉ existed_event_ids st_seen) ids.
Proof.
  assert (H1 : _id_pure (summary 1) = inr (u "RADARIO-1")) by (vm_compute; reflexivity).
  assert (H2 : u "RADARIO-1" ∈ existed_event_ids st_seen) by left.
  assert (H3 : get_events concert_theatre (Some [id]) st_seen
               = (Ok second_events, second_state)) by (vm_compute; reflexivity).
  split; [exact H1|]. split; [exact H2|].
  split; [exact (proj1 (seen_ids_deduplicate (Some [id])) [] (summary 1) st_seen _ H1 H2)|].
  split; [exact H3|].
  destruct (proj1 (proj2 (seen_ids_deduplicate (Some [id]))) _ _ _ _ H3)
    as [ids [F [X C]]].
  exists ids. split; [exact F|]. split; [exact X|]. exact (C demo_echoes_id).
Defined.

(** The ids it returns: event 1 is left out, event 2 comes once. *)
Example second_fetch_ids :
  map event_id_attr second_events = [inr (u "RADARIO-2"); inr (u "RADARIO-3")]
  /\ existed_event_ids second_state = [u "RADARIO-1"; u "RADARIO-2"; u "RADARIO-3"].
Proof. split; vm_compute; reflexivity. Qed.

(** C1 as stated fails for the empty name: it is not one of the available
    categories, yet the loop accepts it, issues no warning for it and
    returns the event the list endpoint gives when no category is asked
    for; without it the same request returns nothing. *)
Lemma empty_category_counterexample :
  let r := get_events (Some {[ "category" := PList [u ""; u "bogus"] ]})
             (Some [id]) st0 in
  (u "" ∉ AVAILABLE_CATEGORIES)
  /\ r.1 = Ok [[(id, FVal (JStr (u "RADARIO-9")))]]
  /\ warnings r.2 = [u "bogus"]
  /\ (get_events (Some {[ "category" := PList [u "bogus"] ]}) (Some [id]) st0).1
     = Ok [].
Proof.
  cbv zeta. split.
  - intros Hin. apply list_elem_of_In in Hin. cbv in Hin.
    repeat (destruct Hin as [Hin|Hin]; [discriminate Hin|]). exact Hin.
  - split; [vm_compute; reflexivity|].
    split; vm_compute; reflexivity.
Qed.

(** An unknown name between two categories: both still give their events
    and the name is warned about. *)
Example bogus_between_categories :
  let r := get_events
             (Some {[ "category" := PList [u "concert"; u "bogus"; u "theatre"] ]})
             (Some [id]) st0 in
  omap (fun e => match event_id_attr e with inr i => Some i | inl _ => None end)
    match r.1 with Ok evs => evs | _ => [] end
  = [u "RADARIO-1"; u "RADARIO-2"; u "RADARIO-3"]
  /\ warnings r.2 = [u "bogus"]
  /\ known [u "concert"; u "bogus"; u "theatre"] = [u "concert"; u "theatre"]
  /\ unknown [u "concert"; u "bogus"; u "theatre"] = [u "bogus"].
Proof. cbv zeta. split; [|split; [|split]]; vm_compute; reflexivity. Qed.

(** C2: the code at the parameters [date_from = "2020-01-01"] and
    [date_to = "2020-01-02"]. The claim and the docstring say these give
    the range of dates; the call does what the call without parameters
    does, and asks the list endpoint for the dates from tomorrow to eight
    days after tomorrow. *)
Theorem date_from_to_ignored :
  get_events (Some dated_params) (Some [id]) st0
  = get_events None (Some [id]) st0
  /\ requested_dates (requests (get_events (Some dated_params) (Some [id]) st0).2)
     = [(strftime (today (net st0) + day_us),
         strftime (today (net st0) + 9 * day_us))].
Proof.
  split.
  - unfold dated_params.
    rewrite !get_events_ignores_key by discriminate. reflexivity.
  - vm_compute. reflexivity.
Qed.

(** With [days] the range ends that many days after tomorrow. *)
Example days_three_range :
  requested_dates
    (requests (get_events (Some {[ "days" := PVal (JStr (u "3")) ]})
                 (Some [id]) st0).2)
  = [(strftime (today (net st0) + day_us),
      strftime (today (net st0) + 4 * day_us))].
Proof. vm_compute. reflexivity. Qed.

(** C9 as stated fails on a float written with an exponent: the text
    before the point is not the numeral of the truncated price. *)
Lemma price_exponent_counterexample :
  huge_price_record !! "minPrice" = Some (JFloat (FFinite false [1%N] 17))
  /\ huge_price_record !! "currency" = Some (JStr (u "RUB"))
  /\ float_trunc (FFinite false [1%N] 17) = Some 10000000000000000
  /\ _price huge_price_record st0 = (Ok (FVal (JStr (u "1e+16₽"))), st0)
  /\ _price huge_price_record st0
     <> (Ok (FVal (JStr (str_int 10000000000000000 ++ u "₽"))), st0).
Proof.
  assert (E : _price huge_price_record st0 = (Ok (FVal (JStr (u "1e+16₽"))), st0))
    by (vm_compute; reflexivity).
  split; [vm_compute; reflexivity|]. split; [vm_compute; reflexivity|].
  split; [vm_compute; reflexivity|]. split; [exact E|].
  rewrite E. vm_compute. discriminate.
Qed.

Lemma price_truncated_witness :
  price_record !! "currency" = Some (JStr (u "RUB"))
  /\ price_record !! "minPrice" = Some (JFloat (FFinite false [1; 2; 3; 4; 5; 6]%N 4))
  /\ plain_float (FFinite false [1; 2; 3; 4; 5; 6]%N 4)
  /\ float_trunc (FFinite false [1; 2; 3; 4; 5; 6]%N 4) = Some 1234
  /\ _price price_record st0
     = (Ok (FVal (JStr (str_int 1234 ++ py_replace (u "RUB") (u "₽") (u "RUB")))),
        st0).
Proof.
  assert (H1 : price_record !! "currency" = Some (JStr (u "RUB")))
    by (vm_compute; reflexivity).
  assert (H2 : price_record !! "minPrice"
               = Some (JFloat (FFinite false [1; 2; 3; 4; 5; 6]%N 4)))
    by (vm_compute; reflexivity).
  assert (H3 : plain_float (FFinite false [1; 2; 3; 4; 5; 6]%N 4)).
  { split; [split|].
    - repeat constructor.
    - right. exists 1%N, [2; 3; 4; 5; 6]%N. split; [reflexivity|discriminate].
    - split; [discriminate|]. split; [lia|discriminate]. }
  assert (H4 : float_trunc (FFinite false [1; 2; 3; 4; 5; 6]%N 4) = Some 1234)
    by reflexivity.
  split; [exact H1|]. split; [exact H2|]. split; [exact H3|]. split; [exact H4|].
  exact (proj2 (price_truncated price_record (u "RUB") st0 H1) _ _ H2 H3 H4).
Defined.

(** The testable property itself, and two prices outside the amended
    claim: a negative fraction and a tiny price. *)
Example price_1234_56 :
  _price price_record st0 = (Ok (FVal (JStr (u "1234₽"))), st0).
Proof. vm_compute. reflexivity. Qed.

Example price_negative_fraction :
  _price {[ "minPrice" := JFloat (FFinite true [5%N] 0);
            "currency" := JStr (u "RUB") ]} st0
  = (Ok (FVal (JStr (u "-0₽"))), st0)
  /\ float_trunc (FFinite true [5%N] 0) = Some 0.
Proof. split; vm_compute; reflexivity. Qed.

Example price_other_currency :
  _price {[ "minPrice" := JInt 15; "currency" := JStr (u "USD") ]} st0
  = (Ok (FVal (JStr (u "15USD"))), st0).
Proof. vm_compute. reflexivity. Qed.

End Closed.

Section MismatchClosed.
Import Mismatch.

(** C4 as stated fails when the detail endpoint answers with a record of
    another id: the summary of event 2 is new, so its detail is fetched;
    the event that comes back has the id of event 1, which was in the
    list of seen ids, and it is returned and its id appended again. *)
Lemma seen_id_returned_counterexample :
  let r := get_events (Some {[ "category" := PList [u "concert"] ]})
             (Some [id]) Inputs.st_seen in
  u "RADARIO-1" ∈ existed_event_ids Inputs.st_seen
  /\ r.1 = Ok [[(id, FVal (JStr (u "RADARIO-1")))]]
  /\ existed_event_ids r.2 = [u "RADARIO-1"; u "RADARIO-1"]
  /\ ~ detail_echoes_id.
Proof.
  cbv zeta.
  assert (H1 : u "RADARIO-1" ∈ existed_event_ids Inputs.st_seen) by left.
  split; [exact H1|]. split; [vm_compute; reflexivity|].
  split; [vm_compute; reflexivity|].
  intros Hc.
  destruct (Hc O 1%nat (JInt 2) (mismatch_detail (BASE_EVENTS_API ++ u "/" ++ py_str (JInt 2)))
              (Demo.detail 1) eq_refl eq_refl) as [v' [Hv Hs]].
  assert (Hid : Demo.detail 1 !! "id" = Some (JInt 1)) by (vm_compute; reflexivity).
  rewrite Hid in Hv. injection Hv as <-. vm_compute in Hs. discriminate Hs.
Qed.

End MismatchClosed.

(** * The further properties on examples *)

Section MoreClosed.
Import Demo Inputs MoreInputs.

Local Notation "x <- m ;; k" := (bind m (fun x => k))
  (at level 100, m at next level, right associativity).

Lemma accepted_categories_resolve_witness :
  u "sport" ∈ AVAILABLE_CATEGORIES ++ [[]]
  /\ exists x, super_tag_of (u "sport") = inr x /\ (x = None <-> u "sport" = []).
Proof.
  assert (H : u "sport" ∈ AVAILABLE_CATEGORIES ++ [[]])
    by (apply (bool_decide_unpack _); vm_compute; exact I).
  split; [exact H|]. exact (accepted_categories_resolve (u "sport") H).
Defined.

(** The resolver knows a name the loop does not accept. *)
Example active_resolves_but_is_skipped :
  categories_to_id (u "Active") = inr 1669
  /\ known [u "Active"] = [].
Proof. split; vm_compute; reflexivity. Qed.


(** City names are matched in lower case. *)
Example city_any_case :
  cities_to_id (PVal (JStr (u "MSK"))) = inr 2
  /\ cities_to_id (PVal (JStr (u "Spb"))) = inr 1
  /\ cities_to_id (PVal JNull) = inl AttributeError.
Proof. repeat split; vm_compute; reflexivity. Qed.

Lemma category_string_warns_per_char_witness :
  sport_as_string !! "category" = Some (PVal (JStr (u "sport")))
  /\ match sport_as_string !! "city" with
     | Some c => cities_to_id c
     | None => inr 1
     end = inr 1
  /\ date_range (today (net st0)) sport_as_string
     = inr (738001 * day_us, 738009 * day_us)
  /\ get_events (Some sport_as_string) None st0
     = (Ok [], warn_all (map (fun c => [c]) (u "sport")) st0)
  /\ warnings (warn_all (map (fun c => [c]) (u "sport")) st0)
     = warnings st0 ++ map (fun c => [c]) (u "sport")
  /\ requests (warn_all (map (fun c => [c]) (u "sport")) st0) = requests st0.
Proof.
  assert (H1 : sport_as_string !! "category" = Some (PVal (JStr (u "sport"))))
    by (vm_compute; reflexivity).
  assert (H2 : match sport_as_string !! "city" with
               | Some c => cities_to_id c
               | None => inr 1
               end = inr 1) by (vm_compute; reflexivity).
  assert (H3 : date_range (today (net st0)) sport_as_string
               = inr (738001 * day_us, 738009 * day_us))
    by (vm_compute; reflexivity).
  split; [exact H1|]. split; [exact H2|]. split; [exact H3|].
  exact (category_string_warns_per_char sport_as_string (u "sport") 1
           (738001 * day_us, 738009 * day_us) None st0 H1 H2 H3).
Defined.

Example category_string_warnings :
  warnings (get_events (Some sport_as_string) None st0).2
  = [u "s"; u "p"; u "o"; u "r"; u "t"].
Proof. vm_compute. reflexivity. Qed.

Lemma failed_list_response_is_empty_page_witness :
  0 <= 100
  /\ super_tag_of (u "museum") = inr (Some 3)
  /\ request_get_events (net st0) museum_request
     = (demo_list museum_request, 1%nat)
  /\ lr_ok (demo_list museum_request) = false
  /\ page_loop (fuel_for 0) 1 2 1 false (Some [id]) (u "museum") 0 [] st0
     = (Ok (0, []), sent (ListRequest museum_request) 1%nat st0).
Proof.
  assert (H0 : 0 <= 100) by lia.
  assert (H1 : super_tag_of (u "museum") = inr (Some 3)) by (vm_compute; reflexivity).
  assert (H2 : request_get_events (net st0) museum_request
               = (demo_list museum_request, 1%nat)) by reflexivity.
  assert (H3 : lr_ok (demo_list museum_request) = false) by reflexivity.
  split; [exact H0|]. split; [exact H1|]. split; [exact H2|]. split; [exact H3|].
  exact (failed_list_response_is_empty_page 1 2 1 false (Some [id]) (u "museum")
           0 [] st0 (Some 3) (demo_list museum_request) 1%nat H0 H1 H2 H3).
Defined.

Lemma list_requests_carry_parameters_witness :
  match moscow_online !! "city" with
  | Some c => cities_to_id c
  | None => inr 1
  end = inr 2
  /\ date_range (today (net st0)) moscow_online
     = inr (738001 * day_us, 738003 * day_us)
  /\ match moscow_online !! "category" with
     | Some v => iterate v
     | None => inr [[]]
     end = inr [u "theatre"; u "bogus"; u "concert"]
  /\ exists l,
       requests (get_events (Some moscow_online) (Some [id]) st0).2
       = requests st0 ++ l
       /\ Forall (carries (738001 * day_us, 738003 * day_us).1
                    (738001 * day_us, 738003 * day_us).2 2
                    match moscow_online !! "online" with
                    | Some v => ptruthy v
                    | None => false
                    end (known [u "theatre"; u "bogus"; u "concert"]))
            (list_params l).
Proof.
  assert (H1 : match moscow_online !! "city" with
               | Some c => cities_to_id c
               | None => inr 1
               end = inr 2) by (vm_compute; reflexivity).
  assert (H2 : date_range (today (net st0)) moscow_online
               = inr (738001 * day_us, 738003 * day_us))
    by (vm_compute; reflexivity).
  assert (H3 : match moscow_online !! "category" with
               | Some v => iterate v
               | None => inr [[]]
               end = inr [u "theatre"; u "bogus"; u "concert"])
    by (vm_compute; reflexivity).
  split; [exact H1|]. split; [exact H2|]. split; [exact H3|].
  exact (list_requests_carry_parameters moscow_online 2
           (738001 * day_us, 738003 * day_us)
           [u "theatre"; u "bogus"; u "concert"] (Some [id]) st0 H1 H2 H3).
Defined.

(** The two list requests of that call. *)
Example moscow_online_requests :
  list_params (requests (get_events (Some moscow_online) (Some [id]) st0).2)
  = [ {| p_from := strftime (738001 * day_us); p_to := strftime (738003 * day_us);
         p_cityId := 2; p_limit := 21; p_offset := 0; p_online := true;
         p_superTagId := Some 2 |};
      {| p_from := strftime (738001 * day_us); p_to := strftime (738003 * day_us);
         p_cityId := 2; p_limit := 21; p_offset := 0; p_online := true;
         p_superTagId := Some 1 |} ].
Proof. vm_compute. reflexivity. Qed.

(** Sport gives full pages up to the cap; the categories after it start
    beyond the cap and send nothing. *)
Example offsets_after_sport :
  list_offsets
    (requests (get_events
                 (Some {[ "category" := PList [u "concert"; u "sport"; u "theatre"] ]})
                 (Some [id]) st0).2)
  = [0; 0; 20; 40; 60; 80; 100].
Proof. vm_compute. reflexivity. Qed.

Lemma url_round_trip_witness :
  detail 1 !! "id" = Some (JInt 1)
  /\ _url (detail 1) st0 = (Ok (FVal (JStr (BASE_URL ++ str_int 1))), st0)
  /\ last_segment (BASE_URL ++ str_int 1) = str_int 1
  /\ get_event JNull (Some (BASE_URL ++ str_int 1)) (Some [id]) st0
     = get_event (JInt 1) None (Some [id]) st0.
Proof.
  assert (H1 : detail 1 !! "id" = Some (JInt 1)) by (vm_compute; reflexivity).
  split; [exact H1|].
  exact (url_round_trip (detail 1) 1 (Some [id]) st0 H1).
Defined.

Example url_of_event_1 :
  _url (detail 1) st0 = (Ok (FVal (JStr (u "https://radario.ru/events/1"))), st0).
Proof. vm_compute. reflexivity. Qed.

(** The prefix is removed wherever it occurs in the id. *)
Example url_of_string_id :
  _url {[ "id" := JStr (u "aRADARIO-b") ]} st0
  = (Ok (FVal (JStr (u "https://radario.ru/events/ab"))), st0).
Proof. vm_compute. reflexivity. Qed.

Lemma stripped_fields_witness :
  ((category = category /\ "superTagName" = "superTagName")
   \/ (category = place_name /\ "superTagName" = "placeTitle"))
  /\ spaced_record !! "superTagName" = Some (JStr (u "  Концерты и шоу   "))
  /\ field category spaced_record st0
     = (Ok (FVal (JStr (py_strip (u "  Концерты и шоу   ")))), st0)
  /\ trimmed (py_strip (u "  Концерты и шоу   "))
  /\ (trimmed (u "  Концерты и шоу   ")
      -> py_strip (u "  Концерты и шоу   ") = u "  Концерты и шоу   ").
Proof.
  assert (H1 : (category = category /\ "superTagName" = "superTagName")
               \/ (category = place_name /\ "superTagName" = "placeTitle"))
    by (left; split; reflexivity).
  assert (H2 : spaced_record !! "superTagName"
               = Some (JStr (u "  Концерты и шоу   "))) by (vm_compute; reflexivity).
  split; [exact H1|]. split; [exact H2|].
  exact (stripped_fields category "superTagName" spaced_record
           (u "  Концерты и шоу   ") st0 H1 H2).
Defined.

Example stripped_category :
  field category spaced_record st0 = (Ok (FVal (JStr (u "Концерты и шоу"))), st0).
Proof. vm_compute. reflexivity. Qed.

Lemma missing_key_raises_witness :
  required_key price = Some "minPrice"
  /\ (∅ : raw) !! "minPrice" = None
  /\ field price ∅ st0 = (Raise (KeyError (u "minPrice")), st0).
Proof.
  assert (H1 : required_key price = Some "minPrice") by reflexivity.
  assert (H2 : (∅ : raw) !! "minPrice" = None) by reflexivity.
  split; [exact H1|]. split; [exact H2|].
  exact (missing_key_raises price "minPrice" ∅ st0 H1 H2).
Defined.

Lemma days_parameter_witness :
  three_days !! "days" = Some (PVal (JStr (u "3")))
  /\ 0 <= today (net st0) + day_us < datetime_end
  /\ py_int (PVal (JStr (u "3"))) = inr 3
  /\ Z.abs 3 <= 999999999
  /\ 0 <= today (net st0) + (1 + 3) * day_us < datetime_end
  /\ date_range (today (net st0)) three_days
     = inr (today (net st0) + day_us, today (net st0) + (1 + 3) * day_us).
Proof.
  assert (H1 : three_days !! "days" = Some (PVal (JStr (u "3"))))
    by (vm_compute; reflexivity).
  assert (H2 : 0 <= today (net st0) + day_us < datetime_end)
    by (vm_compute; split; [discriminate|reflexivity]).
  assert (H3 : py_int (PVal (JStr (u "3"))) = inr 3) by (vm_compute; reflexivity).
  assert (H4 : Z.abs 3 <= 999999999) by lia.
  assert (H5 : 0 <= today (net st0) + (1 + 3) * day_us < datetime_end)
    by (vm_compute; split; [discriminate|reflexivity]).
  split; [exact H1|]. split; [exact H2|]. split; [exact H3|]. split; [exact H4|].
  split; [exact H5|].
  exact (proj2 (days_parameter three_days _ None st0 H1 H2) 3 H3 H4 H5).
Defined.

(** A value of [days] that [int()] refuses fails the call before any
    request. *)
Example days_not_a_number :
  get_events (Some {[ "days" := PVal (JStr (u "week")) ]}) None st0
  = (Raise (ValueError (u "invalid literal for int() with base 10")), st0).
Proof. vm_compute. reflexivity. Qed.

Lemma adress_city_cases_witness :
  street_first !! "placeAddress"
  = Some (JStr (u "Дворцовая площадь, Санкт-Петербург, вход со двора"))
  /\ py_in (u "онлайн")
       (lower (cleaned_address (u "Дворцовая площадь, Санкт-Петербург, вход со двора")))
     = false
  /\ street_first !! "cityName" = Some JNull
  /\ cleaned_address (u "Дворцовая площадь, Санкт-Петербург, вход со двора")
     = u "Дворцовая площадь" ++ (u ", " ++ u "Санкт-Петербург")
       ++ u ", вход со двора"
  /\ _adress street_first st0 = (Ok (FVal (JStr (u "Дворцовая площадь"))), st0).
Proof.
  assert (H1 : street_first !! "placeAddress"
               = Some (JStr (u "Дворцовая площадь, Санкт-Петербург, вход со двора")))
    by (vm_compute; reflexivity).
  assert (H2 : py_in (u "онлайн")
                 (lower (cleaned_address
                           (u "Дворцовая площадь, Санкт-Петербург, вход со двора")))
               = false) by (vm_compute; reflexivity).
  assert (H3 : street_first !! "cityName" = Some JNull) by (vm_compute; reflexivity).
  assert (H4 : cleaned_address (u "Дворцовая площадь, Санкт-Петербург, вход со двора")
               = u "Дворцовая площадь" ++ (u ", " ++ u "Санкт-Петербург")
                 ++ u ", вход со двора") by (vm_compute; reflexivity).
  assert (H5 : forall street' rest',
             cleaned_address (u "Дворцовая площадь, Санкт-Петербург, вход со двора")
             = street' ++ (u ", " ++ u "Санкт-Петербург") ++ rest' ->
             (length (u "Дворцовая площадь") <= length street')%nat).
  { intros street' rest' E.
    destruct (py_find_cases (u ", " ++ u "Санкт-Петербург")
                (cleaned_address (u "Дворцовая площадь, Санкт-Петербург, вход со двора")))
      as [[_ N]|(pre & post & _ & F & M)]; [destruct (N _ _ E)|].
    specialize (M _ _ E).
    assert (F' : py_find (u ", " ++ u "Санкт-Петербург")
                   (cleaned_address (u "Дворцовая площадь, Санкт-Петербург, вход со двора"))
                 = 17) by (vm_compute; reflexivity).
    rewrite F' in F. change (length (u "Дворцовая площадь")) with 17%nat. lia. }
  split; [exact H1|]. split; [exact H2|]. split; [exact H3|]. split; [exact H4|].
  exact (proj1 (adress_city_cases street_first _ JNull st0 H1 H2 H3) _ _ H4 H5).
Defined.

(** The address of the demo records: the zip code goes, then the city
    that leads the address. *)
Example adress_of_event_1 :
  _adress (detail 1) st0 = (Ok (FVal (JStr (u "Невский пр., 1"))), st0).
Proof. vm_compute. reflexivity. Qed.

(** A house number between a space and a comma is taken for a zip code
    (line 150) and removed with it. *)
Example house_number_removed :
  _adress {[ "placeAddress" := JStr (u "Невский пр., 1, Санкт-Петербург");
             "cityName" := JNull ]} st0
  = (Ok (FVal (JStr (u "Невский пр."))), st0).
Proof. vm_compute. reflexivity. Qed.

Lemma date_fields_compose_witness :
  detail 1 !! "beginDate" = Some (JStr (u "2024-05-01T19:00:00.000+03:00"))
  /\ detail 1 !! "endDate" = Some (JStr (u "2024-05-01T22:00:00.000+03:00"))
  /\ strptime_astimezone (u "2024-05-01T19:00:00.000+03:00") = Some 29
  /\ strptime_astimezone (u "2024-05-01T22:00:00.000+03:00") = Some 29
  /\ (v1 <- _date_from (detail 1);;
      v2 <- _date_to (detail 1);;
      v3 <- _date_from_to ∅;;
      ret (v1, v2, v3)) st0
     = (Ok (FDate 29, FDate 29,
            FVal (JStr (str_datetime 29 ++ u "-#" ++ str_datetime 29))),
        set_date_to_ 29 (set_date_from_ 29 st0)).
Proof.
  assert (H1 : detail 1 !! "beginDate"
               = Some (JStr (u "2024-05-01T19:00:00.000+03:00")))
    by (vm_compute; reflexivity).
  assert (H2 : detail 1 !! "endDate"
               = Some (JStr (u "2024-05-01T22:00:00.000+03:00")))
    by (vm_compute; reflexivity).
  assert (H3 : strptime_astimezone (u "2024-05-01T19:00:00.000+03:00") = Some 29)
    by (vm_compute; reflexivity).
  assert (H4 : strptime_astimezone (u "2024-05-01T22:00:00.000+03:00") = Some 29)
    by (vm_compute; reflexivity).
  split; [exact H1|]. split; [exact H2|]. split; [exact H3|]. split; [exact H4|].
  exact (date_fields_compose (detail 1) ∅ _ _ 29 29 st0 H1 H2 H3 H4).
Defined.

(** A fresh parser asked for the joined dates first has nothing stashed. *)
Example date_from_to_first :
  _date_from_to (detail 1) st0 = (Raise AttributeError, st0).
Proof. reflexivity. Qed.

Lemma non_string_raises_witness :
  (place_name = adress \/ place_name = category \/ place_name = place_name
   \/ place_name = title)
  /\ required_key place_name = Some "placeTitle"
  /\ null_place !! "placeTitle" = Some JNull
  /\ (forall text, JNull <> JStr text)
  /\ field place_name null_place st0 = (Raise AttributeError, st0).
Proof.
  assert (H1 : place_name = adress \/ place_name = category
               \/ place_name = place_name \/ place_name = title)
    by (right; right; left; reflexivity).
  assert (H2 : required_key place_name = Some "placeTitle") by reflexivity.
  assert (H3 : null_place !! "placeTitle" = Some JNull) by reflexivity.
  assert (H4 : forall text, JNull <> JStr text) by discriminate.
  split; [exact H1|]. split; [exact H2|]. split; [exact H3|]. split; [exact H4|].
  exact (non_string_raises place_name "placeTitle" null_place JNull st0
           H1 H2 H3 H4).
Defined.

Lemma empty_tags_select_all_witness :
  JInt 1 <> JNull
  /\ request_get_event (net st0) (BASE_EVENTS_API ++ u "/" ++ py_str (JInt 1))
     = (demo_detail (BASE_EVENTS_API ++ u "/" ++ py_str (JInt 1)), 1%nat)
  /\ status_code (demo_detail (BASE_EVENTS_API ++ u "/" ++ py_str (JInt 1))) = 200
  /\ json (demo_detail (BASE_EVENTS_API ++ u "/" ++ py_str (JInt 1)))
     = inr (detail 1)
  /\ get_event (JInt 1) None (Some []) st0
     = parse (detail 1) ALL_EVENT_TAGS
         (sent (EventRequest (BASE_EVENTS_API ++ u "/" ++ py_str (JInt 1)))
            1%nat st0).
Proof.
  assert (H1 : JInt 1 <> JNull) by discriminate.
  assert (H2 : request_get_event (net st0)
                 (BASE_EVENTS_API ++ u "/" ++ py_str (JInt 1))
               = (demo_detail (BASE_EVENTS_API ++ u "/" ++ py_str (JInt 1)),
                  1%nat)) by reflexivity.
  assert (H3 : status_code
                 (demo_detail (BASE_EVENTS_API ++ u "/" ++ py_str (JInt 1)))
               = 200) by (vm_compute; reflexivity).
  assert (H4 : json (demo_detail (BASE_EVENTS_API ++ u "/" ++ py_str (JInt 1)))
               = inr (detail 1)) by reflexivity.
  split; [exact H1|]. split; [exact H2|]. split; [exact H3|]. split; [exact H4|].
  exact (proj1 (proj2 (proj2 (empty_tags_select_all None (JInt 1) None st0)))
           _ _ _ H1 H2 H3 H4).
Defined.

(** With [tags = []] every field of the demo record is mapped. *)
Example empty_tags_fields :
  match (get_event (JInt 1) None (Some []) st0).1 with
  | Ok ev => map fst ev
  | _ => []
  end = ALL_EVENT_TAGS.
Proof. vm_compute. reflexivity. Qed.

Lemma get_event_frame_witness :
  same_view st0 st_seen
  /\ (get_event (JInt 1) None (Some [id]) st_seen).1
     = (get_event (JInt 1) None (Some [id]) st0).1
  /\ same_view (get_event (JInt 1) None (Some [id]) st0).2
       (get_event (JInt 1) None (Some [id]) st_seen).2.
Proof.
  assert (H1 : same_view st0 st_seen) by (repeat split).
  split; [exact H1|].
  exact (proj1 (get_event_frame (JInt 1) None (Some [id]) st0) st_seen H1).
Defined.

(** After the failure of [days] the caller's dict has lost [online]. *)
Example days_failure_pops_online :
  get_events (Some online_week) None st0
  = (Raise (ValueError (u "invalid literal for int() with base 10")), st0)
  /\ params_left online_week (today (net st0))
     = {[ "days" := PVal (JStr (u "week")) ]}.
Proof.
  split; [vm_compute; reflexivity|reflexivity].
Qed.

End MoreClosed.

Section FlakyClosed.
Import Flaky.

Lemma broken_list_body_fails_witness :
  0 <= 100
  /\ super_tag_of (u "museum") = inr (Some 3)
  /\ request_get_events (net Demo.st0) museum_request
     = (flaky_list museum_request, 1%nat)
  /\ lr_ok (flaky_list museum_request) = true
  /\ lr_json (flaky_list museum_request) = inl (ValueError (u "Expecting value"))
  /\ page_loop (fuel_for 0) 1 2 1 false (Some [id]) (u "museum") 0 [] Demo.st0
     = (Raise (ValueError (u "Expecting value")),
        sent (ListRequest museum_request) 1%nat Demo.st0).
Proof.
  assert (H0 : 0 <= 100) by lia.
  assert (H1 : super_tag_of (u "museum") = inr (Some 3)) by (vm_compute; reflexivity).
  assert (H2 : request_get_events (net Demo.st0) museum_request
               = (flaky_list museum_request, 1%nat)) by reflexivity.
  assert (H3 : lr_ok (flaky_list museum_request) = true) by reflexivity.
  assert (H4 : lr_json (flaky_list museum_request)
               = inl (ValueError (u "Expecting value"))) by reflexivity.
  split; [exact H0|]. split; [exact H1|]. split; [exact H2|]. split; [exact H3|].
  split; [exact H4|].
  exact (broken_list_body_fails 1 2 1 false (Some [id]) (u "museum") 0 []
           Demo.st0 (Some 3) (flaky_list museum_request) 1%nat _ H0 H1 H2 H3 H4).
Defined.

Lemma detail_failure_fails_batch_witness :
  process_page (Some [id]) [] [Demo.summary 1] Demo.st0
  = (Ok [[(id, FVal (JStr (u "RADARIO-1")))]], after_first)
  /\ Demo.summary 4 !! "id" = Some (JInt 4)
  /\ JInt 4 <> JNull
  /\ ((parser_prefix ++ py_str (JInt 4)) ∉ existed_event_ids after_first)
  /\ request_get_event (net after_first)
       (BASE_EVENTS_API ++ u "/" ++ py_str (JInt 4))
     = (Demo.demo_detail (BASE_EVENTS_API ++ u "/" ++ py_str (JInt 4)), 2%nat)
  /\ status_code (Demo.demo_detail (BASE_EVENTS_API ++ u "/" ++ py_str (JInt 4)))
     <> 200
  /\ process_page (Some [id]) []
       ([Demo.summary 1] ++ Demo.summary 4 :: [Demo.summary 2]) Demo.st0
     = (Raise (fetch_failed
                 (Demo.demo_detail (BASE_EVENTS_API ++ u "/" ++ py_str (JInt 4)))),
        sent (EventRequest (BASE_EVENTS_API ++ u "/" ++ py_str (JInt 4))) 2%nat
          after_first).
Proof.
  assert (H1 : process_page (Some [id]) [] [Demo.summary 1] Demo.st0
               = (Ok [[(id, FVal (JStr (u "RADARIO-1")))]], after_first))
    by (vm_compute; reflexivity).
  assert (H2 : Demo.summary 4 !! "id" = Some (JInt 4)) by (vm_compute; reflexivity).
  assert (H3 : JInt 4 <> JNull) by discriminate.
  assert (H4 : (parser_prefix ++ py_str (JInt 4)) ∉ existed_event_ids after_first).
  { intros Hin. apply (bool_decide_pack _) in Hin. vm_compute in Hin. exact Hin. }
  assert (H5 : request_get_event (net after_first)
                 (BASE_EVENTS_API ++ u "/" ++ py_str (JInt 4))
               = (Demo.demo_detail (BASE_EVENTS_API ++ u "/" ++ py_str (JInt 4)),
                  2%nat)) by reflexivity.
  assert (H6 : status_code
                 (Demo.demo_detail (BASE_EVENTS_API ++ u "/" ++ py_str (JInt 4)))
               <> 200) by (vm_compute; discriminate).
  split; [exact H1|]. split; [exact H2|]. split; [exact H3|]. split; [exact H4|].
  split; [exact H5|]. split; [exact H6|].
  exact (detail_failure_fails_batch (Some [id]) [Demo.summary 1] [Demo.summary 2]
           (Demo.summary 4) [] _ Demo.st0 after_first (JInt 4) _ 2%nat
           H1 H2 H3 H4 H5 H6).
Defined.

(** The batch on this server: the error of the missing event, and the id
    of the first, which was fetched but is not returned, left in the list
    of seen ids. *)
Example failed_batch_keeps_seen_id :
  let r := get_events (Some {[ "category" := PList [u "concert"] ]})
             (Some [id]) Demo.st0 in
  r.1 = Raise (ValueError (u "Failed to fetch events. HTTP 404: Not Found"))
  /\ existed_event_ids r.2 = [u "RADARIO-1"].
Proof. cbv zeta. split; vm_compute; reflexivity. Qed.

End FlakyClosed.

